(** * The SAVBES chat widget: an embedding of its two front ends

    The repository ships the same chat twice:

    - [src/templates/index.html] carries an inline script (module [Inline]);
    - [src/static/js.js] is a self-installing script that looks for the
      element [#savbes-chat-container] and builds the chat inside it
      (module [Widget]).

    Both are modelled over one small model of what a browser gives a
    script: JavaScript strings and JSON values (module [Js]) and a document
    tree (module [Dom]).  Every handler is a function in a state-and-exception
    monad over the state its script can reach. *)

From Stdlib Require Import List NArith String Ascii Bool Lia.
From stdpp Require Import gmap.
Import ListNotations.

Set Warnings "-register-all".
#[local] Open Scope string_scope.
#[local] Open Scope list_scope.
#[local] Open Scope N_scope.

(** ** JavaScript strings and values *)

Module Js.

(** A JavaScript string is a sequence of UTF-16 code units. *)
Definition jsstring := list N.

(** Source literals are written as Rocq strings (UTF-8 bytes) and decoded
    to code units; [utf16_of_utf8] is only used for literals of the two
    scripts. *)
Fixpoint utf16_of_utf8 (bs : list N) : jsstring :=
  match bs with
  | [] => []
  | b :: r =>
      if b <? 128 then b :: utf16_of_utf8 r
      else if b <? 224 then
        match r with
        | c :: r1 => ((b - 192) * 64 + (c - 128)) :: utf16_of_utf8 r1
        | _ => []
        end
      else if b <? 240 then
        match r with
        | c :: d :: r2 =>
            ((b - 224) * 4096 + (c - 128) * 64 + (d - 128)) :: utf16_of_utf8 r2
        | _ => []
        end
      else
        match r with
        | c :: d :: e :: r3 =>
            let cp := (b - 240) * 262144 + (c - 128) * 4096
                      + (d - 128) * 64 + (e - 128) in
            let v := cp - 65536 in
            (55296 + v / 1024) :: (56320 + v mod 1024) :: utf16_of_utf8 r3
        | _ => []
        end
  end.

Definition lit (s : string) : jsstring :=
  utf16_of_utf8 (List.map N_of_ascii (list_ascii_of_string s)).

(** [a === b] on strings *)
Fixpoint str_eqb (a b : jsstring) : bool :=
  match a, b with
  | [], [] => true
  | x :: a', y :: b' => (x =? y) && str_eqb a' b'
  | _, _ => false
  end.

Definition is_empty (s : jsstring) : bool :=
  match s with [] => true | _ => false end.

(** WhiteSpace and LineTerminator of ECMAScript: what [String.prototype.trim]
    strips and what [\s] matches. *)
Definition is_whitespace (c : N) : bool :=
  (c =? 9) || (c =? 10) || (c =? 11) || (c =? 12) || (c =? 13) || (c =? 32)
  || (c =? 160) || (c =? 5760) || ((8192 <=? c) && (c <=? 8202))
  || (c =? 8232) || (c =? 8233) || (c =? 8239) || (c =? 8287)
  || (c =? 12288) || (c =? 65279).

Fixpoint trimStart (s : jsstring) : jsstring :=
  match s with
  | [] => []
  | c :: r => if is_whitespace c then trimStart r else s
  end.

Definition trimEnd (s : jsstring) : jsstring := rev (trimStart (rev s)).

(** [s.trim()] *)
Definition trim (s : jsstring) : jsstring := trimEnd (trimStart s).

Fixpoint startsWith (p s : jsstring) : bool :=
  match p, s with
  | [], _ => true
  | _ :: _, [] => false
  | a :: p', b :: s' => (a =? b) && startsWith p' s'
  end.

(** [s.includes(p)] *)
Fixpoint includes (s p : jsstring) : bool :=
  startsWith p s ||
  match s with
  | [] => false
  | _ :: r => includes r p
  end.

(** [s.replace(p, r)] for a string pattern [p] and a replacement [r] without
    [$]: only the leftmost occurrence is replaced. *)
Fixpoint replace (s p r : jsstring) : jsstring :=
  if startsWith p s then r ++ skipn (List.length p) s
  else match s with
       | [] => []
       | c :: s' => c :: replace s' p r
       end.

(** [s.replace(/\n/g, r)]: every line feed is replaced. *)
Definition replace_newlines (s r : jsstring) : jsstring :=
  flat_map (fun c => if c =? 10 then r else [c]) s.

(** [a.join(sep)] on strings. *)
Fixpoint join (sep : jsstring) (l : list jsstring) : jsstring :=
  match l with
  | [] => []
  | [x] => x
  | x :: r => x ++ sep ++ join sep r
  end.

(** *** Values read from a JSON body

    [VUndefined] is not JSON; it is what a missing property reads as.  A
    number is kept as its rendering [String(n)], which identifies it (both
    zeros render as [0]); the scripts only test numbers for truth and print
    them. *)
Inductive value :=
| VUndefined
| VNull
| VBool (b : bool)
| VNum (repr : jsstring)
| VStr (s : jsstring)
| VArr (items : list value)
| VObj (fields : gmap jsstring value).

(** ToBoolean *)
Definition truthy (v : value) : bool :=
  match v with
  | VUndefined | VNull => false
  | VBool b => b
  | VNum r => negb (str_eqb r (lit "0"))
  | VStr s => negb (is_empty s)
  | VArr _ | VObj _ => true
  end.

(** [typeof v === 'object'] *)
Definition typeof_object (v : value) : bool :=
  match v with
  | VNull | VArr _ | VObj _ => true
  | _ => false
  end.

(** Exceptions the scripts can meet. *)
Inductive exn :=
| TypeError (what : jsstring)
| NetworkError
| SyntaxError
| InvalidStateError.

(** [v.k] for the keys the scripts read ([response], [text]), which no
    prototype defines: an own property of an object, [undefined] on any other
    value, a TypeError on [null] and [undefined]. *)
Definition get (v : value) (k : jsstring) : exn + value :=
  match v with
  | VUndefined | VNull => inl (TypeError k)
  | VObj fields =>
      match fields !! k with
      | Some x => inr x
      | None => inr VUndefined
      end
  | _ => inr VUndefined
  end.

(** ToString.  A parsed object prints as [[object Object]] unless it has an
    own [toString] entry, which is never callable, and then conversion
    throws; an array joins its items with commas, [null] printing empty. *)
Fixpoint to_string (v : value) : option jsstring :=
  match v with
  | VUndefined => Some (lit "undefined")
  | VNull => Some (lit "null")
  | VBool true => Some (lit "true")
  | VBool false => Some (lit "false")
  | VNum r => Some r
  | VStr s => Some s
  | VArr items =>
      (fix items_to_string (l : list value) : option (list jsstring) :=
         match l with
         | [] => Some []
         | x :: r =>
             match (match x with
                    | VUndefined | VNull => Some []
                    | _ => to_string x
                    end), items_to_string r with
             | Some a, Some b => Some (a :: b)
             | _, _ => None
             end
         end) items ≫= fun parts => Some (join (lit ",") parts)
  | VObj fields =>
      match fields !! lit "toString" with
      | Some _ => None
      | None => Some (lit "[object Object]")
      end
  end.

(** *** Regular expressions (the fragment [phoneRegex] uses) *)
Inductive regex :=
| Chr (c : N)
| Cls (p : N -> bool)
| Seq (a b : regex)
| Alt (a b : regex)
| Opt (a : regex).

(** Backtracking matcher in continuation style: alternatives left to right,
    [?] greedy. *)
Fixpoint rmatch {R} (r : regex) (s : jsstring)
    (k : jsstring -> option R) : option R :=
  match r with
  | Chr c => match s with
             | x :: s' => if x =? c then k s' else None
             | [] => None
             end
  | Cls p => match s with
             | x :: s' => if p x then k s' else None
             | [] => None
             end
  | Seq a b => rmatch a s (fun s' => rmatch b s' k)
  | Alt a b => match rmatch a s k with
               | Some x => Some x
               | None => rmatch b s k
               end
  | Opt a => match rmatch a s k with
             | Some x => Some x
             | None => k s
             end
  end.

(** The text matched at the start of [s], if any. *)
Definition match_here (r : regex) (s : jsstring) : option jsstring :=
  rmatch r s (fun rest => Some (firstn (List.length s - List.length rest)%nat s)).

(** [s.match(r)[0]] for a regex without the [g] flag: leftmost match. *)
Fixpoint exec (r : regex) (s : jsstring) : option jsstring :=
  match match_here r s with
  | Some m => Some m
  | None => match s with
            | [] => None
            | _ :: s' => exec r s'
            end
  end.

(** [r.test(s)] *)
Definition test (r : regex) (s : jsstring) : bool :=
  match exec r s with Some _ => true | None => false end.

Definition is_digit (c : N) : bool := (48 <=? c) && (c <=? 57).

(** The least number of characters a match of [r] takes. *)
Fixpoint min_length (r : regex) : nat :=
  match r with
  | Chr _ | Cls _ => 1
  | Seq a b => min_length a + min_length b
  | Alt a b => Nat.min (min_length a) (min_length b)
  | Opt _ => 0
  end.

End Js.

(** ** The document tree *)

Module Dom.
Import Js.

(** What an element holds as far as the scripts look: the markup or the text
    written into it is kept as written, not parsed. *)
Inductive content :=
| Empty
| Text (s : jsstring)
| Html (s : jsstring).

(** An element.  [el_uid] stands for the identity of the JavaScript object:
    a reference kept by a closure is the uid. *)
Record element := mkElement {
  el_uid : nat;
  el_tag : jsstring;
  el_id : option jsstring;
  el_class : list jsstring;
  el_type : option jsstring;
  el_name : option jsstring;
  el_placeholder : option jsstring;
  el_value : jsstring;
  el_content : content
}.

Definition with_value (v : jsstring) (e : element) : element :=
  mkElement (el_uid e) (el_tag e) (el_id e) (el_class e) (el_type e)
            (el_name e) (el_placeholder e) v (el_content e).

Inductive node := Node (e : element) (kids : list node).

Definition root (t : node) : element := match t with Node e _ => e end.
Definition children (t : node) : list node := match t with Node _ k => k end.

(** An HTML document always has a head and a body. *)
Record document := mkDocument { head : node; body : node }.

(** First result of [f] along a list. *)
Fixpoint first_some {A B} (f : A -> option B) (l : list A) : option B :=
  match l with
  | [] => None
  | x :: r => match f x with
              | Some y => Some y
              | None => first_some f r
              end
  end.

(** Rewrite the first element of the list that [f] accepts. *)
Fixpoint rewrite_first {A} (f : A -> option A) (l : list A) : option (list A) :=
  match l with
  | [] => None
  | x :: r => match f x with
              | Some y => Some (y :: r)
              | None => option_map (cons x) (rewrite_first f r)
              end
  end.

(** First node in tree order whose element satisfies [p]. *)
Fixpoint find_node (p : element -> bool) (t : node) : option node :=
  match t with
  | Node e kids => if p e then Some t else first_some (find_node p) kids
  end.

(** [target.appendChild(n)] where [target] is the first element satisfying
    [p]; [None] when there is no such element. *)
Fixpoint append_node (p : element -> bool) (n : node) (t : node) : option node :=
  match t with
  | Node e kids =>
      if p e then Some (Node e (kids ++ [n]))
      else option_map (Node e) (rewrite_first (append_node p n) kids)
  end.

Fixpoint map_node (f : element -> element) (t : node) : node :=
  match t with
  | Node e kids => Node (f e) (List.map (map_node f) kids)
  end.

(** [x.remove()] below [t], for the element [x] of uid [u]. *)
Fixpoint remove_node (u : nat) (t : node) : node :=
  match t with
  | Node e kids =>
      Node e (flat_map (fun k => if Nat.eqb (el_uid (root k)) u then []
                                 else [remove_node u k]) kids)
  end.

(** Every node below and including [t] in tree order, each with its proper
    ancestors, nearest first. *)
Fixpoint walk (anc : list element) (t : node) : list (list element * node) :=
  match t with
  | Node e kids => (anc, t) :: flat_map (walk (e :: anc)) kids
  end.

Definition doc_find (p : element -> bool) (d : document) : option node :=
  match find_node p (head d) with
  | Some n => Some n
  | None => find_node p (body d)
  end.

Definition doc_append (p : element -> bool) (n : node) (d : document)
  : option document :=
  match append_node p n (head d) with
  | Some h => Some (mkDocument h (body d))
  | None => option_map (mkDocument (head d)) (append_node p n (body d))
  end.

Definition doc_map (f : element -> element) (d : document) : document :=
  mkDocument (map_node f (head d)) (map_node f (body d)).

Definition doc_remove (u : nat) (d : document) : document :=
  mkDocument (remove_node u (head d)) (remove_node u (body d)).

Definition doc_walk (d : document) : list (list element * node) :=
  walk [] (head d) ++ walk [] (body d).

(** [el.value = v] through a reference [u]. *)
Definition set_value (u : nat) (v : jsstring) (d : document) : document :=
  doc_map (fun e => if Nat.eqb (el_uid e) u then with_value v e else e) d.

(** The element of identity [u] is [t] or lies below it. *)
Fixpoint occurs (u : nat) (t : node) : bool :=
  match t with
  | Node e kids => Nat.eqb (el_uid e) u || existsb (occurs u) kids
  end.

(** The element of identity [u] is in the document, below the head or the
    body. *)
Definition attached (u : nat) (d : document) : bool :=
  existsb (occurs u) (children (head d))
  || existsb (occurs u) (children (body d)).

(** A change of elements that only writes [value]s. *)
Definition value_edit (f : element -> element) : Prop :=
  forall e, exists v, f e = with_value v e.

(** No number occurs twice. *)
Fixpoint distinct (l : list nat) : bool :=
  match l with
  | [] => true
  | x :: r => negb (existsb (Nat.eqb x) r) && distinct r
  end.

(** The elements of the document are different objects: no identity is
    met twice on a walk through it. *)
Definition distinct_uids (d : document) : bool :=
  distinct (List.map (fun x => el_uid (root (snd x))) (doc_walk d)).

(** *** Selectors *)

Definition opt_eqb (o : option jsstring) (s : jsstring) : bool :=
  match o with Some x => str_eqb x s | None => false end.

Definition opt_includes (o : option jsstring) (s : jsstring) : bool :=
  match o with Some x => includes x s | None => false end.

Definition ascii_lower (c : N) : N :=
  if (65 <=? c) && (c <=? 90) then c + 32 else c.

(** [#i] *)
Definition has_id (i : jsstring) (e : element) : bool := opt_eqb (el_id e) i.

(** [.c] *)
Definition has_class (c : jsstring) (e : element) : bool :=
  existsb (fun x => str_eqb x c) (el_class e).

(** a type selector; tags are kept in lower case *)
Definition has_tag (t : jsstring) (e : element) : bool := str_eqb (el_tag e) t.

(** [[type="t"]]: HTML compares the values of [type] without ASCII case *)
Definition type_is (t : jsstring) (e : element) : bool :=
  match el_type e with
  | Some x => str_eqb (List.map ascii_lower x) (List.map ascii_lower t)
  | None => false
  end.

(** [[name="n"]] and [[name*="n"]] *)
Definition name_is (n : jsstring) (e : element) : bool := opt_eqb (el_name e) n.
Definition name_has (n : jsstring) (e : element) : bool :=
  opt_includes (el_name e) n.

(** [[placeholder*="p"]] *)
Definition placeholder_has (p : jsstring) (e : element) : bool :=
  opt_includes (el_placeholder e) p.

(** The element that is the object [u]. *)
Definition is_element (u : nat) (e : element) : bool := Nat.eqb (el_uid e) u.

(** [document.getElementById(i)] *)
Definition getElementById (i : jsstring) (d : document) : option node :=
  doc_find (has_id i) d.

(** [x.closest(sel)] as a truth value, for a selector [sel] on one element:
    [x] itself or one of its ancestors matches. *)
Definition closest (sel : element -> bool) (anc : list element) (e : element)
  : bool :=
  existsb sel (e :: anc).

(** The selector suffix [:not(form ...)] with a descendant star: no ancestor
    is a form. *)
Definition not_in_form (anc : list element) : bool :=
  forallb (fun a => negb (has_tag (lit "form") a)) anc.

End Dom.

(** ** Handlers as state-and-exception computations *)

Module Eff.
Import Js.

Inductive result (A : Type) :=
| Normal (a : A)
| Throw (e : exn).
Arguments Normal {A} a.
Arguments Throw {A} e.

(** A handler over a state [S]: the state it leaves is kept also when it
    throws, as a JavaScript exception undoes nothing. *)
Definition M (S A : Type) : Type := S -> result A * S.

Definition ret {S A} (a : A) : M S A := fun st => (Normal a, st).

Definition bind {S A B} (m : M S A) (k : A -> M S B) : M S B :=
  fun st => match m st with
            | (Normal a, st') => k a st'
            | (Throw e, st') => (Throw e, st')
            end.

Definition throw {S A} (e : exn) : M S A := fun st => (Throw e, st).

(** [try { m } catch (error) { h error }] *)
Definition try_catch {S A} (m : M S A) (h : exn -> M S A) : M S A :=
  fun st => match m st with
            | (Normal a, st') => (Normal a, st')
            | (Throw e, st') => h e st'
            end.

Definition gets {S A} (f : S -> A) : M S A := fun st => (Normal (f st), st).

Definition modify {S} (f : S -> S) : M S unit := fun st => (Normal tt, f st).

(** [l.forEach(f)] *)
Fixpoint forEach {S A} (f : A -> M S unit) (l : list A) : M S unit :=
  match l with
  | [] => ret tt
  | x :: r => bind (f x) (fun _ => forEach f r)
  end.

(** [if (c) { m }] *)
Definition when {S} (c : bool) (m : M S unit) : M S unit :=
  if c then m else ret tt.

(** How an exchange with the server ends: [fetch] or [response.json()]
    rejects, or a JSON value arrives. *)
Inductive outcome :=
| Rejected (e : exn)
| Body (data : value).

End Eff.

Declare Scope eff_scope.
Delimit Scope eff_scope with eff.
Notation "x <- m ;; k" := (Eff.bind m (fun x => k))
  (at level 100, m at next level, k at level 200, right associativity)
  : eff_scope.
Notation "m ;; k" := (Eff.bind m (fun _ => k))
  (at level 100, k at level 200, right associativity) : eff_scope.

(** ** The self-installing widget, [src/static/js.js] *)

Module Widget.
Import Js Dom Eff.
#[local] Open Scope eff_scope.

(** The sentinel of the reply protocol. *)
Definition SHOW_CONTACT_FORM : jsstring := lit "[SHOW_CONTACT_FORM]".

(** [config] *)
Definition apiUrl : jsstring := lit "https://Mihan.pythonanywhere.com/api/chat".
Definition botName : jsstring := lit "САВБЕС Ассистент".
Definition welcomeMessage : jsstring :=
  lit "Здравствуйте! Я виртуальный помощник компании САВБЕС. Чем могу помочь? Вы можете спросить о наших услугах, ценах или процессе работы.".

(** The two fixed replies of [sendMessage]. *)
Definition bad_reply_message : jsstring :=
  lit "Извините, произошла ошибка при обработке ответа.".
Definition apology : jsstring :=
  lit "Извините, произошла ошибка. Попробуйте позже.".

Definition refusal : jsstring := lit "Не хочу оставлять контакты".
Definition phone_required : jsstring := lit "Пожалуйста, введите номер телефона".

Definition container_id : jsstring := lit "savbes-chat-container".
Definition messages_id : jsstring := lit "savbes-chat-messages".
Definition user_input_id : jsstring := lit "savbes-user-input".
Definition name_input_id : jsstring := lit "savbes-name-input".
Definition phone_input_id : jsstring := lit "savbes-phone-input".
Definition email_input_id : jsstring := lit "savbes-email-input".
Definition chat_block : jsstring := lit "savbes-chat-block".

(** [userData]: each field is [null] or a string. *)
Record contact := mkContact {
  c_name : option jsstring;
  c_phone : option jsstring;
  c_email : option jsstring
}.

(** [if (data.phone)] and the like *)
Definition provided (f : option jsstring) : option jsstring :=
  match f with
  | Some (c :: s) => Some (c :: s)
  | _ => None
  end.

Inductive callback := ShowContactForm.

(** The body handed to [fetch]. *)
Record request := mkRequest {
  rq_url : jsstring;
  rq_message : jsstring;
  rq_session_id : jsstring
}.

Inductive level := LError | LInfo | LLog.

(** What the script can reach: the document, its own variables
    ([sessionId], [userData]), and the traces it leaves in the browser:
    pending timers, requests sent, console lines, alerts, events dispatched
    on elements, the focused element, promises rejected with nobody
    listening.  [fresh] is the next object identity. *)
Record state := mkState {
  doc : document;
  fresh : nat;
  sessionId : jsstring;
  userData : contact;
  timers : list (callback * N);
  outbox : list request;
  console : list (level * jsstring);
  alerts : list jsstring;
  events : list (nat * jsstring);
  focus : option nat;
  rejections : list exn
}.

Definition set_doc (d : document) (st : state) : state :=
  mkState d (fresh st) (sessionId st) (userData st) (timers st) (outbox st)
          (console st) (alerts st) (events st) (focus st) (rejections st).
Definition set_fresh (n : nat) (st : state) : state :=
  mkState (doc st) n (sessionId st) (userData st) (timers st) (outbox st)
          (console st) (alerts st) (events st) (focus st) (rejections st).
Definition set_sessionId (s : jsstring) (st : state) : state :=
  mkState (doc st) (fresh st) s (userData st) (timers st) (outbox st)
          (console st) (alerts st) (events st) (focus st) (rejections st).
Definition set_userData (c : contact) (st : state) : state :=
  mkState (doc st) (fresh st) (sessionId st) c (timers st) (outbox st)
          (console st) (alerts st) (events st) (focus st) (rejections st).
Definition set_timers (t : list (callback * N)) (st : state) : state :=
  mkState (doc st) (fresh st) (sessionId st) (userData st) t (outbox st)
          (console st) (alerts st) (events st) (focus st) (rejections st).
Definition set_outbox (o : list request) (st : state) : state :=
  mkState (doc st) (fresh st) (sessionId st) (userData st) (timers st) o
          (console st) (alerts st) (events st) (focus st) (rejections st).
Definition set_console (c : list (level * jsstring)) (st : state) : state :=
  mkState (doc st) (fresh st) (sessionId st) (userData st) (timers st)
          (outbox st) c (alerts st) (events st) (focus st) (rejections st).
Definition set_alerts (a : list jsstring) (st : state) : state :=
  mkState (doc st) (fresh st) (sessionId st) (userData st) (timers st)
          (outbox st) (console st) a (events st) (focus st) (rejections st).
Definition set_events (e : list (nat * jsstring)) (st : state) : state :=
  mkState (doc st) (fresh st) (sessionId st) (userData st) (timers st)
          (outbox st) (console st) (alerts st) e (focus st) (rejections st).
Definition set_focus (f : option nat) (st : state) : state :=
  mkState (doc st) (fresh st) (sessionId st) (userData st) (timers st)
          (outbox st) (console st) (alerts st) (events st) f (rejections st).
Definition set_rejections (r : list exn) (st : state) : state :=
  mkState (doc st) (fresh st) (sessionId st) (userData st) (timers st)
          (outbox st) (console st) (alerts st) (events st) (focus st) r.

Definition W := M state.

(** *** Browser primitives *)

(** [document.createElement] and the parser behind [innerHTML] hand out new
    objects: [alloc n] reserves [n] identities and returns the first. *)
Definition alloc (n : nat) : W nat :=
  fun st => (Normal (fresh st), set_fresh (fresh st + n)%nat st).

Definition console_write (l : level) (msg : jsstring) : W unit :=
  modify (fun st => set_console (console st ++ [(l, msg)]) st).

Definition alert (msg : jsstring) : W unit :=
  modify (fun st => set_alerts (alerts st ++ [msg]) st).

Definition setTimeout (cb : callback) (ms : N) : W unit :=
  modify (fun st => set_timers (timers st ++ [(cb, ms)]) st).

(** [fetch(url, {method: 'POST', body: JSON.stringify({message, session_id})})]:
    the request leaves; the reply is a later event. *)
Definition fetch (url message : jsstring) : W unit :=
  modify (fun st =>
    set_outbox (outbox st ++ [mkRequest url message (sessionId st)]) st).

(** [document.getElementById(i).appendChild(n)]; a TypeError when the element
    is missing. *)
Definition appendChild_to (i : jsstring) (n : node) : W unit :=
  fun st => match doc_append (has_id i) n (doc st) with
            | Some d => (Normal tt, set_doc d st)
            | None => (Throw (TypeError i), st)
            end.

(** [document.getElementById(i).value] *)
Definition value_of (i : jsstring) : W jsstring :=
  fun st => match getElementById i (doc st) with
            | Some n => (Normal (el_value (root n)), st)
            | None => (Throw (TypeError i), st)
            end.

(** [document.getElementById(i).value = v] *)
Definition assign_value (i v : jsstring) : W unit :=
  fun st => match getElementById i (doc st) with
            | Some n => (Normal tt, set_doc (set_value (el_uid (root n)) v (doc st)) st)
            | None => (Throw (TypeError i), st)
            end.

(** [document.getElementById(i).focus()] *)
Definition focus_on (i : jsstring) : W unit :=
  fun st => match getElementById i (doc st) with
            | Some n => (Normal tt, set_focus (Some (el_uid (root n))) st)
            | None => (Throw (TypeError i), st)
            end.

(** [document.getElementById(i).addEventListener(...)]: the listener itself is
    one of the handlers below; only the lookup can fail. *)
Definition listen_on (i : jsstring) : W unit :=
  fun st => match getElementById i (doc st) with
            | Some _ => (Normal tt, st)
            | None => (Throw (TypeError i), st)
            end.

(** [x.dispatchEvent(new Event(name, { bubbles: true }))]; listeners of the
    host page are outside the model. *)
Definition dispatchEvent (u : nat) (name : jsstring) : W unit :=
  modify (fun st => set_events (events st ++ [(u, name)]) st).

(** Calling an [async] function: what it throws rejects its promise and
    reaches no caller. *)
Definition async (m : W unit) : W unit :=
  fun st => match m st with
            | (Normal _, st') => (Normal tt, st')
            | (Throw e, st') =>
                (Normal tt, set_rejections (rejections st' ++ [e]) st')
            end.

(** *** Elements the script builds *)

Definition el (u : nat) (tag : string) (i : option string) (cls : list string)
    (ty ph : option string) (c : content) : element :=
  mkElement u (lit tag) (option_map lit i) (List.map lit cls)
            (option_map lit ty) None (option_map lit ph) [] c.

Definition leaf (e : element) : node := Node e [].

(** The [style] element; the text of the style sheet is not kept. *)
Definition styles_node (u : nat) : node :=
  leaf (el u "style" None [] None None Empty).

(** [chatElement] after its [innerHTML] is parsed; [u] is the identity of
    [chatElement] itself. *)
Definition chat_node (u : nat) : node :=
  (Node (el u "div" None ["savbes-chat-block"] None None Empty)
    [ Node (el (u + 1) "div" None ["savbes-chat-header"] None None Empty)
        [ Node (el (u + 2) "div" None ["savbes-chat-title"] None None Empty)
            [ leaf (el (u + 3) "div" None ["savbes-chat-title-main"] None None
                       (Html botName));
              leaf (el (u + 4) "div" None ["savbes-chat-title-sub"] None None
                       (Html (lit "Задайте вопрос или закажите услугу"))) ] ];
      Node (el (u + 5) "div" (Some "savbes-chat-messages")
               ["savbes-chat-messages"] None None Empty)
        [ leaf (el (u + 6) "div" None
                   ["savbes-message"; "savbes-assistant-message"] None None
                   (Html welcomeMessage)) ];
      Node (el (u + 7) "div" None ["savbes-input-area"] None None Empty)
        [ leaf (el (u + 8) "input" (Some "savbes-user-input")
                   ["savbes-user-input"] (Some "text")
                   (Some "Введите ваше сообщение...") Empty);
          Node (el (u + 9) "button" (Some "savbes-send-button")
                   ["savbes-send-button"] None None Empty)
            [ Node (el (u + 10) "svg" None [] None None Empty)
                [ leaf (el (u + 11) "path" None [] None None Empty) ] ] ] ])%nat.

(** [formDiv] after its [innerHTML] is parsed. *)
Definition form_node (u : nat) : node :=
  (Node (el u "div" None ["savbes-contact-form"] None None Empty)
    [ leaf (el (u + 1) "div" None ["savbes-form-title"] None None
               (Html (lit "Оставьте ваши контактные данные")));
      leaf (el (u + 2) "input" (Some "savbes-name-input") ["savbes-form-input"]
               (Some "text") (Some "Ваше имя") Empty);
      leaf (el (u + 3) "input" (Some "savbes-phone-input") ["savbes-form-input"]
               (Some "tel") (Some "Ваш телефон") Empty);
      leaf (el (u + 4) "input" (Some "savbes-email-input") ["savbes-form-input"]
               (Some "email") (Some "Ваш email (опционально)") Empty);
      Node (el (u + 5) "div" None ["savbes-form-buttons"] None None Empty)
        [ leaf (el (u + 6) "button" None ["savbes-form-submit"] None None
                   (Html (lit "Отправить")));
          leaf (el (u + 7) "button" None ["savbes-form-cancel"] None None
                   (Html (lit "Отмена"))) ] ])%nat.

(** A text in which no tag opens: as markup it brings no element. *)
Definition no_tag (s : jsstring) : bool := forallb (fun c => negb (c =? 60)) s.

(** [messageDiv].  The markup assigned to [innerHTML] is kept as it is
    assigned; the elements a browser parses out of it are not put into the
    tree.  The line breaks that [addMessage] writes carry no attribute, so no
    lookup of the script can reach them; a property that says which element
    a lookup finds after a message was shown is stated for texts with
    [no_tag]. *)
Definition message_node (u : nat) (isUser : bool) (html : jsstring) : node :=
  leaf (mkElement u (lit "div") None
          [lit "savbes-message";
           if isUser then lit "savbes-user-message"
           else lit "savbes-assistant-message"]
          None None None [] (Html html)).

(** *** [fillPageForms] *)

Definition is_input : element -> bool := has_tag (lit "input").
Definition is_form : element -> bool := has_tag (lit "form").

(** [input[type="tel"], input[name="phone"], input[name*="PHONE"],
    input[placeholder*="елефон"], .t-input-phonemask] *)
Definition form_phone_selector (e : element) : bool :=
  (is_input e && type_is (lit "tel") e)
  || (is_input e && name_is (lit "phone") e)
  || (is_input e && name_has (lit "PHONE") e)
  || (is_input e && placeholder_has (lit "елефон") e)
  || has_class (lit "t-input-phonemask") e.

(** [input[name="name"], input[name*="NAME"], input[placeholder*="имя"],
    input[placeholder*="Имя"], input.t-input-name] *)
Definition form_name_selector (e : element) : bool :=
  (is_input e && name_is (lit "name") e)
  || (is_input e && name_has (lit "NAME") e)
  || (is_input e && placeholder_has (lit "имя") e)
  || (is_input e && placeholder_has (lit "Имя") e)
  || (is_input e && has_class (lit "t-input-name") e).

(** [input[type="email"], input[name="email"], input[name*="EMAIL"],
    input[placeholder*="mail"], input[placeholder*="Mail"]] *)
Definition form_email_selector (e : element) : bool :=
  (is_input e && type_is (lit "email") e)
  || (is_input e && name_is (lit "email") e)
  || (is_input e && name_has (lit "EMAIL") e)
  || (is_input e && placeholder_has (lit "mail") e)
  || (is_input e && placeholder_has (lit "Mail") e).

(** The three selectors for inputs outside any form. *)
Definition loose_phone_selector (anc : list element) (e : element) : bool :=
  (is_input e && type_is (lit "tel") e && not_in_form anc)
  || (is_input e && name_has (lit "phone") e && not_in_form anc)
  || (is_input e && placeholder_has (lit "елефон") e && not_in_form anc).

Definition loose_name_selector (anc : list element) (e : element) : bool :=
  (is_input e && name_has (lit "name") e && not_in_form anc)
  || (is_input e && placeholder_has (lit "мя") e && not_in_form anc).

Definition loose_email_selector (anc : list element) (e : element) : bool :=
  (is_input e && type_is (lit "email") e && not_in_form anc)
  || (is_input e && name_has (lit "email") e && not_in_form anc)
  || (is_input e && placeholder_has (lit "mail") e && not_in_form anc).

(** [root.querySelectorAll(sel)] over a list of nodes with their ancestors. *)
Definition select (sel : list element -> element -> bool)
    (l : list (list element * node)) : list (list element * node) :=
  List.filter (fun '(anc, n) => sel anc (root n)) l.

(** The descendants of a node found at [anc]. *)
Definition descendants (anc : list element) (n : node)
  : list (list element * node) :=
  flat_map (walk (root n :: anc)) (children n).

(** [input.value = v] followed by the synthetic [input] and [change].  An
    [input] of type [file] refuses every value but the empty string with an
    InvalidStateError; the other types take the value (what their
    sanitization would do to it is not modelled). *)
Definition fill (v : jsstring) (e : element) : W unit :=
  if is_input e && type_is (lit "file") e && negb (is_empty v) then
    throw InvalidStateError
  else
    modify (fun st => set_doc (set_value (el_uid e) v (doc st)) st) ;;
    dispatchEvent (el_uid e) (lit "input") ;;
    dispatchEvent (el_uid e) (lit "change").

(** One of the three blocks run on each host form. *)
Definition fill_in_form (field : option jsstring) (sel : element -> bool)
    (note : jsstring) (anc : list element) (form : node) : W unit :=
  match provided field with
  | Some v =>
      forEach (fun '(_, input) =>
                 fill v (root input) ;;
                 console_write LLog note)
              (select (fun _ => sel) (descendants anc form))
  | None => ret tt
  end.

(** One of the three blocks for inputs outside forms. *)
Definition fill_loose (field : option jsstring)
    (sel : list element -> element -> bool) (note : jsstring) : W unit :=
  match provided field with
  | Some v =>
      d <- gets doc ;;
      forEach (fun '(anc, input) =>
                 if closest (has_class chat_block) anc (root input)
                 then ret tt
                 else console_write LLog note ;;
                      fill v (root input))
              (select sel (doc_walk d))
  | None => ret tt
  end.

(** [fillPageForms(data)].  The body throws when a selector reaches an
    [input] of type [file]: the [catch] logs the error and the fields that
    come later stay as they were.  Selectors do not read [value], the only
    thing the body changes, so each query sees the same elements as when the
    function was entered. *)
Definition fillPageForms (data : contact) : W unit :=
  try_catch
    (console_write LLog (lit "Заполнение форм на сайте данными из чат-бота:") ;;
     d <- gets doc ;;
     forEach (fun '(anc, form) =>
                if closest (has_class chat_block) anc (root form) then ret tt
                else
                  fill_in_form (c_phone data) form_phone_selector
                    (lit "Заполнено поле телефона:") anc form ;;
                  fill_in_form (c_name data) form_name_selector
                    (lit "Заполнено поле имени:") anc form ;;
                  fill_in_form (c_email data) form_email_selector
                    (lit "Заполнено поле email:") anc form)
             (select (fun _ => is_form) (doc_walk d)) ;;
     fill_loose (c_phone data) loose_phone_selector
       (lit "Найдено поле телефона вне формы:") ;;
     fill_loose (c_name data) loose_name_selector
       (lit "Найдено поле имени вне формы:") ;;
     fill_loose (c_email data) loose_email_selector
       (lit "Найдено поле email вне формы:"))
    (fun _ => console_write LError (lit "Ошибка при заполнении форм:")).

(** *** The chat *)

(** [addMessage(message, isUser)].  [message.replace] exists on strings only.
    Scrolling is layout and is not modelled. *)
Definition addMessage (message : value) (isUser : bool) : W unit :=
  u <- alloc 1 ;;
  match message with
  | VStr m =>
      let formattedMessage := replace_newlines m (lit "<br>") in
      if negb isUser && includes m SHOW_CONTACT_FORM then
        let cleanMessage := replace m SHOW_CONTACT_FORM [] in
        appendChild_to messages_id (message_node u isUser cleanMessage) ;;
        setTimeout ShowContactForm 500
      else
        appendChild_to messages_id (message_node u isUser formattedMessage)
  | _ => throw (TypeError (lit "message.replace is not a function"))
  end.

(** [sendMessage(message)] up to its first [await]. *)
Definition sendMessage (message : jsstring) : W unit :=
  async
    (if is_empty (trim message) then ret tt
     else
       addMessage (VStr message) true ;;
       assign_value user_input_id [] ;;
       fetch apiUrl message).

(** [data.response] under the guard [data && ...] *)
Definition response_of (data : value) : value :=
  if truthy data then
    match get data (lit "response") with inr v => v | inl _ => VUndefined end
  else data.

(** [data.response.text] under the guard [typeof data.response === 'object'] *)
Definition text_of (response : value) : value :=
  if typeof_object response then
    match get response (lit "text") with inr v => v | inl _ => VUndefined end
  else VBool false.

(** The rest of [sendMessage], run when the exchange ends. *)
Definition sendMessage_resume (o : outcome) : W unit :=
  async
    (try_catch
       (match o with
        | Rejected e => throw e
        | Body data =>
            if truthy (response_of data) then
              if truthy (text_of (response_of data)) then
                addMessage (text_of (response_of data)) false
              else
                addMessage (response_of data) false
            else
              addMessage (VStr bad_reply_message) false
        end)
       (fun _ =>
          console_write LError (lit "Error:") ;;
          addMessage (VStr apology) false)).

(** The click and Enter handlers of the input row, given the text the input
    holds. *)
Definition on_send (typed : jsstring) : W unit :=
  let message := trim typed in
  if negb (is_empty message) then sendMessage message else ret tt.

(** *** The contact form *)

(** [showContactForm()] *)
Definition showContactForm : W unit :=
  u <- alloc 8 ;;
  appendChild_to messages_id (form_node u) ;;
  focus_on name_input_id ;;
  listen_on phone_input_id.

(** [contactText] as [submitContactForm] builds it. *)
Definition contactText (name phone email : jsstring) : jsstring :=
  (if negb (is_empty name) then name ++ lit ", " else [])
  ++ phone
  ++ (if negb (is_empty email) then lit ", " ++ email else []).

(** [submitContactForm(formDiv)], [formDiv] given by its identity. *)
Definition submitContactForm (formDiv : nat) : W unit :=
  name <- value_of name_input_id ;;
  phone <- value_of phone_input_id ;;
  email <- value_of email_input_id ;;
  if negb (is_empty phone) then
    modify (fun st => set_doc (doc_remove formDiv (doc st)) st) ;;
    modify (set_userData (mkContact (Some name) (Some phone) (Some email))) ;;
    fillPageForms (mkContact (Some name) (Some phone) (Some email)) ;;
    sendMessage (contactText name phone email)
  else
    alert phone_required.

(** The cancel button of [formDiv]. *)
Definition cancelContactForm (formDiv : nat) : W unit :=
  modify (fun st => set_doc (doc_remove formDiv (doc st)) st) ;;
  sendMessage refusal.

(** A timer comes due. *)
Definition run (cb : callback) : W unit :=
  match cb with
  | ShowContactForm => showContactForm
  end.

(** The oldest pending timer comes due: it leaves the queue and its callback
    runs. *)
Definition fire_timer : W unit :=
  fun st => match timers st with
            | [] => (Normal tt, st)
            | (cb, _) :: rest => run cb (set_timers rest st)
            end.

(** The visitor edits a field. *)
Definition type_into (u : nat) (text : jsstring) : W unit :=
  modify (fun st => set_doc (set_value u text (doc st)) st).

(** *** [initChat]

    [random36] is [Math.random().toString(36)]. *)
Definition initChat (random36 : jsstring) : W unit :=
  modify (set_userData (mkContact None None None)) ;;
  s <- alloc 1 ;;
  modify (fun st =>
    set_doc (mkDocument (Node (root (head (doc st)))
                              (children (head (doc st)) ++ [styles_node s]))
                        (body (doc st))) st) ;;
  targetContainer <- gets (fun st => getElementById container_id (doc st)) ;;
  match targetContainer with
  | None =>
      console_write LError
        (lit "САВБЕС чат-бот: контейнер #savbes-chat-container не найден на странице") ;;
      console_write LInfo
        (lit "Добавьте <div id=" ++ [34] ++ lit "savbes-chat-container"
         ++ [34] ++ lit "></div> в нужное место на странице")
  | Some _ =>
      u <- alloc 12 ;;
      appendChild_to container_id (chat_node u) ;;
      modify (set_sessionId (firstn 13 (skipn 2 random36))) ;;
      console_write LLog
        (lit "САВБЕС чат-бот успешно инициализирован в #savbes-chat-container")
  end.

(** What the chat shows: the children of [#savbes-chat-messages], each read
    as a message with its side and markup, as a contact form, or as
    something else. *)
Inductive entry :=
| Message (isUser : bool) (html : jsstring)
| Form (u : nat)
| Other.

Definition entry_of (n : node) : entry :=
  let e := root n in
  if has_class (lit "savbes-message") e then
    match el_content e with
    | Html h => Message (has_class (lit "savbes-user-message") e) h
    | _ => Other
    end
  else if has_class (lit "savbes-contact-form") e then Form (el_uid e)
  else Other.

Definition transcript (d : document) : option (list entry) :=
  option_map (fun n => List.map entry_of (children n))
             (getElementById messages_id d).

(** *** Handlers that only fill fields

    [st'] differs from [st] by values written into elements, console lines
    and events dispatched; a handler is [gentle] when it always leaves such
    a state, and [quiet] when it also ends normally. *)
Definition same_vars (st st' : state) : Prop :=
  fresh st' = fresh st /\ sessionId st' = sessionId st
  /\ userData st' = userData st /\ timers st' = timers st
  /\ outbox st' = outbox st /\ alerts st' = alerts st
  /\ focus st' = focus st /\ rejections st' = rejections st.

Definition edits (st st' : state) : Prop :=
  (exists f, value_edit f /\ doc st' = doc_map f (doc st))
  /\ same_vars st st'.

Definition gentle {A} (m : W A) : Prop :=
  forall st, edits st (snd (m st)).

Definition quiet {A} (m : W A) : Prop :=
  forall st, exists a st', m st = (Normal a, st') /\ edits st st'.

End Widget.

(** ** The inline chat of [src/templates/index.html] *)

Module Inline.
Import Js Dom Eff.
#[local] Open Scope eff_scope.

Definition apology : jsstring :=
  lit "Извините, произошла ошибка. Пожалуйста, попробуйте еще раз.".

Definition storage_key : jsstring := lit "savbes_phone".

Definition ch (a : ascii) : regex := Chr (N_of_ascii a).
Definition digit : regex := Cls is_digit.
(** [[\s\-]] *)
Definition separator : regex := Cls (fun c => is_whitespace c || (c =? 45)).

(** [/(\+7|8)[\s\-]?\(?\d{3}\)?[\s\-]?\d{3}[\s\-]?\d{2}[\s\-]?\d{2}/] *)
Definition phoneRegex : regex :=
  Seq (Alt (Seq (ch "+") (ch "7")) (ch "8"))
 (Seq (Opt separator)
 (Seq (Opt (ch "("))
 (Seq (Seq digit (Seq digit digit))
 (Seq (Opt (ch ")"))
 (Seq (Opt separator)
 (Seq (Seq digit (Seq digit digit))
 (Seq (Opt separator)
 (Seq (Seq digit digit)
 (Seq (Opt separator)
      (Seq digit digit)))))))))).

(** The script's reach: the document, [sessionId], [localStorage] and the
    traces left in the browser. *)
Record state := mkState {
  doc : document;
  fresh : nat;
  sessionId : jsstring;
  localStorage : gmap jsstring jsstring;
  outbox : list (jsstring * jsstring * jsstring);
  console : list jsstring;
  rejections : list exn
}.

Definition set_doc (d : document) (st : state) : state :=
  mkState d (fresh st) (sessionId st) (localStorage st) (outbox st)
          (console st) (rejections st).
Definition set_fresh (n : nat) (st : state) : state :=
  mkState (doc st) n (sessionId st) (localStorage st) (outbox st)
          (console st) (rejections st).
Definition set_localStorage (m : gmap jsstring jsstring) (st : state) : state :=
  mkState (doc st) (fresh st) (sessionId st) m (outbox st)
          (console st) (rejections st).
Definition set_outbox (o : list (jsstring * jsstring * jsstring)) (st : state)
  : state :=
  mkState (doc st) (fresh st) (sessionId st) (localStorage st) o
          (console st) (rejections st).
Definition set_console (c : list jsstring) (st : state) : state :=
  mkState (doc st) (fresh st) (sessionId st) (localStorage st) (outbox st)
          c (rejections st).
Definition set_rejections (r : list exn) (st : state) : state :=
  mkState (doc st) (fresh st) (sessionId st) (localStorage st) (outbox st)
          (console st) r.

Definition P := M state.

Definition alloc : P nat :=
  fun st => (Normal (fresh st), set_fresh (S (fresh st)) st).

Definition console_error (msg : jsstring) : P unit :=
  modify (fun st => set_console (console st ++ [msg]) st).

(** [fetch('/api/chat', ...)] with the body [{message, session_id}] *)
Definition fetch (url message : jsstring) : P unit :=
  modify (fun st =>
    set_outbox (outbox st ++ [(url, message, sessionId st)]) st).

Definition async (m : P unit) : P unit :=
  fun st => match m st with
            | (Normal _, st') => (Normal tt, st')
            | (Throw e, st') =>
                (Normal tt, set_rejections (rejections st' ++ [e]) st')
            end.

(** A lookup whose result is used at once: a TypeError on [null]. *)
Definition the_element (p : element -> bool) (what : jsstring) : P element :=
  fun st => match doc_find p (doc st) with
            | Some n => (Normal (root n), st)
            | None => (Throw (TypeError what), st)
            end.

Definition assign_value (u : nat) (v : jsstring) : P unit :=
  modify (fun st => set_doc (set_value u v (doc st)) st).

(** [input[name="phone"]] *)
Definition phone_input (e : element) : bool :=
  has_tag (lit "input") e && name_is (lit "phone") e.

(** What [messageDiv.textContent = text] leaves as text: [null] and
    [undefined] clear it, anything else is converted to a string, which can
    throw ([None]). *)
Definition textContent_text (text : value) : option jsstring :=
  match text with
  | VUndefined | VNull => Some []
  | _ => to_string text
  end.

Definition textContent_of (text : value) : P jsstring :=
  match textContent_text text with
  | Some s => ret s
  | None => throw (TypeError (lit "Cannot convert object to primitive value"))
  end.

Definition message_node (u : nat) (isUser : bool) (text : jsstring) : node :=
  Node (mkElement u (lit "div") None
          [lit "message"; if isUser then lit "user-message" else lit "bot-message"]
          None None None [] (Text text)) [].

(** [addMessage(text, isUser)] *)
Definition addMessage (text : value) (isUser : bool) : P unit :=
  u <- alloc ;;
  shown <- textContent_of text ;;
  fun st => match doc_append (has_id (lit "chatBody"))
                             (message_node u isUser shown) (doc st) with
            | Some d => (Normal tt, set_doc d st)
            | None => (Throw (TypeError (lit "chatBody")), st)
            end.

(** [sendMessage()] up to its first [await]; the text comes from
    [#userInput]. *)
Definition sendMessage : P unit :=
  async
    (userInput <- the_element (has_id (lit "userInput")) (lit "userInput") ;;
     let message := trim (el_value userInput) in
     if is_empty message then ret tt
     else
       addMessage (VStr message) true ;;
       assign_value (el_uid userInput) [] ;;
       fetch (lit "/api/chat") message).

(** The message [sendMessage] would send from the current document, the
    [message] of its closure. *)
Definition pending_message (st : state) : option jsstring :=
  match doc_find (has_id (lit "userInput")) (doc st) with
  | Some n => Some (trim (el_value (root n)))
  | None => None
  end.

(** The rest of [sendMessage] for the message [message], run when the
    exchange ends. *)
Definition sendMessage_resume (message : jsstring) (o : outcome) : P unit :=
  async
    (try_catch
       (match o with
        | Rejected e => throw e
        | Body data =>
            match get data (lit "response") with
            | inl e => throw e
            | inr response =>
                addMessage response false ;;
                match exec phoneRegex message with
                | Some found =>
                    input <- the_element phone_input (lit "input[name=phone]") ;;
                    assign_value (el_uid input) found ;;
                    modify (fun st =>
                      set_localStorage
                        (<[storage_key := found]> (localStorage st)) st)
                | None => ret tt
                end
            end
        end)
       (fun _ =>
          console_error (lit "Error:") ;;
          addMessage (VStr apology) false)).

(** The [DOMContentLoaded] listener. *)
Definition on_load : P unit :=
  phone <- gets (fun st => localStorage st !! storage_key) ;;
  match phone with
  | Some (c :: s) =>
      input <- the_element phone_input (lit "input[name=phone]") ;;
      assign_value (el_uid input) (c :: s)
  | _ => ret tt
  end.

(** *** The page as served

    The elements of [index.html] in tree order, numbered as the parser meets
    them; text is kept on the element that holds it, without the indentation
    of the source. *)
Definition el (u : nat) (tag : string) (i : option string) (cls : list string)
    (ty nm ph : option string) (c : content) : element :=
  mkElement u (lit tag) (option_map lit i) (List.map lit cls)
            (option_map lit ty) (option_map lit nm) (option_map lit ph) [] c.

Definition leaf (u : nat) (tag : string) (i : option string)
    (cls : list string) (c : content) : node :=
  Node (el u tag i cls None None None c) [].

Definition page : document :=
  mkDocument
    (Node (el 0 "head" None [] None None None Empty)
       [ leaf 1 "meta" None [] Empty;
         Node (el 2 "meta" None [] None (Some "viewport") None Empty) [];
         leaf 3 "title" None [] (Text (lit "САВБЕС - Электромонтаж в Оренбурге"));
         leaf 4 "style" None [] Empty ])
    (Node (el 5 "body" None [] None None None Empty)
       [ Node (el 6 "div" None ["header"] None None None Empty)
           [ leaf 7 "h1" None [] (Text (lit "САВБЕС - Электромонтаж в Оренбурге"));
             leaf 8 "p" None []
               (Text (lit "Профессиональные услуги электромонтажа под ключ")) ];
         Node (el 9 "div" None ["container"] None None None Empty)
           [ leaf 10 "h2" None [] (Text (lit "Наши услуги:"));
             Node (el 11 "ul" None [] None None None Empty)
               [ leaf 12 "li" None []
                   (Text (lit "Монтаж и обслуживание электрощитов"));
                 leaf 13 "li" None []
                   (Text (lit "Установка электроприборов (розетки, выключатели, светильники)"));
                 leaf 14 "li" None []
                   (Text (lit "Кабельные работы (прокладка кабеля, скрытая и открытая проводка)"));
                 leaf 15 "li" None []
                   (Text (lit "Электроснабжение промышленных предприятий"));
                 leaf 16 "li" None []
                   (Text (lit "Комплексные решения по типам объектов"));
                 leaf 17 "li" None []
                   (Text (lit "Работа по дизайнерскому проекту")) ];
             Node (el 18 "div" (Some "phoneForm") [] None None None Empty)
               [ leaf 19 "h2" None [] (Text (lit "Оставить заявку"));
                 Node (el 20 "form" (Some "contactForm") [] None None None Empty)
                   [ Node (el 21 "input" None [] (Some "text") (Some "name")
                              (Some "Ваше имя") Empty) [];
                     Node (el 22 "input" None [] (Some "tel") (Some "phone")
                              (Some "Ваш телефон") Empty) [];
                     Node (el 23 "input" None [] (Some "email") (Some "email")
                              (Some "Ваш email") Empty) [];
                     Node (el 24 "input" (Some "formComment") [] (Some "hidden")
                              (Some "comment") None Empty) [];
                     Node (el 25 "button" None [] (Some "submit") None None
                              (Text (lit "Отправить заявку"))) [] ] ] ];
         leaf 26 "button" (Some "chatToggle") ["chat-toggle"] Empty;
         Node (el 27 "div" (Some "chatContainer") ["chat-container"; "hidden"]
                  None None None Empty)
           [ Node (el 28 "div" None ["chat-header"] None None None Empty)
               [ leaf 29 "span" None [] (Text (lit "САВБЕС Ассистент"));
                 leaf 30 "span" (Some "closeChat") ["close-btn"] (Text (lit "×")) ];
             Node (el 31 "div" (Some "chatBody") ["chat-body"] None None None Empty)
               [ leaf 32 "div" None ["message"; "bot-message"]
                   (Text (lit "Здравствуйте! Чем могу помочь?")) ];
             Node (el 33 "div" None ["chat-input"] None None None Empty)
               [ Node (el 34 "input" (Some "userInput") [] (Some "text") None
                          (Some "Введите ваше сообщение...") Empty) [];
                 leaf 35 "button" (Some "sendMessage") [] (Text (lit "➤")) ] ];
         leaf 36 "script" None [] Empty;
         leaf 37 "script" None [] Empty ]).

(** A page load: the document as served, the storage the browser kept, and
    a new [sessionId] from [random36], which is
    [Math.random().toString(36)]. *)
Definition load (storage : gmap jsstring jsstring) (random36 : jsstring)
  : state :=
  mkState page 38 (lit "chat_" ++ firstn 13 (skipn 2 random36)) storage [] [] [].

(** The visitor edits a field. *)
Definition type_into (u : nat) (text : jsstring) : P unit :=
  modify (fun st => set_doc (set_value u text (doc st)) st).

(** What the chat shows: the children of [#chatBody] as messages. *)
Definition entry_of (n : node) : option (bool * jsstring) :=
  let e := root n in
  if has_class (lit "message") e then
    match el_content e with
    | Text t => Some (has_class (lit "user-message") e, t)
    | _ => None
    end
  else None.

Definition transcript (d : document) : option (list (option (bool * jsstring))) :=
  option_map (fun n => List.map entry_of (children n))
             (doc_find (has_id (lit "chatBody")) d).

End Inline.

(** ** The specification's reading of the sentinel protocol *)

Module Spec.
Import Js.

(** [s] with every occurrence of [p] taken out, reading left to right:
    [skip] counts the characters of an occurrence still to be dropped. *)
Fixpoint remove_every_from (p : jsstring) (skip : nat) (s : jsstring)
  : jsstring :=
  match s with
  | [] => []
  | c :: s' =>
      match skip with
      | S k => remove_every_from p k s'
      | O => if startsWith p s
             then remove_every_from p (List.length p - 1) s'
             else c :: remove_every_from p 0 s'
      end
  end.

Definition remove_every (s p : jsstring) : jsstring := remove_every_from p 0 s.

(** The two response envelopes of the wire contract: [{response: "X"}] and
    [{response: {text: "X"}}]. *)
Definition bare_reply (X : jsstring) : value :=
  VObj {[ lit "response" := VStr X ]}.

Definition nested_reply (X : jsstring) : value :=
  VObj {[ lit "response" := VObj {[ lit "text" := VStr X ]} ]}.

(** A line feed written as the markup of a line break. *)
Definition with_line_breaks (X : jsstring) : jsstring :=
  replace_newlines X (lit "<br>").

End Spec.

(** ** Pages and sessions used as examples *)

Module Scenario.
Import Js Dom Eff.

(** A host page with the container the widget looks for. *)
Definition host_page : document :=
  mkDocument
    (Node (Widget.el 0 "head" None [] None None Empty) [])
    (Node (Widget.el 1 "body" None [] None None Empty)
       [ Node (Widget.el 2 "div" (Some "savbes-chat-container") [] None None
                 Empty) [] ]).

(** A host page without it. *)
Definition bare_page : document :=
  mkDocument
    (Node (Widget.el 0 "head" None [] None None Empty) [])
    (Node (Widget.el 1 "body" None [] None None Empty)
       [ Node (Widget.el 2 "div" (Some "content") [] None None Empty) [] ]).

(** A host page whose order form wraps the container. *)
Definition wrapping_page : document :=
  mkDocument
    (Node (Widget.el 0 "head" None [] None None Empty) [])
    (Node (Widget.el 1 "body" None [] None None Empty)
       [ Node (Widget.el 2 "form" (Some "order") [] None None Empty)
           [ Node (Widget.el 3 "div" (Some "savbes-chat-container") [] None
                     None Empty) [] ] ]).

(** The script starts on a page: nothing sent, nothing logged. *)
Definition start (d : document) (next : nat) : Widget.state :=
  Widget.mkState d next [] (Widget.mkContact None None None)
                 [] [] [] [] [] None [].

Definition random36 : jsstring := lit "0.k3j5h7g9d1s2a4f6".

(** Run handlers one after the other, keeping the state. *)
Definition after {S} (steps : list (M S unit)) (st : S) : S :=
  fold_left (fun s m => snd (m s)) steps st.

(** The widget installed on [host_page]. *)
Definition mounted : Widget.state :=
  after [Widget.initChat random36] (start host_page 3).

Definition asks_for_contact : jsstring :=
  lit "Оставьте телефон, мы перезвоним.[SHOW_CONTACT_FORM]".

Definition doubled : jsstring :=
  Widget.SHOW_CONTACT_FORM ++ Widget.SHOW_CONTACT_FORM.

Definition first_question : jsstring := lit "Нужен электрик".
Definition second_question : jsstring := lit "Сколько стоит розетка?".

(** The visitor asks, the server answers with the sentinel, the timer comes
    due: one contact form is open; [formDiv] has identity 18 and its three
    inputs 20, 21 and 22. *)
Definition form_open : Widget.state :=
  after [ Widget.sendMessage first_question;
          Widget.sendMessage_resume (Body (Spec.bare_reply asks_for_contact));
          Widget.fire_timer ] mounted.

(** The visitor leaves name and e-mail empty and types one space as the
    phone. *)
Definition blank_phone_typed : Widget.state :=
  after [ Widget.type_into 21 (lit " ") ] form_open.

(** The visitor fills the three fields. *)
Definition contact_typed : Widget.state :=
  after [ Widget.type_into 20 (lit "Анна");
          Widget.type_into 21 (lit "+7 912 345-67-89");
          Widget.type_into 22 (lit "anna@example.com") ] form_open.

(** The visitor does not answer the contact form and asks again; the
    server asks for contacts once more, so a second contact form opens
    (28; inputs 30, 31, 32) below the first.  The visitor types a phone number
    into the second form. *)
Definition second_form_filled : Widget.state :=
  after [ Widget.sendMessage second_question;
          Widget.sendMessage_resume (Body (Spec.bare_reply asks_for_contact));
          Widget.fire_timer;
          Widget.type_into 31 (lit "+7 912 345-67-89") ]
        form_open.

(** The widget installed inside the order form of [wrapping_page].  The
    visitor asks twice without answering the first contact form, and the
    server asks for contacts both times, so two contact forms are open: 19
    (inputs 21, 22, 23) and 29 (inputs 31, 32, 33).  The visitor then fills
    name and phone of the first one. *)
Definition two_forms_open : Widget.state :=
  after [ Widget.initChat random36;
          Widget.sendMessage first_question;
          Widget.sendMessage_resume (Body (Spec.bare_reply asks_for_contact));
          Widget.fire_timer;
          Widget.sendMessage second_question;
          Widget.sendMessage_resume (Body (Spec.bare_reply asks_for_contact));
          Widget.fire_timer;
          Widget.type_into 21 (lit "Анна");
          Widget.type_into 22 (lit "+7 912 345-67-89") ]
        (start wrapping_page 4).

(** The element of identity [u] as [fillPageForms] sees it: whether
    [closest('.savbes-chat-block')] finds the widget above it, and its
    value. *)
Definition inspect (u : nat) (d : document) : list (bool * jsstring) :=
  List.map (fun '(anc, n) =>
              (closest (has_class Widget.chat_block) anc (root n),
               el_value (root n)))
           (List.filter (fun '(_, n) => Nat.eqb (el_uid (root n)) u)
                        (doc_walk d)).

(** The inline page on a first visit, and with a message typed. *)
Definition first_visit : Inline.state := Inline.load ∅ random36.

Definition typed (text : jsstring) : Inline.state :=
  after [ Inline.type_into 34 text ] first_visit.

End Scenario.

(** ** The rest of the two scripts *)

(** Relations that a handler keeps between the state it finds and the state
    it leaves. *)
Module Frame.
Import Eff.

Definition keeps {S A} (I : S -> S -> Prop) (m : M S A) : Prop :=
  forall st, I st (snd (m st)).

End Frame.

Module Bounds.
Import Js.

(** The most characters a match of [r] takes. *)
Fixpoint max_length (r : regex) : nat :=
  match r with
  | Chr _ | Cls _ => 1
  | Seq a b => max_length a + max_length b
  | Alt a b => Nat.max (max_length a) (max_length b)
  | Opt a => max_length a
  end.

End Bounds.

(** What can happen to the installed widget, and the handler of
    [src/static/js.js] that each event runs. *)
Module Events.
Import Js Dom Eff Widget.

Inductive event :=
| Clicked (typed : jsstring)
| Replied (o : outcome)
| TimerDue
| Submitted (formDiv : nat)
| Cancelled (formDiv : nat)
| Edited (u : nat) (text : jsstring).

(** [Clicked typed] is a click on the send button or Enter in the input
    while it holds [typed]; [Replied o] ends one exchange; [Submitted] and
    [Cancelled] are the two buttons of a contact form (Enter in its phone
    input also submits). *)
Definition handle (ev : event) : W unit :=
  match ev with
  | Clicked typed => on_send typed
  | Replied o => sendMessage_resume o
  | TimerDue => fire_timer
  | Submitted formDiv => submitContactForm formDiv
  | Cancelled formDiv => cancelContactForm formDiv
  | Edited u text => type_into u text
  end.

Definition run_events (evs : list event) (st : state) : state :=
  fold_left (fun s ev => snd (handle ev s)) evs st.

(** A request as [sendMessage] makes it from the state [st]. *)
Definition own_request (st : state) (r : request) : Prop :=
  rq_url r = apiUrl /\ rq_session_id r = sessionId st.

(** [st'] has the session of [st] and its requests, followed by requests
    made for that session. *)
Definition steady (st st' : state) : Prop :=
  sessionId st' = sessionId st
  /\ exists new, outbox st' = outbox st ++ new /\ Forall (own_request st) new.

(** The element of identity [u] is in [d] and is outside the widget. *)
Definition outside (d : document) (u : nat) : Prop :=
  exists anc n,
    In (anc, n) (doc_walk d)
    /\ el_uid (root n) = u
    /\ closest (has_class chat_block) anc (root n) = false.

(** No element that carries the class of the widget lies inside a form:
    the host page has not put the container into one of its forms. *)
Definition widget_outside_forms (d : document) : bool :=
  forallb (fun '(anc, n) =>
             negb (has_class chat_block (root n)) || not_in_form anc)
          (doc_walk d).

(** A contact form is open in the chat: an element of id [i] lies below
    [#savbes-chat-messages]. *)
Definition open_field (i : jsstring) (d : document) : bool :=
  match getElementById messages_id d with
  | Some m => match find_node (has_id i) m with
              | Some _ => true
              | None => false
              end
  | None => false
  end.

(** [f] writes values only, and leaves every element of [d] that is
    inside the widget as it is. *)
Definition kept (d : document) (f : element -> element) : Prop :=
  value_edit f
  /\ forall anc n,
       In (anc, n) (doc_walk d) ->
       closest (has_class chat_block) anc (root n) = true ->
       f (root n) = root n.

(** [d'] is [d] with values written into elements outside the widget. *)
Definition filled (d d' : document) : Prop :=
  exists f, kept d f /\ d' = doc_map f d.

(** Started on [d] with some values written outside the widget, [m] writes
    values outside the widget only and dispatches its events on elements
    outside the widget, whether it returns or throws. *)
Definition spares {A} (d : document) (m : W A) : Prop :=
  forall st, filled d (doc st) ->
    exists new,
      filled d (doc (snd (m st)))
      /\ events (snd (m st)) = events st ++ new
      /\ Forall (fun ev => outside d (fst ev)) new.

End Events.

(** The handlers of [src/templates/index.html] beside the chat: the bubble
    that opens it, the cross that closes it, and the order form. *)
Module Page.
Import Js Dom Eff Inline.
#[local] Open Scope eff_scope.

Definition hidden : jsstring := lit "hidden".
Definition calc_key : jsstring := lit "savbes_calc_data".

Definition with_class (c : list jsstring) (e : element) : element :=
  mkElement (el_uid e) (el_tag e) (el_id e) c (el_type e)
            (el_name e) (el_placeholder e) (el_value e) (el_content e).

(** [x.classList.add(c)]: nothing when the token is there. *)
Definition classList_add (c : jsstring) (e : element) : element :=
  if has_class c e then e else with_class (el_class e ++ [c]) e.

(** [x.classList.remove(c)] *)
Definition classList_remove (c : jsstring) (e : element) : element :=
  with_class (List.filter (fun x => negb (str_eqb x c)) (el_class e)) e.

(** A change made to an element through a reference [u]. *)
Definition edit (u : nat) (f : element -> element) : P unit :=
  modify (fun st =>
    set_doc (doc_map (fun e => if Nat.eqb (el_uid e) u then f e else e)
                     (doc st)) st).

(** The click listener of [#chatToggle]; [this] is the button it is on. *)
Definition open_chat (this : nat) : P unit :=
  c <- the_element (has_id (lit "chatContainer")) (lit "chatContainer") ;;
  edit (el_uid c) (classList_remove hidden) ;;
  edit this (classList_add hidden).

(** The click listener of [#closeChat]. *)
Definition close_chat : P unit :=
  c <- the_element (has_id (lit "chatContainer")) (lit "chatContainer") ;;
  edit (el_uid c) (classList_add hidden) ;;
  t <- the_element (has_id (lit "chatToggle")) (lit "chatToggle") ;;
  edit (el_uid t) (classList_remove hidden).

(** [input[name="name"]] and [input[name="email"]] *)
Definition name_input (e : element) : bool :=
  has_tag (lit "input") e && name_is (lit "name") e.
Definition email_input (e : element) : bool :=
  has_tag (lit "input") e && name_is (lit "email") e.

(** The text of the alert. *)
Definition thanks (name : jsstring) : jsstring :=
  lit "Спасибо за заявку, " ++ name
  ++ lit "! Мы свяжемся с вами в ближайшее время.".

(** The submit listener of [#contactForm].  It returns the text it alerts.
    [e.preventDefault()] keeps the browser from sending the form.
    [this.reset()] is the browser's: [reset] is what it does to each element
    of the page. *)
Definition on_submit (reset : element -> element) : P jsstring :=
  name <- the_element name_input (lit "input[name=name]") ;;
  _ <- the_element phone_input (lit "input[name=phone]") ;;
  _ <- the_element email_input (lit "input[name=email]") ;;
  calcData <- gets (fun st => localStorage st !! calc_key) ;;
  match calcData with
  | Some (c :: s) =>
      comment <- the_element (has_id (lit "formComment")) (lit "formComment") ;;
      assign_value (el_uid comment) (lit "Данные расчета: " ++ c :: s)
  | _ => ret tt
  end ;;
  modify (fun st => set_doc (doc_map reset (doc st)) st) ;;
  ret (thanks (el_value name)).

(** What can happen on the page, and the handler each event runs.
    [Replied message o] ends the exchange that [sendMessage] began for
    [message]. *)
Inductive event :=
| Send
| Replied (message : jsstring) (o : outcome)
| Loaded
| Opened (this : nat)
| Closed
| Ordered (reset : element -> element)
| Edited (u : nat) (text : jsstring).

Definition handle (ev : event) : P unit :=
  match ev with
  | Send => sendMessage
  | Replied message o => sendMessage_resume message o
  | Loaded => on_load
  | Opened this => open_chat this
  | Closed => close_chat
  | Ordered reset => _ <- on_submit reset ;; ret tt
  | Edited u text => type_into u text
  end.

Definition run_events (evs : list event) (st : state) : state :=
  fold_left (fun s ev => snd (handle ev s)) evs st.

(** Whether the first element of id [i] carries [hidden]. *)
Definition is_hidden (i : jsstring) (d : document) : option bool :=
  option_map (fun n => has_class hidden (root n)) (doc_find (has_id i) d).

(** [st'] has the session of [st], its requests followed by requests to
    [/api/chat] for that session, and its storage but for [savbes_phone]. *)
Definition steady (st st' : state) : Prop :=
  sessionId st' = sessionId st
  /\ (exists new,
        outbox st' = outbox st ++ new
        /\ Forall (fun r => fst (fst r) = lit "/api/chat"
                            /\ snd r = sessionId st) new)
  /\ forall k, k <> storage_key ->
               localStorage st' !! k = localStorage st !! k.

End Page.

(** More pages and sessions used as examples. *)
Module Visit.
Import Js Dom Eff.

(** A host page with the container and, outside any form, a phone input of
    its own (3). *)
Definition page_with_phone_input : document :=
  mkDocument
    (Node (Widget.el 0 "head" None [] None None Empty) [])
    (Node (Widget.el 1 "body" None [] None None Empty)
       [ Node (Widget.el 2 "div" (Some "savbes-chat-container") [] None None
                 Empty) [];
         Node (Widget.el 3 "input" None [] (Some "tel") None Empty) [] ]).

(** The widget installed there, a contact form open (19; inputs 21, 22,
    23) and filled. *)
Definition ready_to_submit : Widget.state :=
  Scenario.after
    [ Widget.initChat Scenario.random36;
      Widget.sendMessage Scenario.first_question;
      Widget.sendMessage_resume
        (Body (Spec.bare_reply Scenario.asks_for_contact));
      Widget.fire_timer;
      Widget.type_into 21 (lit "Анна");
      Widget.type_into 22 (lit "+7 912 345-67-89") ]
    (Scenario.start page_with_phone_input 4).

(** What [form.reset()] does on the page as served: the text, tel and
    e-mail inputs of the order form go back to empty. *)
Definition page_reset (e : element) : element :=
  if existsb (Nat.eqb (el_uid e)) [21; 22; 23]%nat then with_value [] e else e.

(** A request as the visitor types it into the text input of the widget
    (12), the input holding it, and the widget with it typed. *)
Definition request : jsstring := lit "  Нужен электрик ".

Definition request_input : node :=
  Node (with_value request
          (Widget.el 12 "input" (Some "savbes-user-input")
             ["savbes-user-input"] (Some "text")
             (Some "Введите ваше сообщение...") Empty)) [].

Definition request_typed : Widget.state :=
  Scenario.after [ Widget.type_into 12 request ] Scenario.mounted.

(** A question as the visitor types it into [#userInput] of the inline
    page, and the input holding it. *)
Definition question : jsstring := lit " Сколько стоит монтаж? ".

Definition question_input : node :=
  Node (with_value question
          (Inline.el 34 "input" (Some "userInput") [] (Some "text") None
             (Some "Введите ваше сообщение...") Empty)) [].

(** A message of the visitor that holds a phone number, and the number. *)
Definition with_phone : jsstring := lit "Мой номер 8 (912) 345-67-89, жду".
Definition the_phone : jsstring := lit "8 (912) 345-67-89".

(** The inline page when the block with the order form (18) has been taken
    out of it. *)
Definition without_order_form : Inline.state :=
  Inline.set_doc (doc_remove 18 Inline.page) Scenario.first_visit.

(** The inline page with a name typed into the order form. *)
Definition order_typed : Inline.state :=
  Scenario.after [ Inline.type_into 21 (lit "Анна");
                   Inline.type_into 22 (lit "+7 912 345-67-89") ]
                 Scenario.first_visit.

(** The hidden comment field of the order form. *)
Definition comment_input : node :=
  Node (Inline.el 24 "input" (Some "formComment") [] (Some "hidden")
          (Some "comment") None Empty) [].

(** The same when another script of the site has stored a calculation. *)
Definition order_with_calc : Inline.state :=
  Inline.set_localStorage
    (<[Page.calc_key := lit "3 розетки, 2 выключателя"]>
       (Inline.localStorage order_typed))
    order_typed.

End Visit.

(** * Properties *)

(** ** Strings *)

Module JsFacts.
Import Js.

Lemma str_eqb_refl (a : jsstring) : str_eqb a a = true.
Proof.
  induction a as [|x a IH]; simpl; [reflexivity|].
  now rewrite N.eqb_refl, IH.
Qed.

Lemma str_eqb_eq (a b : jsstring) : str_eqb a b = true <-> a = b.
Proof.
  split; [|intros ->; apply str_eqb_refl].
  revert b; induction a as [|x a IH]; intros [|y b]; simpl; try discriminate;
    [reflexivity|].
  rewrite andb_true_iff, N.eqb_eq. intros [-> H]. f_equal. now apply IH.
Qed.

Lemma trimStart_blank (s : jsstring) :
  forallb is_whitespace s = true -> trimStart s = [].
Proof.
  induction s as [|c s IH]; simpl; [reflexivity|].
  rewrite andb_true_iff. intros [-> H]. now apply IH.
Qed.

(** A string of white space trims to the empty string. *)
Lemma trim_blank (s : jsstring) :
  forallb is_whitespace s = true -> trim s = [].
Proof.
  intros H. unfold trim, trimEnd. now rewrite (trimStart_blank s H).
Qed.

Lemma startsWith_app (p s : jsstring) : startsWith p (p ++ s) = true.
Proof.
  induction p as [|a p IH]; simpl; [reflexivity|].
  now rewrite N.eqb_refl, IH.
Qed.

Lemma startsWith_split (p s : jsstring) :
  startsWith p s = true -> exists r, s = p ++ r.
Proof.
  revert s; induction p as [|a p IH]; intros s; simpl.
  - intros _. now exists s.
  - destruct s as [|b s]; [discriminate|].
    rewrite andb_true_iff, N.eqb_eq. intros [-> H].
    destruct (IH s H) as [r ->]. now exists r.
Qed.

Lemma includes_here (s p : jsstring) :
  startsWith p s = true -> includes s p = true.
Proof. intros H. destruct s; simpl; now rewrite H. Qed.

Lemma includes_app (a p b : jsstring) : includes (a ++ p ++ b) p = true.
Proof.
  induction a as [|x a IH]; simpl.
  - apply includes_here, startsWith_app.
  - rewrite IH. apply orb_true_r.
Qed.

Lemma includes_split (s p : jsstring) :
  includes s p = true -> exists a b, s = a ++ p ++ b.
Proof.
  induction s as [|x s IH]; simpl.
  - rewrite orb_false_r. intros H. destruct (startsWith_split _ _ H) as [r E].
    now exists [], r.
  - rewrite orb_true_iff. intros [H|H].
    + destruct (startsWith_split _ _ H) as [r E]. now exists [], r.
    + destruct (IH H) as (a & b & ->). now exists (x :: a), b.
Qed.

Lemma replace_newlines_app (a b r : jsstring) :
  replace_newlines (a ++ b) r = replace_newlines a r ++ replace_newlines b r.
Proof. unfold replace_newlines. apply flat_map_app. Qed.

(** Text without a line feed is left as it is. *)
Lemma replace_newlines_id (s r : jsstring) :
  forallb (fun c => negb (c =? 10)) s = true -> replace_newlines s r = s.
Proof.
  induction s as [|c s IH]; simpl; [reflexivity|].
  rewrite andb_true_iff, negb_true_iff. intros [Hc H].
  rewrite Hc. simpl. f_equal. now apply IH.
Qed.

(** Replacing line feeds keeps every occurrence of a text that has none. *)
Lemma includes_replace_newlines (s p r : jsstring) :
  forallb (fun c => negb (c =? 10)) p = true ->
  includes s p = true -> includes (replace_newlines s r) p = true.
Proof.
  intros Hp H. destruct (includes_split _ _ H) as (a & b & ->).
  rewrite !replace_newlines_app, (replace_newlines_id p r Hp).
  apply includes_app.
Qed.

Lemma replace_unfold (s p r : jsstring) :
  replace s p r =
  if startsWith p s then r ++ skipn (List.length p) s
  else match s with
       | [] => []
       | c :: s' => c :: replace s' p r
       end.
Proof. destruct s; reflexivity. Qed.

Lemma skipn_prefix (p b : jsstring) : skipn (List.length p) (p ++ b) = b.
Proof. induction p as [|x p IH]; simpl; [reflexivity | exact IH]. Qed.

(** [replace] takes out the leftmost occurrence and nothing else. *)
Lemma replace_leftmost (s p r : jsstring) :
  includes s p = true ->
  exists a b, s = a ++ p ++ b /\ replace s p r = a ++ r ++ b
              /\ forall a' b', s = a' ++ p ++ b' ->
                               (List.length a <= List.length a')%nat.
Proof.
  induction s as [|x s IH].
  - simpl. rewrite orb_false_r. intros H. destruct p; [|discriminate].
    exists [], []. repeat split. simpl. lia.
  - intros H. destruct (startsWith p (x :: s)) eqn:E.
    + destruct (startsWith_split _ _ E) as [b Eb]. exists [], b.
      split; [exact Eb|]. split; [|simpl; lia].
      rewrite replace_unfold, E, Eb, skipn_prefix. reflexivity.
    + simpl in H. change (startsWith p (x :: s) || includes s p = true) in H.
      rewrite E in H. simpl in H. destruct (IH H) as (a & b & Es & Er & Hmin).
      exists (x :: a), b. split; [simpl; now rewrite Es|].
      split; [rewrite replace_unfold, E, Er; reflexivity|].
      intros [|y a'] b' Ea.
      * simpl in Ea. rewrite Ea, startsWith_app in E. discriminate.
      * simpl in Ea. injection Ea as _ Ea. specialize (Hmin _ _ Ea). simpl. lia.
Qed.

End JsFacts.

(** ** The document tree *)

Module DomFacts.
Import Js Dom.

Lemma node_induction (P : node -> Prop) :
  (forall e kids, Forall P kids -> P (Node e kids)) -> forall t, P t.
Proof.
  intros step. fix IH 1. intros [e kids]. apply step.
  induction kids as [|k kids IHk]; constructor; [apply IH | exact IHk].
Qed.

Lemma first_some_app {A B} (f : A -> option B) (l l' : list A) :
  first_some f (l ++ l') =
  match first_some f l with Some y => Some y | None => first_some f l' end.
Proof.
  induction l as [|x l IH]; simpl; [reflexivity|].
  destruct (f x); [reflexivity | exact IH].
Qed.

(** Without a match there is nothing to append to. *)
Lemma append_node_missing p n t :
  find_node p t = None -> append_node p n t = None.
Proof.
  induction t as [e kids IH] using node_induction. simpl.
  destruct (p e); [discriminate|]. intros H.
  assert (rewrite_first (append_node p n) kids = None) as ->; [|reflexivity].
  induction IH as [|k kids Hk _ IHl]; simpl in *; [reflexivity|].
  destruct (find_node p k); [discriminate|].
  rewrite (Hk eq_refl), (IHl H). reflexivity.
Qed.

(** The node appended becomes the last child of the first match. *)
Lemma append_node_found p n t e kids :
  find_node p t = Some (Node e kids) ->
  exists t', append_node p n t = Some t'
             /\ find_node p t' = Some (Node e (kids ++ [n])).
Proof.
  revert e kids. induction t as [e0 kids0 IH] using node_induction.
  intros e kids. simpl. destruct (p e0) eqn:E.
  - intros [= -> ->]. eexists; split; [reflexivity|]. simpl. now rewrite E.
  - intros H.
    assert (exists l', rewrite_first (append_node p n) kids0 = Some l'
                       /\ first_some (find_node p) l' = Some (Node e (kids ++ [n])))
      as (l' & -> & Hl').
    { induction IH as [|k l Hk _ IHl]; simpl in *; [discriminate|].
      destruct (find_node p k) as [m|] eqn:Ek.
      - injection H as ->. destruct (Hk _ _ eq_refl) as (k' & -> & Hk').
        eexists; split; [reflexivity|]. simpl. now rewrite Hk'.
      - rewrite (append_node_missing p n k Ek).
        destruct (IHl H) as (l' & -> & Hl'). eexists; split; [reflexivity|].
        simpl. now rewrite Ek. }
    eexists; split; [reflexivity|]. simpl. now rewrite E.
Qed.

(** Appending a subtree without a [q]-match leaves the first [q]-match the
    same element. *)
Lemma append_node_other p q n t t' :
  find_node q n = None -> append_node p n t = Some t' ->
  option_map root (find_node q t') = option_map root (find_node q t).
Proof.
  intros Hn. revert t'. induction t as [e kids IH] using node_induction.
  intros t'. simpl. destruct (p e).
  - intros [= <-]. simpl. destruct (q e); [reflexivity|].
    rewrite first_some_app. simpl. rewrite Hn.
    destruct (first_some (find_node q) kids); reflexivity.
  - destruct (rewrite_first (append_node p n) kids) as [kids'|] eqn:R;
      [|discriminate].
    intros [= <-]. simpl. destruct (q e); [reflexivity|].
    revert kids' R. induction IH as [|k l Hk _ IHl]; intros kids' R;
      simpl in *; [discriminate|].
    destruct (append_node p n k) as [k'|] eqn:Ek.
    + injection R as <-. simpl. specialize (Hk _ eq_refl).
      destruct (find_node q k'), (find_node q k); simpl in *;
        try discriminate; [exact Hk | reflexivity].
    + destruct (rewrite_first (append_node p n) l) as [l'|]; [|discriminate].
      injection R as <-. simpl.
      destruct (find_node q k); [reflexivity|]. now apply IHl.
Qed.

(** Appending a subtree with a [q]-match leaves the tree with one. *)
Lemma append_node_brings p q n t t' x :
  find_node q n = Some x -> append_node p n t = Some t' ->
  is_Some (find_node q t').
Proof.
  intros Hn. revert t'. induction t as [e kids IH] using node_induction.
  intros t'. simpl. destruct (p e).
  - intros [= <-]. simpl. destruct (q e); [eauto|].
    rewrite first_some_app. simpl. rewrite Hn.
    destruct (first_some (find_node q) kids); eauto.
  - destruct (rewrite_first (append_node p n) kids) as [kids'|] eqn:R;
      [|discriminate].
    intros [= <-]. simpl. destruct (q e); [eauto|].
    revert kids' R. induction IH as [|k l Hk _ IHl]; intros kids' R;
      simpl in *; [discriminate|].
    destruct (append_node p n k) as [k'|] eqn:Ek.
    + injection R as <-. simpl. destruct (Hk _ eq_refl) as [y ->]. eauto.
    + destruct (rewrite_first (append_node p n) l) as [l'|]; [|discriminate].
      injection R as <-. simpl.
      destruct (find_node q k); [eauto|]. now apply IHl.
Qed.

(** A change of elements that [p] does not see moves with the search. *)
Lemma find_node_map p f t :
  (forall e, p (f e) = p e) ->
  find_node p (map_node f t) = option_map (map_node f) (find_node p t).
Proof.
  intros Hp. induction t as [e kids IH] using node_induction. simpl.
  rewrite Hp. destruct (p e); [reflexivity|].
  induction IH as [|k l Hk _ IHl]; simpl; [reflexivity|].
  rewrite Hk. destruct (find_node p k); [reflexivity | exact IHl].
Qed.

End DomFacts.

Module DocFacts.
Import Js Dom DomFacts.

Lemma doc_append_missing p n d :
  doc_find p d = None -> doc_append p n d = None.
Proof.
  unfold doc_find, doc_append. destruct (find_node p (head d)) eqn:H;
    [discriminate|]. intros B.
  now rewrite (append_node_missing p n _ H), (append_node_missing p n _ B).
Qed.

Lemma doc_append_found p n d e kids :
  doc_find p d = Some (Node e kids) ->
  exists d', doc_append p n d = Some d'
             /\ doc_find p d' = Some (Node e (kids ++ [n])).
Proof.
  unfold doc_find, doc_append. destruct (find_node p (head d)) eqn:H.
  - intros [= ->]. destruct (append_node_found p n _ _ _ H) as (h & -> & Hh).
    eexists; split; [reflexivity|]. simpl. now rewrite Hh.
  - intros B. rewrite (append_node_missing p n _ H).
    destruct (append_node_found p n _ _ _ B) as (b & -> & Hb).
    eexists; split; [reflexivity|]. simpl. now rewrite H.
Qed.

Lemma doc_append_other p q n d d' :
  find_node q n = None -> doc_append p n d = Some d' ->
  option_map root (doc_find q d') = option_map root (doc_find q d).
Proof.
  intros Hn. unfold doc_find, doc_append.
  destruct (append_node p n (head d)) as [h|] eqn:H.
  - intros [= <-]. simpl. pose proof (append_node_other p q n _ _ Hn H) as E.
    destruct (find_node q h), (find_node q (head d)); simpl in *;
      try discriminate; [exact E | reflexivity].
  - destruct (append_node p n (body d)) as [b|] eqn:B; [|discriminate].
    intros [= <-]. simpl. destruct (find_node q (head d)); [reflexivity|].
    exact (append_node_other p q n _ _ Hn B).
Qed.

Lemma doc_append_brings p q n d d' x :
  find_node q n = Some x -> doc_append p n d = Some d' ->
  is_Some (doc_find q d').
Proof.
  intros Hn. unfold doc_find, doc_append.
  destruct (append_node p n (head d)) as [h|] eqn:H.
  - intros [= <-]. simpl.
    destruct (append_node_brings p q n _ _ _ Hn H) as [y ->]. eauto.
  - destruct (append_node p n (body d)) as [b|] eqn:B; [|discriminate].
    intros [= <-]. simpl. destruct (find_node q (head d)); [eauto|].
    exact (append_node_brings p q n _ _ _ Hn B).
Qed.

Lemma doc_find_map p f d :
  (forall e, p (f e) = p e) ->
  doc_find p (doc_map f d) = option_map (map_node f) (doc_find p d).
Proof.
  intros Hp. unfold doc_find, doc_map. simpl. rewrite !find_node_map by exact Hp.
  destruct (find_node p (head d)); reflexivity.
Qed.

Lemma value_edit_set u v :
  value_edit (fun e => if Nat.eqb (el_uid e) u then with_value v e else e).
Proof.
  intros e. destruct (Nat.eqb (el_uid e) u); [now exists v|].
  exists (el_value e). now destruct e.
Qed.

Lemma value_edit_id : value_edit (fun e => e).
Proof. intros e. exists (el_value e). now destruct e. Qed.

Lemma value_edit_compose f g :
  value_edit f -> value_edit g -> value_edit (fun e => g (f e)).
Proof.
  intros Hf Hg e. destruct (Hf e) as [v ->]. destruct (Hg (with_value v e)) as [w ->].
  now exists w.
Qed.

Lemma map_node_id t : map_node (fun e => e) t = t.
Proof.
  induction t as [e kids IH] using node_induction. simpl. f_equal.
  induction IH as [|k l Hk _ IHl]; simpl; [reflexivity|]. now rewrite Hk, IHl.
Qed.

Lemma map_node_compose f g t :
  map_node g (map_node f t) = map_node (fun e => g (f e)) t.
Proof.
  induction t as [e kids IH] using node_induction. simpl. f_equal.
  induction IH as [|k l Hk _ IHl]; simpl; [reflexivity|]. now rewrite Hk, IHl.
Qed.

Lemma doc_map_id d : doc_map (fun e => e) d = d.
Proof. unfold doc_map. rewrite !map_node_id. now destruct d. Qed.

Lemma doc_map_compose f g d :
  doc_map g (doc_map f d) = doc_map (fun e => g (f e)) d.
Proof. unfold doc_map. simpl. now rewrite !map_node_compose. Qed.

Lemma doc_find_edit p f d :
  value_edit f -> (forall e v, p (with_value v e) = p e) ->
  doc_find p (doc_map f d) = option_map (map_node f) (doc_find p d).
Proof.
  intros Hf Hp. apply doc_find_map. intros e. destruct (Hf e) as [v ->].
  apply Hp.
Qed.

(** A selector on one element never reads its [value]. *)
Lemma has_id_value_edit i f e : value_edit f -> has_id i (f e) = has_id i e.
Proof. intros Hf. destruct (Hf e) as [v ->]. reflexivity. Qed.

(** The first element with a given id after value edits: the same element,
    edited. *)
Lemma getElementById_map i f d :
  value_edit f ->
  getElementById i (doc_map f d) = option_map (map_node f) (getElementById i d).
Proof.
  intros Hf. apply doc_find_map. intros e. now apply has_id_value_edit.
Qed.

End DocFacts.

(** ** The widget *)

Module WidgetFacts.
Import Js Dom Eff Widget JsFacts DomFacts DocFacts.
#[local] Open Scope eff_scope.

Lemma entry_of_message u isUser h :
  entry_of (message_node u isUser h) = Message isUser h.
Proof. destruct isUser; reflexivity. Qed.

Lemma message_node_no_id i u isUser h :
  find_node (has_id i) (message_node u isUser h) = None.
Proof. reflexivity. Qed.

Lemma entry_of_form u : entry_of (form_node u) = Form u.
Proof. reflexivity. Qed.

Lemma entry_of_map f n : value_edit f -> entry_of (map_node f n) = entry_of n.
Proof.
  intros Hf. destruct n as [e kids]. unfold entry_of. simpl.
  destruct (Hf e) as [v ->]. reflexivity.
Qed.

(** Writing values does not change what the chat shows. *)
Lemma transcript_map f d :
  value_edit f -> transcript (doc_map f d) = transcript d.
Proof.
  intros Hf. unfold transcript. rewrite getElementById_map by exact Hf.
  destruct (getElementById messages_id d) as [[e kids]|]; simpl; [|reflexivity].
  f_equal. rewrite map_map. apply map_ext. intros n. now apply entry_of_map.
Qed.

Lemma transcript_set_value u v d :
  transcript (set_value u v d) = transcript d.
Proof. apply transcript_map, value_edit_set. Qed.

(** A node appended to [#savbes-chat-messages] is the new last entry. *)
Lemma appendChild_to_messages n st T :
  transcript (doc st) = Some T ->
  exists d', appendChild_to messages_id n st = (Normal tt, set_doc d' st)
             /\ doc_append (has_id messages_id) n (doc st) = Some d'
             /\ transcript d' = Some (T ++ [entry_of n]).
Proof.
  unfold transcript, getElementById, appendChild_to.
  destruct (doc_find (has_id messages_id) (doc st)) as [[e kids]|] eqn:F;
    [|discriminate].
  intros [= <-]. destruct (doc_append_found _ n _ _ _ F) as (d' & A & F').
  exists d'. rewrite A, F'. simpl. rewrite map_app. auto.
Qed.

(** [addMessage] on a string that takes the plain branch: a user message, or
    a reply without the sentinel. *)
Lemma addMessage_plain m isUser st T :
  transcript (doc st) = Some T ->
  negb isUser && includes m SHOW_CONTACT_FORM = false ->
  exists d',
    addMessage (VStr m) isUser st
    = (Normal tt, set_doc d' (set_fresh (fresh st + 1) st))
    /\ doc_append (has_id messages_id)
         (message_node (fresh st) isUser (replace_newlines m (lit "<br>")))
         (doc st) = Some d'
    /\ transcript d'
       = Some (T ++ [Message isUser (replace_newlines m (lit "<br>"))]).
Proof.
  intros HT Hb. unfold addMessage, bind, alloc. rewrite Hb.
  destruct (appendChild_to_messages
              (message_node (fresh st) isUser (replace_newlines m (lit "<br>")))
              (set_fresh (fresh st + 1) st) T HT) as (d' & -> & A & HT').
  exists d'. rewrite entry_of_message in HT'. auto.
Qed.

(** [addMessage] on a reply that holds the sentinel. *)
Lemma addMessage_sentinel m st T :
  transcript (doc st) = Some T ->
  includes m SHOW_CONTACT_FORM = true ->
  exists d',
    addMessage (VStr m) false st
    = (Normal tt,
       set_timers (timers st ++ [(ShowContactForm, 500)])
         (set_doc d' (set_fresh (fresh st + 1) st)))
    /\ doc_append (has_id messages_id)
         (message_node (fresh st) false (replace m SHOW_CONTACT_FORM []))
         (doc st) = Some d'
    /\ transcript d'
       = Some (T ++ [Message false (replace m SHOW_CONTACT_FORM [])]).
Proof.
  intros HT Hb. unfold addMessage, bind, alloc. rewrite Hb.
  change (negb false && true) with true. cbv iota.
  destruct (appendChild_to_messages
              (message_node (fresh st) false (replace m SHOW_CONTACT_FORM []))
              (set_fresh (fresh st + 1) st) T HT) as (d' & -> & A & HT').
  exists d'. rewrite entry_of_message in HT'. auto.
Qed.

(** [addMessage] on anything but a string throws before it touches the
    document. *)
Lemma addMessage_not_string v isUser st :
  (forall m, v <> VStr m) ->
  addMessage v isUser st
  = (Throw (TypeError (lit "message.replace is not a function")),
     set_fresh (fresh st + 1) st).
Proof.
  intros Hv. unfold addMessage, bind, alloc.
  destruct v; try reflexivity. now destruct (Hv s).
Qed.

(** [showContactForm] puts a form at the end of the chat. *)
Lemma showContactForm_shows st T :
  transcript (doc st) = Some T ->
  exists st',
    showContactForm st = (Normal tt, st')
    /\ transcript (doc st') = Some (T ++ [Form (fresh st)])
    /\ timers st' = timers st /\ outbox st' = outbox st
    /\ rejections st' = rejections st.
Proof.
  intros HT. unfold showContactForm, bind, alloc.
  destruct (appendChild_to_messages (form_node (fresh st))
              (set_fresh (fresh st + 8) st) T HT) as (d' & -> & A & HT').
  simpl in A.
  assert (exists x, find_node (has_id name_input_id) (form_node (fresh st)) = Some x)
    as [x0 Hn] by (eexists; reflexivity).
  assert (exists x, find_node (has_id phone_input_id) (form_node (fresh st)) = Some x)
    as [y0 Hp] by (eexists; reflexivity).
  destruct (doc_append_brings _ _ _ _ _ _ Hn A) as [x Hx].
  destruct (doc_append_brings _ _ _ _ _ _ Hp A) as [y Hy].
  unfold focus_on, listen_on, getElementById. simpl doc. rewrite Hx. simpl doc.
  rewrite Hy. eexists; split; [reflexivity|]. simpl. auto.
Qed.

(** [sendMessage] on a text that is not blank: the message is shown at once,
    the input is cleared and one request leaves. *)
Lemma sendMessage_sends m st T :
  trim m <> [] ->
  transcript (doc st) = Some T ->
  is_Some (getElementById user_input_id (doc st)) ->
  exists st',
    sendMessage m st = (Normal tt, st')
    /\ transcript (doc st')
       = Some (T ++ [Message true (replace_newlines m (lit "<br>"))])
    /\ outbox st' = outbox st ++ [mkRequest apiUrl m (sessionId st)]
    /\ timers st' = timers st
    /\ rejections st' = rejections st
    /\ userData st' = userData st
    /\ alerts st' = alerts st
    /\ exists u d',
         doc_append (has_id messages_id)
           (message_node (fresh st) true (replace_newlines m (lit "<br>")))
           (doc st) = Some d'
         /\ doc st' = set_value u [] d'.
Proof.
  intros Hm HT [x Hx].
  destruct (addMessage_plain m true st T HT eq_refl) as (d' & E & A & HT').
  assert (exists y, getElementById user_input_id d' = Some y) as [y Hy].
  { pose proof (doc_append_other _ (has_id user_input_id) _ _ _
                  (message_node_no_id _ _ _ _) A) as R.
    unfold getElementById in *. rewrite Hx in R.
    destruct (doc_find (has_id user_input_id) d'); [eauto | discriminate]. }
  unfold sendMessage, async, bind. destruct (trim m) eqn:Et; [contradiction|].
  cbv beta iota delta [is_empty]. rewrite E. unfold assign_value. simpl doc.
  rewrite Hy. unfold fetch, modify. eexists. split; [reflexivity|]. simpl.
  rewrite transcript_set_value. repeat split; auto.
  eexists. exists d'. split; [exact A | reflexivity].
Qed.

(** The exchange fails: the catch block shows the apology. *)
Lemma resume_rejected e st T :
  transcript (doc st) = Some T ->
  exists st',
    sendMessage_resume (Rejected e) st = (Normal tt, st')
    /\ transcript (doc st') = Some (T ++ [Message false apology])
    /\ outbox st' = outbox st
    /\ timers st' = timers st
    /\ rejections st' = rejections st.
Proof.
  intros HT. unfold sendMessage_resume, async, try_catch, throw, bind,
    console_write, modify.
  destruct (addMessage_plain apology false
              (set_console (console st ++ [(LError, lit "Error:")]) st) T HT
              eq_refl) as (d' & E & _ & HT').
  rewrite E. eexists. split; [reflexivity|]. simpl. repeat split; auto.
Qed.

Lemma response_of_bare X : response_of (Spec.bare_reply X) = VStr X.
Proof.
  unfold response_of, Spec.bare_reply, get. simpl truthy. cbv iota.
  now rewrite lookup_singleton_eq.
Qed.

Lemma response_of_nested X :
  response_of (Spec.nested_reply X) = VObj {[ lit "text" := VStr X ]}.
Proof.
  unfold response_of, Spec.nested_reply, get. simpl truthy. cbv iota.
  now rewrite lookup_singleton_eq.
Qed.

Lemma text_of_nested X : text_of (VObj {[ lit "text" := VStr X ]}) = VStr X.
Proof.
  unfold text_of, get. simpl typeof_object. cbv iota.
  now rewrite lookup_singleton_eq.
Qed.

(** A reply whose text the script reads as the non-empty string [X],
    without the sentinel. *)
Lemma resume_shows data X st T :
  truthy (response_of data) = true ->
  (if truthy (text_of (response_of data)) then text_of (response_of data)
   else response_of data) = VStr X ->
  includes X SHOW_CONTACT_FORM = false ->
  transcript (doc st) = Some T ->
  exists d',
    sendMessage_resume (Body data) st
    = (Normal tt, set_doc d' (set_fresh (fresh st + 1) st))
    /\ doc_append (has_id messages_id)
         (message_node (fresh st) false (replace_newlines X (lit "<br>")))
         (doc st) = Some d'
    /\ transcript d'
       = Some (T ++ [Message false (replace_newlines X (lit "<br>"))]).
Proof.
  intros Hr Hv Hs HT. unfold sendMessage_resume, async, try_catch.
  rewrite Hr.
  assert (Hb : negb false && includes X SHOW_CONTACT_FORM = false)
    by (now rewrite Hs).
  destruct (addMessage_plain X false st T HT Hb) as (d' & E & A & HT').
  exists d'. destruct (truthy (text_of (response_of data)));
    rewrite Hv, E; auto.
Qed.

End WidgetFacts.

(** ** Regular expressions *)

Module RegexFacts.
Import Js.

(** A match hands the continuation a rest that is shorter by at least
    [min_length]. *)
Lemma rmatch_consumes {R} (r : regex) :
  forall (s : jsstring) (k : jsstring -> option R) (x : R),
    rmatch r s k = Some x ->
    exists rest, k rest = Some x
                 /\ (List.length rest + min_length r <= List.length s)%nat.
Proof.
  induction r as [c|p|a IHa b IHb|a IHa b IHb|a IHa]; intros s k x; simpl.
  - destruct s as [|y s]; [discriminate|]. destruct (y =? c); [|discriminate].
    intros H. exists s. split; [exact H | simpl; lia].
  - destruct s as [|y s]; [discriminate|]. destruct (p y); [|discriminate].
    intros H. exists s. split; [exact H | simpl; lia].
  - intros H. destruct (IHa _ _ _ H) as (s1 & H1 & L1).
    destruct (IHb _ _ _ H1) as (s2 & H2 & L2). exists s2. split; [exact H2 | lia].
  - destruct (rmatch a s k) as [y|] eqn:E.
    + intros [= ->]. destruct (IHa _ _ _ E) as (s1 & H1 & L1).
      exists s1. split; [exact H1 | lia].
    + intros H. destruct (IHb _ _ _ H) as (s1 & H1 & L1).
      exists s1. split; [exact H1 | lia].
  - destruct (rmatch a s k) as [y|] eqn:E.
    + intros [= ->]. destruct (IHa _ _ _ E) as (s1 & H1 & L1).
      exists s1. split; [exact H1 | lia].
    + intros H. exists s. split; [exact H | lia].
Qed.

Lemma match_here_length r s m :
  match_here r s = Some m -> (min_length r <= List.length m)%nat.
Proof.
  unfold match_here. intros H. destruct (rmatch_consumes r _ _ _ H) as (rest & E & L).
  injection E as <-. rewrite length_firstn. lia.
Qed.

Lemma exec_length r s m :
  exec r s = Some m -> (min_length r <= List.length m)%nat.
Proof.
  induction s as [|c s IH]; simpl.
  - destruct (match_here r []) eqn:E; [|discriminate].
    intros [= ->]. exact (match_here_length _ _ _ E).
  - destruct (match_here r (c :: s)) eqn:E; [|exact IH].
    intros [= ->]. exact (match_here_length _ _ _ E).
Qed.

(** What [phoneRegex] finds has at least eleven characters. *)
Lemma phone_found_not_empty s m :
  exec Inline.phoneRegex s = Some m -> exists c r, m = c :: r.
Proof.
  intros H. apply exec_length in H. change (11 <= List.length m)%nat in H.
  destruct m as [|c r]; [simpl in H; lia | eauto].
Qed.

End RegexFacts.

(** ** The inline page *)

Module InlineFacts.
Import Js Dom Eff Inline JsFacts DomFacts DocFacts.
#[local] Open Scope eff_scope.

Lemma inline_entry_of_message u isUser t :
  entry_of (message_node u isUser t) = Some (isUser, t).
Proof. destruct isUser; reflexivity. Qed.

Lemma inline_message_node_no_id i u isUser t :
  find_node (has_id i) (message_node u isUser t) = None.
Proof. reflexivity. Qed.

Lemma inline_message_node_no_phone u isUser t :
  find_node phone_input (message_node u isUser t) = None.
Proof. reflexivity. Qed.

Lemma inline_entry_of_map f n : value_edit f -> entry_of (map_node f n) = entry_of n.
Proof.
  intros Hf. destruct n as [e kids]. unfold entry_of. simpl.
  destruct (Hf e) as [v ->]. reflexivity.
Qed.

Lemma inline_transcript_map f d :
  value_edit f -> transcript (doc_map f d) = transcript d.
Proof.
  intros Hf. unfold transcript.
  rewrite doc_find_map by (intros e; now apply has_id_value_edit).
  destruct (doc_find (has_id (lit "chatBody")) d) as [[e kids]|]; simpl;
    [|reflexivity].
  f_equal. rewrite map_map. apply map_ext. intros n. now apply inline_entry_of_map.
Qed.

Lemma inline_transcript_set_value u v d :
  transcript (set_value u v d) = transcript d.
Proof. apply inline_transcript_map, value_edit_set. Qed.

Lemma inline_phone_input_value_edit f e :
  value_edit f -> phone_input (f e) = phone_input e.
Proof. intros Hf. destruct (Hf e) as [v ->]. reflexivity. Qed.

(** [addMessage] on a value that converts to the text [s]. *)
Lemma inline_addMessage_shows v s isUser st T :
  textContent_text v = Some s ->
  transcript (doc st) = Some T ->
  exists d',
    addMessage v isUser st
    = (Normal tt, set_doc d' (set_fresh (S (fresh st)) st))
    /\ doc_append (has_id (lit "chatBody")) (message_node (fresh st) isUser s)
         (doc st) = Some d'
    /\ transcript d' = Some (T ++ [Some (isUser, s)]).
Proof.
  intros Hv. unfold transcript, addMessage, bind, alloc, textContent_of.
  rewrite Hv. unfold ret. simpl doc.
  destruct (doc_find (has_id (lit "chatBody")) (doc st)) as [[e kids]|] eqn:F;
    [|discriminate].
  intros [= <-].
  destruct (doc_append_found _ (message_node (fresh st) isUser s) _ _ _ F)
    as (d' & A & F').
  exists d'. rewrite A, F'. simpl. rewrite map_app. simpl.
  rewrite inline_entry_of_message. auto.
Qed.

(** [sendMessage] when [#userInput] holds a text that is not blank. *)
Lemma inline_sendMessage_sends st T input m :
  doc_find (has_id (lit "userInput")) (doc st) = Some input ->
  trim (el_value (root input)) = m ->
  m <> [] ->
  transcript (doc st) = Some T ->
  exists st',
    sendMessage st = (Normal tt, st')
    /\ transcript (doc st') = Some (T ++ [Some (true, m)])
    /\ outbox st' = outbox st ++ [(lit "/api/chat", m, sessionId st)]
    /\ rejections st' = rejections st
    /\ localStorage st' = localStorage st.
Proof.
  intros Hi Hv Hm HT.
  destruct (inline_addMessage_shows (VStr m) m true st T eq_refl HT) as (d' & E & _ & HT').
  unfold sendMessage, async, bind, the_element. rewrite Hi, Hv.
  destruct m as [|c m]; [contradiction|]. cbv beta iota delta [is_empty].
  rewrite E. unfold assign_value, fetch, modify. eexists.
  split; [reflexivity|]. simpl. rewrite inline_transcript_set_value.
  repeat split; auto.
Qed.

(** The exchange fails: the catch block shows the apology. *)
Lemma inline_resume_rejected msg e st T :
  transcript (doc st) = Some T ->
  exists st',
    sendMessage_resume msg (Rejected e) st = (Normal tt, st')
    /\ transcript (doc st') = Some (T ++ [Some (false, apology)])
    /\ outbox st' = outbox st
    /\ rejections st' = rejections st
    /\ localStorage st' = localStorage st.
Proof.
  intros HT. unfold sendMessage_resume, async, try_catch, throw, bind,
    console_error, modify.
  destruct (inline_addMessage_shows (VStr apology) apology false
              (set_console (console st ++ [lit "Error:"]) st) T eq_refl HT)
    as (d' & E & _ & HT').
  rewrite E. eexists. split; [reflexivity|]. simpl. repeat split; auto.
Qed.

(** A body arrives whose [response] converts to the text [s], on a page
    that has the phone input: the text is shown, and a phone number found in
    the visitor's own message is written to the input and to the storage. *)
Lemma inline_resume_body msg data response s st T :
  get data (lit "response") = inr response ->
  textContent_text response = Some s ->
  transcript (doc st) = Some T ->
  is_Some (doc_find phone_input (doc st)) ->
  exists st',
    sendMessage_resume msg (Body data) st = (Normal tt, st')
    /\ transcript (doc st') = Some (T ++ [Some (false, s)])
    /\ rejections st' = rejections st
    /\ outbox st' = outbox st
    /\ localStorage st'
       = match exec phoneRegex msg with
         | Some found => <[storage_key := found]> (localStorage st)
         | None => localStorage st
         end
    /\ forall found, exec phoneRegex msg = Some found ->
         exists n, doc_find phone_input (doc st') = Some n
                   /\ el_value (root n) = found.
Proof.
  intros Hg Hs HT [x Hx].
  destruct (inline_addMessage_shows response s false st T Hs HT) as (d' & E & A & HT').
  assert (exists y, doc_find phone_input d' = Some y /\ root y = root x)
    as (y & Hy & Ry).
  { pose proof (doc_append_other _ phone_input _ _ _
                  (inline_message_node_no_phone _ _ _) A) as R.
    rewrite Hx in R. destruct (doc_find phone_input d') as [y|];
      [|discriminate]. injection R as R. eauto. }
  unfold sendMessage_resume, async, try_catch, bind. rewrite Hg, E.
  destruct (exec phoneRegex msg) as [found|].
  - unfold the_element, assign_value, modify. simpl doc. rewrite Hy.
    eexists. split; [reflexivity|]. simpl.
    rewrite inline_transcript_set_value. repeat split; auto.
    intros ? [= <-]. unfold set_value.
    rewrite (doc_find_edit phone_input _ _ (value_edit_set _ _))
      by reflexivity.
    rewrite Hy. simpl. eexists. split; [reflexivity|].
    destruct y as [ey ky]. simpl. now rewrite Nat.eqb_refl.
  - unfold ret. eexists. split; [reflexivity|]. simpl. repeat split; auto.
    discriminate.
Qed.

(** The page opens with a stored phone number: the listener writes it into
    the phone input. *)
Lemma inline_on_load_fills st c s input :
  localStorage st !! storage_key = Some (c :: s) ->
  doc_find phone_input (doc st) = Some input ->
  exists st' n,
    on_load st = (Normal tt, st')
    /\ doc_find phone_input (doc st') = Some n
    /\ el_value (root n) = c :: s.
Proof.
  intros Hk Hi. unfold on_load, bind, gets. rewrite Hk.
  unfold the_element, assign_value, modify. rewrite Hi.
  eexists. eexists. split; [reflexivity|]. simpl. unfold set_value.
  rewrite (doc_find_edit phone_input _ _ (value_edit_set _ _)) by reflexivity.
  rewrite Hi. simpl. split; [reflexivity|].
  destruct input as [e k]. simpl. now rewrite Nat.eqb_refl.
Qed.

End InlineFacts.

(** ** Filling the host page and sending the contact *)

Module FillFacts.
Import Js Dom Eff Widget JsFacts DomFacts DocFacts WidgetFacts.
#[local] Open Scope eff_scope.

Lemma edits_refl st : edits st st.
Proof.
  split; [|repeat split].
  exists (fun e => e). split; [apply value_edit_id | now rewrite doc_map_id].
Qed.

Lemma edits_trans st1 st2 st3 : edits st1 st2 -> edits st2 st3 -> edits st1 st3.
Proof.
  intros [(f & Hf & Df) V1] [(g & Hg & Dg) V2]. split.
  - exists (fun e => g (f e)). split; [now apply value_edit_compose|].
    now rewrite Dg, Df, doc_map_compose.
  - unfold same_vars in *. intuition congruence.
Qed.

Lemma gentle_ret {A} (a : A) : gentle (ret a).
Proof. intros st. apply edits_refl. Qed.

Lemma gentle_throw {A} (e : exn) : gentle (@throw state A e).
Proof. intros st. apply edits_refl. Qed.

Lemma gentle_bind {A B} (m : W A) (k : A -> W B) :
  gentle m -> (forall a, gentle (k a)) -> gentle (bind m k).
Proof.
  intros Hm Hk st. unfold bind. specialize (Hm st).
  destruct (m st) as [[a|e] st1]; simpl in *; [|exact Hm].
  exact (edits_trans _ _ _ Hm (Hk a st1)).
Qed.

Lemma gentle_gets {A} (f : state -> A) : gentle (gets f).
Proof. intros st. apply edits_refl. Qed.

Lemma gentle_forEach {A} (f : A -> W unit) (l : list A) :
  (forall x, gentle (f x)) -> gentle (forEach f l).
Proof.
  intros Hf. induction l as [|x l IH]; simpl; [apply gentle_ret|].
  apply gentle_bind; [apply Hf | intros _; exact IH].
Qed.

Lemma gentle_console_write l msg : gentle (console_write l msg).
Proof.
  intros st. split; [|repeat split]. exists (fun e => e).
  split; [apply value_edit_id | simpl; now rewrite doc_map_id].
Qed.

Lemma gentle_dispatchEvent u name : gentle (dispatchEvent u name).
Proof.
  intros st. split; [|repeat split]. exists (fun e => e).
  split; [apply value_edit_id | simpl; now rewrite doc_map_id].
Qed.

(** Writing a value is an edit, and a refused value changes nothing. *)
Lemma gentle_fill v e : gentle (fill v e).
Proof.
  unfold fill.
  destruct (is_input e && type_is (lit "file") e && negb (is_empty v));
    [apply gentle_throw|].
  apply gentle_bind; [|intros _; apply gentle_bind;
    [apply gentle_dispatchEvent | intros _; apply gentle_dispatchEvent]].
  intros st. split; [|repeat split]. eexists.
  split; [apply (value_edit_set (el_uid e) v)|]. reflexivity.
Qed.

Lemma gentle_fill_in_form field sel note anc form :
  gentle (fill_in_form field sel note anc form).
Proof.
  unfold fill_in_form. destruct (provided field); [|apply gentle_ret].
  apply gentle_forEach. intros [a input].
  apply gentle_bind; [apply gentle_fill | intros _; apply gentle_console_write].
Qed.

Lemma gentle_fill_loose field sel note : gentle (fill_loose field sel note).
Proof.
  unfold fill_loose. destruct (provided field); [|apply gentle_ret].
  apply gentle_bind; [apply gentle_gets|]. intros d.
  apply gentle_forEach. intros [a input].
  destruct (closest (has_class chat_block) a (root input)); [apply gentle_ret|].
  apply gentle_bind; [apply gentle_console_write | intros _; apply gentle_fill].
Qed.

Lemma quiet_console_write l msg : quiet (console_write l msg).
Proof.
  intros st. eexists. eexists. split; [reflexivity|].
  apply (gentle_console_write l msg st).
Qed.

(** What is thrown inside [try] is caught: the whole ends normally when the
    [catch] block does. *)
Lemma quiet_try_catch {A} (m : W A) (h : exn -> W A) :
  gentle m -> (forall e, quiet (h e)) -> quiet (try_catch m h).
Proof.
  intros Hm Hh st. unfold try_catch. specialize (Hm st).
  destruct (m st) as [[a|e] st1]; simpl in Hm.
  - exists a, st1. auto.
  - destruct (Hh e st1) as (b & st2 & E & F). exists b, st2.
    split; [exact E | exact (edits_trans _ _ _ Hm F)].
Qed.

(** [fillPageForms] always ends normally and only writes values, console
    lines and events. *)
Lemma quiet_fillPageForms data : quiet (fillPageForms data).
Proof.
  unfold fillPageForms. apply quiet_try_catch;
    [|intros _; apply quiet_console_write].
  apply gentle_bind; [apply gentle_console_write | intros _].
  apply gentle_bind; [apply gentle_gets | intros d].
  apply gentle_bind.
  - apply gentle_forEach. intros [anc form].
    destruct (closest (has_class chat_block) anc (root form));
      [apply gentle_ret|].
    repeat (apply gentle_bind; [apply gentle_fill_in_form | intros _]).
    apply gentle_fill_in_form.
  - intros _. repeat (apply gentle_bind; [apply gentle_fill_loose | intros _]).
    apply gentle_fill_loose.
Qed.

(** *** Which elements the loops reach *)

(** The events of a loop are those of its rounds, up to the round that
    throws. *)
Lemma forEach_emits {A} (f : A -> W unit) (Q : nat * jsstring -> Prop)
    (l : list A) :
  (forall x st, In x l ->
     exists new, events (snd (f x st)) = events st ++ new /\ Forall Q new) ->
  forall st,
    exists new, events (snd (forEach f l st)) = events st ++ new
                /\ Forall Q new.
Proof.
  induction l as [|x l IH]; intros Hf st; simpl.
  - exists []. now rewrite app_nil_r.
  - unfold bind. destruct (Hf x st (or_introl eq_refl)) as (n1 & E1 & Q1).
    destruct (f x st) as [[a|e] st1]; simpl in *; [|eauto].
    destruct (IH (fun y s Hy => Hf y s (or_intror Hy)) st1) as (n2 & E2 & Q2).
    exists (n1 ++ n2). rewrite E2, E1, app_assoc. split; [reflexivity|].
    apply Forall_app. auto.
Qed.

(** [fill] dispatches on the element it was given, if at all. *)
Lemma fill_emits v e st :
  exists new, events (snd (fill v e st)) = events st ++ new
              /\ Forall (fun ev => fst ev = el_uid e) new.
Proof.
  unfold fill.
  destruct (is_input e && type_is (lit "file") e && negb (is_empty v)).
  - exists []. simpl. now rewrite app_nil_r.
  - exists [(el_uid e, lit "input"); (el_uid e, lit "change")]. simpl.
    rewrite <- app_assoc. split; [reflexivity|]. repeat constructor.
Qed.

Lemma skipn_old {A} (old new : list A) :
  skipn (List.length old) (old ++ new) = new.
Proof. induction old as [|x old IH]; simpl; [reflexivity | exact IH]. Qed.

(** Every event that a loop over the inputs outside forms dispatches is on
    an element of the document that [closest('.savbes-chat-block')] finds
    outside the widget. *)
Lemma fill_loose_spares_widget field sel note st u name :
  In (u, name)
     (skipn (List.length (events st))
            (events (snd (fill_loose field sel note st)))) ->
  exists anc n,
    In (anc, n) (doc_walk (doc st))
    /\ el_uid (root n) = u
    /\ closest (has_class chat_block) anc (root n) = false.
Proof.
  unfold fill_loose. destruct (provided field) as [v|].
  - unfold bind at 1. unfold gets. cbv beta iota.
    match goal with
    | |- context [forEach ?f ?l st] =>
        destruct (forEach_emits f
                    (fun ev => exists anc n,
                       In (anc, n) (doc_walk (doc st))
                       /\ el_uid (root n) = fst ev
                       /\ closest (has_class chat_block) anc (root n) = false)
                    l) with (st := st) as (new & E & F)
    end.
    + intros [anc n] st0 Hin. apply filter_In in Hin. destruct Hin as [Hin _].
      destruct (closest (has_class chat_block) anc (root n)) eqn:C.
      * exists []. simpl. now rewrite app_nil_r.
      * destruct (fill_emits v (root n)
                    (set_console (console st0 ++ [(LLog, note)]) st0))
          as (new & E & F).
        exists new. split; [exact E|].
        eapply Forall_impl; [exact F|]. intros ev Hev. exists anc, n. auto.
    + rewrite E, skipn_old. intros Hin.
      rewrite List.Forall_forall in F. exact (F _ Hin).
  - simpl. rewrite skipn_all. intros [].
Qed.

(** Every event that a block run on a form dispatches is on a descendant of
    that form matching the selector: the inputs themselves are not tested
    for being inside the widget. *)
Lemma fill_in_form_reaches field sel note anc form st u name :
  In (u, name)
     (skipn (List.length (events st))
            (events (snd (fill_in_form field sel note anc form st)))) ->
  exists a n,
    In (a, n) (descendants anc form)
    /\ el_uid (root n) = u
    /\ sel (root n) = true.
Proof.
  unfold fill_in_form. destruct (provided field) as [v|].
  - match goal with
    | |- context [forEach ?f ?l st] =>
        destruct (forEach_emits f
                    (fun ev => exists a n,
                       In (a, n) (descendants anc form)
                       /\ el_uid (root n) = fst ev
                       /\ sel (root n) = true)
                    l) with (st := st) as (new & E & F)
    end.
    + intros [a n] st0 Hin. apply filter_In in Hin. destruct Hin as [Hin Hs].
      destruct (fill_emits v (root n) st0) as (new & E & F).
      exists new. split.
      * unfold bind.
        destruct (fill v (root n) st0) as [[[]|e] st1]; exact E.
      * eapply Forall_impl; [exact F|]. intros ev Hev. exists a, n. auto.
    + rewrite E, skipn_old. intros Hin.
      rewrite List.Forall_forall in F. exact (F _ Hin).
  - simpl. rewrite skipn_all. intros [].
Qed.

(** *** Removal *)

Lemma occurs_remove u t :
  existsb (occurs u) (children (remove_node u t)) = false.
Proof.
  induction t as [e kids IH] using node_induction. simpl.
  induction IH as [|k l Hk _ IHl]; simpl; [reflexivity|].
  destruct (Nat.eqb (el_uid (root k)) u) eqn:E; simpl; [exact IHl|].
  rewrite IHl, orb_false_r. destruct k as [ek kk]. simpl in *.
  now rewrite E, Hk.
Qed.

(** After [x.remove()] the element is no longer in the document. *)
Lemma attached_remove u d : attached u (doc_remove u d) = false.
Proof. unfold attached, doc_remove. simpl. now rewrite !occurs_remove. Qed.

Lemma occurs_map u f t : value_edit f -> occurs u (map_node f t) = occurs u t.
Proof.
  intros Hf. induction t as [e kids IH] using node_induction. simpl.
  destruct (Hf e) as [v ->]. simpl. f_equal.
  induction IH as [|k l Hk _ IHl]; simpl; [reflexivity|]. now rewrite Hk, IHl.
Qed.

Lemma below_map u f t :
  value_edit f ->
  existsb (occurs u) (children (map_node f t)) = existsb (occurs u) (children t).
Proof.
  intros Hf. destruct t as [e kids]. simpl.
  induction kids as [|k l IHl]; simpl; [reflexivity|].
  now rewrite IHl, occurs_map.
Qed.

Lemma attached_map u f d :
  value_edit f -> attached u (doc_map f d) = attached u d.
Proof. intros Hf. unfold attached, doc_map. simpl. now rewrite !below_map. Qed.

Lemma occurs_append u p n t t' :
  occurs u n = false -> append_node p n t = Some t' ->
  occurs u t' = occurs u t
  /\ existsb (occurs u) (children t') = existsb (occurs u) (children t).
Proof.
  intros Hn. revert t'. induction t as [e kids IH] using node_induction.
  intros t'. simpl. destruct (p e).
  - intros [= <-]. simpl. rewrite existsb_app. simpl.
    rewrite Hn, !orb_false_r. auto.
  - destruct (rewrite_first (append_node p n) kids) as [kids'|] eqn:R;
      [|discriminate].
    intros [= <-]. simpl.
    assert (existsb (occurs u) kids' = existsb (occurs u) kids) as ->; [|auto].
    revert kids' R. induction IH as [|k l Hk _ IHl]; intros kids' R;
      simpl in *; [discriminate|].
    destruct (append_node p n k) as [k'|] eqn:Ek.
    + injection R as <-. simpl. destruct (Hk _ eq_refl) as [-> _]. reflexivity.
    + destruct (rewrite_first (append_node p n) l) as [l'|]; [|discriminate].
      injection R as <-. simpl. now rewrite (IHl _ eq_refl).
Qed.

Lemma attached_append u p n d d' :
  occurs u n = false -> doc_append p n d = Some d' ->
  attached u d' = attached u d.
Proof.
  intros Hn. unfold attached, doc_append.
  destruct (append_node p n (head d)) as [h|] eqn:H.
  - intros [= <-]. simpl. now destruct (occurs_append u p n _ _ Hn H) as [_ ->].
  - destruct (append_node p n (body d)) as [b|] eqn:B; [|discriminate].
    intros [= <-]. simpl. now destruct (occurs_append u p n _ _ Hn B) as [_ ->].
Qed.

(** *** The text sent *)

Lemma trimStart_nil s : trimStart s = [] -> forallb is_whitespace s = true.
Proof.
  induction s as [|c s IH]; simpl; [reflexivity|].
  destruct (is_whitespace c); [exact IH | discriminate].
Qed.

Lemma trimStart_keeps_blank s :
  forallb is_whitespace (trimStart s) = true -> forallb is_whitespace s = true.
Proof.
  induction s as [|c s IH]; simpl; [reflexivity|].
  destruct (is_whitespace c) eqn:E; [exact IH|]. simpl. now rewrite E.
Qed.

(** Only white space trims to nothing. *)
Lemma trim_nil s : trim s = [] -> forallb is_whitespace s = true.
Proof.
  unfold trim, trimEnd. intros H. apply trimStart_keeps_blank.
  apply (f_equal (@rev N)) in H. rewrite rev_involutive in H. simpl in H.
  apply trimStart_nil in H. rewrite forallb_forall in *.
  intros x Hx. apply H. now apply in_rev in Hx.
Qed.

Lemma comma_not_blank s :
  In 44 s -> forallb is_whitespace s = true -> False.
Proof.
  intros Hi H. rewrite forallb_forall in H. specialize (H _ Hi). discriminate.
Qed.

(** [contactText] is blank only when the name and the e-mail are empty and
    the phone is white space. *)
Lemma contactText_not_blank name phone email :
  name <> [] \/ email <> [] \/ forallb is_whitespace phone = false ->
  trim (contactText name phone email) <> [].
Proof.
  intros H Ht. apply trim_nil in Ht. unfold contactText in Ht.
  change (lit ", ") with [44; 32] in Ht.
  destruct name as [|c name].
  - destruct email as [|c email].
    + simpl in Ht. rewrite app_nil_r in Ht.
      destruct H as [H|[H|H]]; congruence.
    + apply (comma_not_blank _) in Ht; [exact Ht|].
      cbv beta iota delta [negb is_empty]. rewrite !in_app_iff. simpl. auto.
  - apply (comma_not_blank _) in Ht; [exact Ht|].
    cbv beta iota delta [negb is_empty]. rewrite !in_app_iff. simpl. auto.
Qed.

Lemma contactText_has_phone name phone email :
  includes (contactText name phone email) phone = true.
Proof. unfold contactText. apply includes_app. Qed.

Lemma contactText_has_name name phone email :
  name <> [] -> includes (contactText name phone email) name = true.
Proof.
  intros H. unfold contactText. destruct name as [|c name]; [contradiction|].
  change (negb (is_empty (c :: name))) with true. cbv iota.
  rewrite <- app_assoc. exact (includes_app [] (c :: name) _).
Qed.

Lemma contactText_has_email name phone email :
  email <> [] -> includes (contactText name phone email) email = true.
Proof.
  intros H. destruct email as [|c email]; [contradiction|].
  assert (contactText name phone (c :: email)
          = ((if negb (is_empty name) then name ++ lit ", " else [])
             ++ phone ++ lit ", ") ++ (c :: email) ++ []) as ->.
  { unfold contactText. change (negb (is_empty (c :: email))) with true.
    cbv iota. rewrite app_nil_r, <- !app_assoc. reflexivity. }
  apply includes_app.
Qed.

End FillFacts.

(** * The claims *)

Import Js Dom Eff.

(** ** The model on small inputs *)

Example trim_strips_both_ends : trim (lit "  да, 8 912 	") = lit "да, 8 912".
Proof. vm_compute. reflexivity. Qed.

Example trim_keeps_inner_space : trim [160; 97; 32; 98; 10] = [97; 32; 98].
Proof. vm_compute. reflexivity. Qed.

Example replace_takes_the_first :
  replace (lit "a[X]b[X]c") (lit "[X]") [] = lit "ab[X]c".
Proof. vm_compute. reflexivity. Qed.

Example remove_every_takes_all :
  Spec.remove_every (lit "a[X]b[X]c") (lit "[X]") = lit "abc".
Proof. vm_compute. reflexivity. Qed.

Example replace_newlines_all :
  replace_newlines [97; 10; 10; 98] (lit "<br>") = lit "a<br><br>b".
Proof. vm_compute. reflexivity. Qed.

Example includes_inside : includes (lit "abc") (lit "bc") = true.
Proof. vm_compute. reflexivity. Qed.

Example includes_split_over : includes (lit "ab-c") (lit "bc") = false.
Proof. vm_compute. reflexivity. Qed.

Example zero_is_falsy : truthy (VNum (lit "0")) = false.
Proof. vm_compute. reflexivity. Qed.

Example empty_array_is_truthy : truthy (VArr []) = true.
Proof. vm_compute. reflexivity. Qed.

Example array_to_string :
  to_string (VArr [VStr (lit "a"); VNull; VNum (lit "1.5"); VArr [VBool true]])
  = Some (lit "a,,1.5,true").
Proof. vm_compute. reflexivity. Qed.

Example object_to_string :
  to_string (VObj {[ lit "text" := VStr (lit "x") ]})
  = Some (lit "[object Object]").
Proof. vm_compute. reflexivity. Qed.

Example object_with_own_toString :
  to_string (VObj {[ lit "toString" := VStr (lit "x") ]}) = None.
Proof. vm_compute. reflexivity. Qed.

Example property_of_null : get VNull (lit "response") = inl (TypeError (lit "response")).
Proof. vm_compute. reflexivity. Qed.

Example property_of_string : get (VStr (lit "ok")) (lit "response") = inr VUndefined.
Proof. vm_compute. reflexivity. Qed.

Example phone_with_brackets :
  exec Inline.phoneRegex (lit "мой номер 8 (912) 345-67-89, звоните")
  = Some (lit "8 (912) 345-67-89").
Proof. vm_compute. reflexivity. Qed.

Example phone_plain :
  exec Inline.phoneRegex (lit "+79123456789") = Some (lit "+79123456789").
Proof. vm_compute. reflexivity. Qed.

Example phone_too_short : exec Inline.phoneRegex (lit "+7912345678") = None.
Proof. vm_compute. reflexivity. Qed.

Example phone_wrong_prefix : exec Inline.phoneRegex (lit "79123456789") = None.
Proof. vm_compute. reflexivity. Qed.

Example type_selector_ignores_case :
  type_is (lit "tel")
    (mkElement 0 (lit "input") None [] (Some (lit "TEL")) None None [] Empty)
  = true.
Proof. vm_compute. reflexivity. Qed.

Example name_selector_keeps_case :
  name_has (lit "PHONE")
    (mkElement 0 (lit "input") None [] None (Some (lit "phone")) None [] Empty)
  = false.
Proof. vm_compute. reflexivity. Qed.

Example mounted_chat :
  Widget.transcript (Widget.doc Scenario.mounted)
  = Some [Widget.Message false Widget.welcomeMessage]
  /\ Widget.sessionId Scenario.mounted = lit "k3j5h7g9d1s2a"
  /\ Widget.console Scenario.mounted
     = [(Widget.LLog,
         lit "САВБЕС чат-бот успешно инициализирован в #savbes-chat-container")].
Proof. repeat split; vm_compute; reflexivity. Qed.

Example form_open_chat :
  Widget.transcript (Widget.doc Scenario.form_open)
  = Some [Widget.Message false Widget.welcomeMessage;
          Widget.Message true Scenario.first_question;
          Widget.Message false (lit "Оставьте телефон, мы перезвоним.");
          Widget.Form 18]
  /\ Widget.timers Scenario.form_open = []
  /\ Widget.focus Scenario.form_open = Some 20%nat.
Proof. repeat split; vm_compute; reflexivity. Qed.

Example cancel_sends_refusal :
  Widget.transcript
    (Widget.doc (snd (Widget.cancelContactForm 18 Scenario.form_open)))
  = Some [Widget.Message false Widget.welcomeMessage;
          Widget.Message true Scenario.first_question;
          Widget.Message false (lit "Оставьте телефон, мы перезвоним.");
          Widget.Message true Widget.refusal].
Proof. vm_compute. reflexivity. Qed.

Example empty_phone_alerts :
  Widget.alerts (snd (Widget.submitContactForm 18 Scenario.form_open))
  = [Widget.phone_required]
  /\ Widget.transcript
       (Widget.doc (snd (Widget.submitContactForm 18 Scenario.form_open)))
     = Widget.transcript (Widget.doc Scenario.form_open).
Proof. split; vm_compute; reflexivity. Qed.

Example inline_page_inputs :
  option_map (fun n => el_uid (root n))
    (doc_find (has_id (lit "userInput")) Inline.page) = Some 34%nat
  /\ option_map (fun n => el_uid (root n))
       (doc_find Inline.phone_input Inline.page) = Some 22%nat
  /\ Inline.transcript Inline.page
     = Some [Some (false, lit "Здравствуйте! Чем могу помочь?")].
Proof. repeat split; vm_compute; reflexivity. Qed.

(** ** The claims, one by one *)

(** What [addMessage] does with a reply that holds the sentinel: the reply
    is shown with the leftmost occurrence of the sentinel taken out and its
    line feeds left as they are, and a timer of 500 ms is set for
    [showContactForm]; when that timer comes due on a page that still has
    the chat, the contact form is appended to it. *)
Lemma sentinel_reply_shown (st : Widget.state) (reply : jsstring)
    (T : list Widget.entry) :
  Widget.transcript (Widget.doc st) = Some T ->
  includes reply Widget.SHOW_CONTACT_FORM = true ->
  exists st',
    Widget.addMessage (VStr reply) false st = (Normal tt, st')
    /\ Widget.transcript (Widget.doc st')
       = Some (T ++ [Widget.Message false
                       (replace reply Widget.SHOW_CONTACT_FORM [])])
    /\ (exists a b,
          reply = a ++ Widget.SHOW_CONTACT_FORM ++ b
          /\ replace reply Widget.SHOW_CONTACT_FORM [] = a ++ b
          /\ forall a' b', reply = a' ++ Widget.SHOW_CONTACT_FORM ++ b' ->
                           (List.length a <= List.length a')%nat)
    /\ Widget.timers st'
       = Widget.timers st ++ [(Widget.ShowContactForm, 500)]
    /\ forall later T',
         Widget.transcript (Widget.doc later) = Some T' ->
         exists shown,
           Widget.run Widget.ShowContactForm later = (Normal tt, shown)
           /\ Widget.transcript (Widget.doc shown)
              = Some (T' ++ [Widget.Form (Widget.fresh later)]).
Proof.
  intros HT Hs.
  destruct (WidgetFacts.addMessage_sentinel reply st T HT Hs) as (d' & E & _ & HT').
  eexists. split; [exact E|]. split; [exact HT'|]. split.
  - destruct (JsFacts.replace_leftmost reply Widget.SHOW_CONTACT_FORM [] Hs)
      as (a & b & E1 & E2 & E3).
    exists a, b. auto.
  - split; [reflexivity|]. intros later T' HT2.
    destruct (WidgetFacts.showContactForm_shows later T' HT2)
      as (shown & E1 & E2 & _).
    exists shown. auto.
Qed.

(** C1 fails on the code.  A reply made of the sentinel twice is rendered
    on the installed widget: the timer for the contact form is set, but the
    message shown is the second sentinel, where the claim has the empty
    text: [replace] with a string pattern takes out the leftmost occurrence
    only. *)
Theorem C1_second_sentinel_shown :
  includes Scenario.doubled Widget.SHOW_CONTACT_FORM = true
  /\ Widget.transcript (Widget.doc Scenario.mounted)
     = Some [Widget.Message false Widget.welcomeMessage]
  /\ fst (Widget.addMessage (VStr Scenario.doubled) false Scenario.mounted)
     = Normal tt
  /\ Widget.timers
       (snd (Widget.addMessage (VStr Scenario.doubled) false Scenario.mounted))
     = [(Widget.ShowContactForm, 500)]
  /\ Widget.transcript
       (Widget.doc (snd (Widget.addMessage (VStr Scenario.doubled) false
                           Scenario.mounted)))
     = Some ([Widget.Message false Widget.welcomeMessage]
             ++ [Widget.Message false Widget.SHOW_CONTACT_FORM])
  /\ Widget.transcript
       (Widget.doc
          (snd (Widget.fire_timer
                  (snd (Widget.addMessage (VStr Scenario.doubled) false
                          Scenario.mounted)))))
     = Some [Widget.Message false Widget.welcomeMessage;
             Widget.Message false Widget.SHOW_CONTACT_FORM;
             Widget.Form 17]
  /\ Spec.remove_every Scenario.doubled Widget.SHOW_CONTACT_FORM = []
  /\ Widget.transcript
       (Widget.doc (snd (Widget.addMessage (VStr Scenario.doubled) false
                           Scenario.mounted)))
     <> Some ([Widget.Message false Widget.welcomeMessage]
              ++ [Widget.Message false
                    (Spec.remove_every Scenario.doubled
                                       Widget.SHOW_CONTACT_FORM)]).
Proof.
  repeat split; try (vm_compute; reflexivity). vm_compute. discriminate.
Qed.

(** C2, as the code has it.  The widget takes both envelopes: a reply
    [{response: {text: X}}] with [X] not empty and without the sentinel is
    shown exactly as the reply [{response: X}] is, that is, as [X] with each
    line feed replaced by the markup of a line break, which is [X] itself when
    [X] has no line feed. *)
Theorem C2_nested_reply (w : Widget.state) (X : jsstring)
    (T : list Widget.entry) :
  X <> [] ->
  includes X Widget.SHOW_CONTACT_FORM = false ->
  Widget.transcript (Widget.doc w) = Some T ->
  exists w',
    Widget.sendMessage_resume (Body (Spec.nested_reply X)) w = (Normal tt, w')
    /\ Widget.sendMessage_resume (Body (Spec.bare_reply X)) w = (Normal tt, w')
    /\ Widget.transcript (Widget.doc w')
       = Some (T ++ [Widget.Message false (Spec.with_line_breaks X)])
    /\ (forallb (fun c => negb (c =? 10)) X = true ->
        Spec.with_line_breaks X = X)
    /\ Widget.rejections w' = Widget.rejections w.
Proof.
  intros HX Hs HT.
  assert (truthy (VStr X) = true) as HtX
      by (destruct X; [contradiction | reflexivity]).
  destruct (WidgetFacts.resume_shows (Spec.nested_reply X) X w T)
    as (d1 & E1 & A1 & T1);
    [ now rewrite WidgetFacts.response_of_nested
    | now rewrite WidgetFacts.response_of_nested,
                  WidgetFacts.text_of_nested, HtX
    | exact Hs | exact HT | ].
  destruct (WidgetFacts.resume_shows (Spec.bare_reply X) X w T)
    as (d2 & E2 & A2 & T2);
    [ now rewrite WidgetFacts.response_of_bare
    | now rewrite WidgetFacts.response_of_bare
    | exact Hs | exact HT | ].
  rewrite A1 in A2. injection A2 as <-.
  eexists. split; [exact E1|]. split; [exact E2|]. split; [exact T1|].
  split; [apply JsFacts.replace_newlines_id | reflexivity].
Qed.

Lemma C2_nested_reply_witness :
  exists w',
    Widget.sendMessage_resume (Body (Spec.nested_reply (lit "Да, выезжаем.")))
      Scenario.mounted = (Normal tt, w')
    /\ Widget.sendMessage_resume (Body (Spec.bare_reply (lit "Да, выезжаем.")))
         Scenario.mounted = (Normal tt, w')
    /\ Widget.transcript (Widget.doc w')
       = Some ([Widget.Message false Widget.welcomeMessage]
               ++ [Widget.Message false
                     (Spec.with_line_breaks (lit "Да, выезжаем."))])
    /\ (forallb (fun c => negb (c =? 10)) (lit "Да, выезжаем.") = true ->
        Spec.with_line_breaks (lit "Да, выезжаем.") = lit "Да, выезжаем.")
    /\ Widget.rejections w' = Widget.rejections Scenario.mounted.
Proof.
  apply (C2_nested_reply Scenario.mounted (lit "Да, выезжаем.")).
  - vm_compute. discriminate.
  - vm_compute. reflexivity.
  - vm_compute. reflexivity.
Defined.

(** C2 as stated fails in both scripts: the widget shows a line feed in
    [X] as the markup of a line break, and the inline page, which reads
    [data.response] as a string, shows [[object Object]] for
    [{response: {text: "ok"}}]. *)
Lemma C2_counterexample :
  Widget.transcript
    (Widget.doc (snd (Widget.sendMessage_resume
                        (Body (Spec.nested_reply [97; 10; 98]))
                        Scenario.mounted)))
  = Some [Widget.Message false Widget.welcomeMessage;
          Widget.Message false (lit "a<br>b")]
  /\ lit "a<br>b" <> [97; 10; 98]
  /\ Inline.transcript
       (Inline.doc (snd (Inline.sendMessage_resume (lit "Привет")
                           (Body (Spec.nested_reply (lit "ok")))
                           Scenario.first_visit)))
     = Some [Some (false, lit "Здравствуйте! Чем могу помочь?");
             Some (false, lit "[object Object]")]
  /\ lit "[object Object]" <> lit "ok".
Proof.
  split; [vm_compute; reflexivity|]. split; [vm_compute; discriminate|].
  split; [vm_compute; reflexivity|]. vm_compute. discriminate.
Qed.

(** C3, as the code has it.  For a reply [{response: X}], [X] not empty:
    the widget shows [X] with each line feed replaced by the markup of a
    line break when [X] is without the sentinel; the inline page shows the
    text [X] as it is, line feeds included. *)
Theorem C3_bare_reply (w : Widget.state) (i : Inline.state)
    (X msg : jsstring)
    (Tw : list Widget.entry) (Ti : list (option (bool * jsstring))) :
  X <> [] ->
  includes X Widget.SHOW_CONTACT_FORM = false ->
  Widget.transcript (Widget.doc w) = Some Tw ->
  Inline.transcript (Inline.doc i) = Some Ti ->
  is_Some (doc_find Inline.phone_input (Inline.doc i)) ->
  (exists w',
     Widget.sendMessage_resume (Body (Spec.bare_reply X)) w = (Normal tt, w')
     /\ Widget.transcript (Widget.doc w')
        = Some (Tw ++ [Widget.Message false (Spec.with_line_breaks X)])
     /\ Widget.rejections w' = Widget.rejections w)
  /\ (exists i',
        Inline.sendMessage_resume msg (Body (Spec.bare_reply X)) i
        = (Normal tt, i')
        /\ Inline.transcript (Inline.doc i') = Some (Ti ++ [Some (false, X)])
        /\ Inline.rejections i' = Inline.rejections i).
Proof.
  intros HX Hs HTw HTi Hp. split.
  - destruct (WidgetFacts.resume_shows (Spec.bare_reply X) X w Tw)
      as (d & E & _ & T); try assumption.
    { rewrite WidgetFacts.response_of_bare.
      destruct X; [contradiction | reflexivity]. }
    { now rewrite WidgetFacts.response_of_bare. }
    eexists. split; [exact E|]. split; [exact T | reflexivity].
  - destruct (InlineFacts.inline_resume_body msg (Spec.bare_reply X) (VStr X) X i Ti)
      as (i' & E & T & R & _); try assumption.
    { unfold Spec.bare_reply, get. now rewrite lookup_singleton_eq. }
    { reflexivity. }
    exists i'. auto.
Qed.

Lemma C3_bare_reply_witness :
  (exists w',
     Widget.sendMessage_resume (Body (Spec.bare_reply [1044; 1072; 10; 1085]))
       Scenario.mounted = (Normal tt, w')
     /\ Widget.transcript (Widget.doc w')
        = Some ([Widget.Message false Widget.welcomeMessage]
                ++ [Widget.Message false
                      (Spec.with_line_breaks [1044; 1072; 10; 1085])])
     /\ Widget.rejections w' = Widget.rejections Scenario.mounted)
  /\ (exists i',
        Inline.sendMessage_resume (lit "Привет")
          (Body (Spec.bare_reply [1044; 1072; 10; 1085])) Scenario.first_visit
        = (Normal tt, i')
        /\ Inline.transcript (Inline.doc i')
           = Some ([Some (false, lit "Здравствуйте! Чем могу помочь?")]
                   ++ [Some (false, [1044; 1072; 10; 1085])])
        /\ Inline.rejections i' = Inline.rejections Scenario.first_visit).
Proof.
  apply (C3_bare_reply Scenario.mounted Scenario.first_visit
           [1044; 1072; 10; 1085] (lit "Привет")).
  - discriminate.
  - vm_compute. reflexivity.
  - vm_compute. reflexivity.
  - vm_compute. reflexivity.
  - vm_compute. eexists. reflexivity.
Defined.

(** C3 as stated fails on the inline page, which shows the line feed of
    [{response: "a\nb"}] as it came, and in the widget for the empty string,
    which it answers with its fixed message for a bad reply. *)
Lemma C3_counterexample :
  Inline.transcript
    (Inline.doc (snd (Inline.sendMessage_resume (lit "Привет")
                        (Body (Spec.bare_reply [97; 10; 98]))
                        Scenario.first_visit)))
  = Some [Some (false, lit "Здравствуйте! Чем могу помочь?");
          Some (false, [97; 10; 98])]
  /\ [97; 10; 98] <> Spec.with_line_breaks [97; 10; 98]
  /\ Widget.transcript
       (Widget.doc (snd (Widget.sendMessage_resume (Body (Spec.bare_reply []))
                           Scenario.mounted)))
     = Some [Widget.Message false Widget.welcomeMessage;
             Widget.Message false Widget.bad_reply_message]
  /\ Widget.bad_reply_message <> Spec.with_line_breaks [].
Proof.
  split; [vm_compute; reflexivity|]. split; [vm_compute; discriminate|].
  split; [vm_compute; reflexivity|]. vm_compute. discriminate.
Qed.

(** C4, as the code has it.  The contact form [formDiv] is in the document
    and is submitted; its own name, phone and e-mail inputs are the elements
    that [document.getElementById] finds for the three ids, which is so when
    no other contact form is open above it.  Its phone is not empty, and the
    text built from the fields is not blank: there is a name, an e-mail, or
    a character in the phone that is not white space.  Then the form leaves
    the document, [userData] holds the three fields, and [sendMessage] is
    run once on that text: the chat gains one message of the visitor, which
    holds the phone and the name and e-mail when given, and one request
    leaves.  [T] is the chat once the form is out. *)
Theorem C4_contact_submitted (st : Widget.state) (formDiv : nat)
    (overlay nameInput phoneInput emailInput : node)
    (name phone email : jsstring) (T : list Widget.entry) :
  doc_find (is_element formDiv) (Widget.doc st) = Some overlay ->
  find_node (has_id Widget.name_input_id) overlay = Some nameInput ->
  find_node (has_id Widget.phone_input_id) overlay = Some phoneInput ->
  find_node (has_id Widget.email_input_id) overlay = Some emailInput ->
  getElementById Widget.name_input_id (Widget.doc st) = Some nameInput ->
  getElementById Widget.phone_input_id (Widget.doc st) = Some phoneInput ->
  getElementById Widget.email_input_id (Widget.doc st) = Some emailInput ->
  el_value (root nameInput) = name ->
  el_value (root phoneInput) = phone ->
  el_value (root emailInput) = email ->
  phone <> [] ->
  name <> [] \/ email <> [] \/ forallb is_whitespace phone = false ->
  (formDiv < Widget.fresh st)%nat ->
  Widget.transcript (doc_remove formDiv (Widget.doc st)) = Some T ->
  is_Some (getElementById Widget.user_input_id
             (doc_remove formDiv (Widget.doc st))) ->
  exists st',
    Widget.submitContactForm formDiv st = (Normal tt, st')
    /\ attached formDiv (Widget.doc st') = false
    /\ Widget.userData st'
       = Widget.mkContact (Some name) (Some phone) (Some email)
    /\ Widget.transcript (Widget.doc st')
       = Some (T ++ [Widget.Message true
                       (replace_newlines (Widget.contactText name phone email)
                                         (lit "<br>"))])
    /\ Widget.outbox st'
       = Widget.outbox st
         ++ [Widget.mkRequest Widget.apiUrl
               (Widget.contactText name phone email) (Widget.sessionId st)]
    /\ includes (Widget.contactText name phone email) phone = true
    /\ (name <> [] ->
        includes (Widget.contactText name phone email) name = true)
    /\ (email <> [] ->
        includes (Widget.contactText name phone email) email = true)
    /\ Widget.alerts st' = Widget.alerts st
    /\ Widget.rejections st' = Widget.rejections st.
Proof.
  intros _ _ _ _ Hn Hp He Vn Vp Ve Hphone Hblank Hold HT Hu.
  unfold Widget.submitContactForm, bind, Widget.value_of.
  rewrite Hn, Hp, He, Vn, Vp, Ve.
  destruct phone as [|c0 phone0] eqn:Ephone; [contradiction|].
  rewrite <- Ephone in *. replace (negb (is_empty phone)) with true
    by (rewrite Ephone; reflexivity).
  unfold modify.
  set (data := Widget.mkContact (Some name) (Some phone) (Some email)).
  set (st2 := Widget.set_userData data
                (Widget.set_doc (doc_remove formDiv (Widget.doc st)) st)).
  destruct (FillFacts.quiet_fillPageForms data st2)
    as (a & st3 & E3 & (f & Hf & Df) & V).
  rewrite E3. unfold Widget.same_vars in V.
  destruct V as (Vf & Vs & Vu & Vt & Vo & Va & _ & Vr).
  assert (Widget.transcript (Widget.doc st3) = Some T) as HT3.
  { rewrite Df. subst st2. simpl Widget.doc.
    now rewrite WidgetFacts.transcript_map. }
  assert (is_Some (getElementById Widget.user_input_id (Widget.doc st3))) as Hu3.
  { rewrite Df. subst st2. simpl Widget.doc.
    rewrite DocFacts.getElementById_map by exact Hf.
    destruct Hu as [x ->]. simpl. eauto. }
  destruct (WidgetFacts.sendMessage_sends (Widget.contactText name phone email)
              st3 T (FillFacts.contactText_not_blank _ _ _ Hblank) HT3 Hu3)
    as (st' & E & HT' & O & _ & R & U & A & u & d' & Ap & D).
  exists st'. split; [exact E|]. split.
  { assert (occurs formDiv
              (Widget.message_node (Widget.fresh st3) true
                 (replace_newlines (Widget.contactText name phone email)
                                   (lit "<br>"))) = false) as Hocc.
    { simpl. rewrite orb_false_r, Vf. subst st2. simpl Widget.fresh.
      apply Nat.eqb_neq. lia. }
    rewrite D. unfold set_value.
    rewrite FillFacts.attached_map by apply DocFacts.value_edit_set.
    rewrite (FillFacts.attached_append formDiv _ _ _ _ Hocc Ap).
    rewrite Df, FillFacts.attached_map by exact Hf.
    subst st2. simpl Widget.doc. apply FillFacts.attached_remove. }
  split; [rewrite U, Vu; reflexivity|].
  split; [exact HT'|].
  split; [rewrite O, Vo, Vs; reflexivity|].
  split; [apply FillFacts.contactText_has_phone|].
  split; [apply FillFacts.contactText_has_name|].
  split; [apply FillFacts.contactText_has_email|].
  split; [rewrite A, Va; reflexivity | rewrite R, Vr; reflexivity].
Qed.

Lemma C4_contact_submitted_witness :
  exists st',
    Widget.submitContactForm 18 Scenario.contact_typed = (Normal tt, st')
    /\ attached 18 (Widget.doc st') = false
    /\ Widget.userData st'
       = Widget.mkContact (Some (lit "Анна")) (Some (lit "+7 912 345-67-89"))
                          (Some (lit "anna@example.com"))
    /\ Widget.transcript (Widget.doc st')
       = Some ([Widget.Message false Widget.welcomeMessage;
                Widget.Message true Scenario.first_question;
                Widget.Message false (lit "Оставьте телефон, мы перезвоним.")]
               ++ [Widget.Message true
                     (replace_newlines
                        (Widget.contactText (lit "Анна")
                           (lit "+7 912 345-67-89") (lit "anna@example.com"))
                        (lit "<br>"))])
    /\ Widget.outbox st'
       = Widget.outbox Scenario.contact_typed
         ++ [Widget.mkRequest Widget.apiUrl
               (Widget.contactText (lit "Анна") (lit "+7 912 345-67-89")
                  (lit "anna@example.com"))
               (Widget.sessionId Scenario.contact_typed)]
    /\ includes (Widget.contactText (lit "Анна") (lit "+7 912 345-67-89")
                   (lit "anna@example.com")) (lit "+7 912 345-67-89") = true
    /\ (lit "Анна" <> [] ->
        includes (Widget.contactText (lit "Анна") (lit "+7 912 345-67-89")
                    (lit "anna@example.com")) (lit "Анна") = true)
    /\ (lit "anna@example.com" <> [] ->
        includes (Widget.contactText (lit "Анна") (lit "+7 912 345-67-89")
                    (lit "anna@example.com")) (lit "anna@example.com") = true)
    /\ Widget.alerts st' = Widget.alerts Scenario.contact_typed
    /\ Widget.rejections st' = Widget.rejections Scenario.contact_typed.
Proof.
  apply (C4_contact_submitted Scenario.contact_typed 18
           (map_node
              (fun e =>
                 if Nat.eqb (el_uid e) 20 then with_value (lit "Анна") e
                 else if Nat.eqb (el_uid e) 21
                      then with_value (lit "+7 912 345-67-89") e
                 else if Nat.eqb (el_uid e) 22
                      then with_value (lit "anna@example.com") e
                 else e)
              (Widget.form_node 18))
           (Node (with_value (lit "Анна")
                    (Widget.el 20 "input" (Some "savbes-name-input")
                       ["savbes-form-input"] (Some "text") (Some "Ваше имя")
                       Empty)) [])
           (Node (with_value (lit "+7 912 345-67-89")
                    (Widget.el 21 "input" (Some "savbes-phone-input")
                       ["savbes-form-input"] (Some "tel") (Some "Ваш телефон")
                       Empty)) [])
           (Node (with_value (lit "anna@example.com")
                    (Widget.el 22 "input" (Some "savbes-email-input")
                       ["savbes-form-input"] (Some "email")
                       (Some "Ваш email (опционально)") Empty)) [])).
  - vm_compute. reflexivity.
  - vm_compute. reflexivity.
  - vm_compute. reflexivity.
  - vm_compute. reflexivity.
  - vm_compute. reflexivity.
  - vm_compute. reflexivity.
  - vm_compute. reflexivity.
  - vm_compute. reflexivity.
  - vm_compute. reflexivity.
  - vm_compute. reflexivity.
  - vm_compute. discriminate.
  - left. vm_compute. discriminate.
  - vm_compute. lia.
  - vm_compute. reflexivity.
  - vm_compute. eexists. reflexivity.
Defined.

(** C4 as stated fails, in two ways.  With one space as the phone and
    nothing else, the form is removed and the data recorded, but
    [sendMessage] drops the blank text: no message is shown and no request
    leaves.  And with two contact forms open, the handler still reads the
    fields of the first: the second form (28), submitted with a phone number
    in its own phone input (31), only brings the alert; it stays in the
    chat, nothing is recorded and nothing is sent. *)
Lemma C4_counterexample :
  option_map (fun n => el_value (root n))
    (getElementById Widget.phone_input_id (Widget.doc Scenario.blank_phone_typed))
  = Some (lit " ")
  /\ fst (Widget.submitContactForm 18 Scenario.blank_phone_typed) = Normal tt
  /\ attached 18 (Widget.doc Scenario.blank_phone_typed) = true
  /\ attached 18
       (Widget.doc (snd (Widget.submitContactForm 18 Scenario.blank_phone_typed)))
     = false
  /\ Widget.userData (snd (Widget.submitContactForm 18 Scenario.blank_phone_typed))
     = Widget.mkContact (Some []) (Some (lit " ")) (Some [])
  /\ Widget.transcript
       (Widget.doc (snd (Widget.submitContactForm 18 Scenario.blank_phone_typed)))
     = Some [Widget.Message false Widget.welcomeMessage;
             Widget.Message true Scenario.first_question;
             Widget.Message false (lit "Оставьте телефон, мы перезвоним.")]
  /\ Widget.outbox (snd (Widget.submitContactForm 18 Scenario.blank_phone_typed))
     = Widget.outbox Scenario.blank_phone_typed
  /\ Widget.alerts (snd (Widget.submitContactForm 18 Scenario.blank_phone_typed))
     = []
  /\ option_map (fun n => (occurs 31 n,
                           option_map (fun i => el_uid (root i))
                             (find_node (has_id Widget.phone_input_id) n)))
       (doc_find (is_element 28) (Widget.doc Scenario.second_form_filled))
     = Some (true, Some 31%nat)
  /\ option_map (fun n => el_value (root n))
       (doc_find (is_element 31) (Widget.doc Scenario.second_form_filled))
     = Some (lit "+7 912 345-67-89")
  /\ fst (Widget.submitContactForm 28 Scenario.second_form_filled) = Normal tt
  /\ attached 28
       (Widget.doc (snd (Widget.submitContactForm 28 Scenario.second_form_filled)))
     = true
  /\ Widget.userData
       (snd (Widget.submitContactForm 28 Scenario.second_form_filled))
     = Widget.mkContact None None None
  /\ Widget.transcript
       (Widget.doc (snd (Widget.submitContactForm 28 Scenario.second_form_filled)))
     = Widget.transcript (Widget.doc Scenario.second_form_filled)
  /\ Widget.outbox
       (snd (Widget.submitContactForm 28 Scenario.second_form_filled))
     = Widget.outbox Scenario.second_form_filled
  /\ Widget.alerts
       (snd (Widget.submitContactForm 28 Scenario.second_form_filled))
     = [Widget.phone_required].
Proof. repeat apply conj; vm_compute; reflexivity. Qed.

(** What the inline page does with a phone number: it looks for one in the
    message the visitor sent; once a reply has arrived and been shown, the
    leftmost match in that message is written to the phone input of the
    order form and to local storage under [savbes_phone]; the next page load
    reads it back into the phone input. *)
Lemma visitor_phone_stored (st : Inline.state) (msg found : jsstring)
    (data response : value) (shown random36 : jsstring)
    (T : list (option (bool * jsstring))) :
  exec Inline.phoneRegex msg = Some found ->
  get data (lit "response") = inr response ->
  Inline.textContent_text response = Some shown ->
  Inline.transcript (Inline.doc st) = Some T ->
  is_Some (doc_find Inline.phone_input (Inline.doc st)) ->
  exists st',
    Inline.sendMessage_resume msg (Body data) st = (Normal tt, st')
    /\ Inline.localStorage st' !! Inline.storage_key = Some found
    /\ (exists n, doc_find Inline.phone_input (Inline.doc st') = Some n
                  /\ el_value (root n) = found)
    /\ exists next n,
         Inline.on_load (Inline.load (Inline.localStorage st') random36)
         = (Normal tt, next)
         /\ doc_find Inline.phone_input (Inline.doc next) = Some n
         /\ el_value (root n) = found.
Proof.
  intros Hf Hg Hs HT Hp.
  destruct (InlineFacts.inline_resume_body msg data response shown st T Hg Hs HT Hp)
    as (st' & E & _ & _ & _ & L & V).
  rewrite Hf in L. exists st'. split; [exact E|].
  assert (Inline.localStorage st' !! Inline.storage_key = Some found) as K
      by (rewrite L; apply lookup_insert_eq).
  split; [exact K|]. split; [exact (V _ Hf)|].
  destruct (RegexFacts.phone_found_not_empty _ _ Hf) as (c & r & ->).
  assert (exists input,
            doc_find Inline.phone_input
              (Inline.doc (Inline.load (Inline.localStorage st') random36))
            = Some input) as [input Hi] by (eexists; reflexivity).
  destruct (InlineFacts.inline_on_load_fills
              (Inline.load (Inline.localStorage st') random36) c r input K Hi)
    as (next & n & H1 & H2 & H3).
  exists next, n. auto.
Qed.

(** C5 fails on the code.  The reply holds a phone number the pattern
    matches and the visitor's message holds none: the exchange ends
    normally, the reply is shown, and nothing is stored under
    [savbes_phone], so the next page load leaves the phone input empty.  The
    script tests [message], the visitor's text, where its comment speaks of
    the reply. *)
Theorem C5_phone_in_reply_not_stored :
  test Inline.phoneRegex (lit "Звоните: +7 912 345-67-89") = true
  /\ test Inline.phoneRegex (lit "Как с вами связаться?") = false
  /\ fst (Inline.sendMessage_resume (lit "Как с вами связаться?")
            (Body (Spec.bare_reply (lit "Звоните: +7 912 345-67-89")))
            Scenario.first_visit) = Normal tt
  /\ Inline.transcript
       (Inline.doc
          (snd (Inline.sendMessage_resume (lit "Как с вами связаться?")
                  (Body (Spec.bare_reply (lit "Звоните: +7 912 345-67-89")))
                  Scenario.first_visit)))
     = Some [Some (false, lit "Здравствуйте! Чем могу помочь?");
             Some (false, lit "Звоните: +7 912 345-67-89")]
  /\ Inline.localStorage
       (snd (Inline.sendMessage_resume (lit "Как с вами связаться?")
               (Body (Spec.bare_reply (lit "Звоните: +7 912 345-67-89")))
               Scenario.first_visit)) !! Inline.storage_key = None
  /\ option_map (fun n => el_value (root n))
       (doc_find Inline.phone_input
          (Inline.doc
             (snd (Inline.on_load
                     (Inline.load
                        (Inline.localStorage
                           (snd (Inline.sendMessage_resume
                                   (lit "Как с вами связаться?")
                                   (Body (Spec.bare_reply
                                            (lit "Звоните: +7 912 345-67-89")))
                                   Scenario.first_visit)))
                        Scenario.random36)))))
     = Some [].
Proof. repeat split; vm_compute; reflexivity. Qed.

(** C6.  A message that is not blank is sent and the exchange fails, by a
    network error or in [response.json()].  In both scripts the chat then
    holds what it held, the visitor's message and one apology, in this
    order; one request has left; both handlers end normally, and no promise
    is rejected.  The apology is also the only entry added when other
    handlers ran in between ([later]). *)
Theorem C6_failed_exchange (w : Widget.state) (i : Inline.state)
    (m typed : jsstring) (input : node) (e : exn)
    (Tw : list Widget.entry) (Ti : list (option (bool * jsstring))) :
  trim m <> [] ->
  Widget.transcript (Widget.doc w) = Some Tw ->
  is_Some (getElementById Widget.user_input_id (Widget.doc w)) ->
  doc_find (has_id (lit "userInput")) (Inline.doc i) = Some input ->
  el_value (root input) = typed ->
  trim typed <> [] ->
  Inline.transcript (Inline.doc i) = Some Ti ->
  (exists w1 w2,
     Widget.sendMessage m w = (Normal tt, w1)
     /\ Widget.sendMessage_resume (Rejected e) w1 = (Normal tt, w2)
     /\ Widget.transcript (Widget.doc w2)
        = Some (Tw ++ [Widget.Message true (replace_newlines m (lit "<br>"));
                       Widget.Message false Widget.apology])
     /\ Widget.outbox w2
        = Widget.outbox w
          ++ [Widget.mkRequest Widget.apiUrl m (Widget.sessionId w)]
     /\ Widget.rejections w2 = Widget.rejections w
     /\ forall later T',
          Widget.transcript (Widget.doc later) = Some T' ->
          exists w3,
            Widget.sendMessage_resume (Rejected e) later = (Normal tt, w3)
            /\ Widget.transcript (Widget.doc w3)
               = Some (T' ++ [Widget.Message false Widget.apology])
            /\ Widget.outbox w3 = Widget.outbox later
            /\ Widget.rejections w3 = Widget.rejections later)
  /\ (exists i1 i2,
        Inline.sendMessage i = (Normal tt, i1)
        /\ Inline.sendMessage_resume (trim typed) (Rejected e) i1
           = (Normal tt, i2)
        /\ Inline.transcript (Inline.doc i2)
           = Some (Ti ++ [Some (true, trim typed);
                          Some (false, Inline.apology)])
        /\ Inline.outbox i2
           = Inline.outbox i
             ++ [(lit "/api/chat", trim typed, Inline.sessionId i)]
        /\ Inline.rejections i2 = Inline.rejections i
        /\ forall later T',
             Inline.transcript (Inline.doc later) = Some T' ->
             exists i3,
               Inline.sendMessage_resume (trim typed) (Rejected e) later
               = (Normal tt, i3)
               /\ Inline.transcript (Inline.doc i3)
                  = Some (T' ++ [Some (false, Inline.apology)])
               /\ Inline.outbox i3 = Inline.outbox later
               /\ Inline.rejections i3 = Inline.rejections later).
Proof.
  intros Hm HTw Hu Hi Hv Ht HTi. split.
  - destruct (WidgetFacts.sendMessage_sends m w Tw Hm HTw Hu)
      as (w1 & E1 & T1 & O1 & _ & R1 & _).
    destruct (WidgetFacts.resume_rejected e w1 _ T1) as (w2 & E2 & T2 & O2 & _ & R2).
    exists w1, w2. rewrite <- app_assoc in T2.
    repeat split; try assumption; try congruence.
    intros later T' HT'.
    destruct (WidgetFacts.resume_rejected e later _ HT') as (w3 & E3 & T3 & O3 & _ & R3).
    exists w3. auto.
  - subst typed.
    destruct (InlineFacts.inline_sendMessage_sends i Ti input _ Hi eq_refl Ht HTi)
      as (i1 & E1 & T1 & O1 & R1 & _).
    destruct (InlineFacts.inline_resume_rejected (trim (el_value (root input))) e i1 _ T1)
      as (i2 & E2 & T2 & O2 & R2 & _).
    exists i1, i2. rewrite <- app_assoc in T2.
    repeat split; try assumption; try congruence.
    intros later T' HT'.
    destruct (InlineFacts.inline_resume_rejected (trim (el_value (root input))) e later _ HT')
      as (i3 & E3 & T3 & O3 & R3 & _).
    exists i3. auto.
Qed.

Lemma C6_failed_exchange_witness :
  (exists w1 w2,
     Widget.sendMessage (lit "Сколько стоит розетка?") Scenario.mounted
     = (Normal tt, w1)
     /\ Widget.sendMessage_resume (Rejected NetworkError) w1 = (Normal tt, w2)
     /\ Widget.transcript (Widget.doc w2)
        = Some ([Widget.Message false Widget.welcomeMessage]
                ++ [Widget.Message true
                      (replace_newlines (lit "Сколько стоит розетка?")
                                        (lit "<br>"));
                    Widget.Message false Widget.apology])
     /\ Widget.outbox w2
        = Widget.outbox Scenario.mounted
          ++ [Widget.mkRequest Widget.apiUrl (lit "Сколько стоит розетка?")
                (Widget.sessionId Scenario.mounted)]
     /\ Widget.rejections w2 = Widget.rejections Scenario.mounted
     /\ forall later T',
          Widget.transcript (Widget.doc later) = Some T' ->
          exists w3,
            Widget.sendMessage_resume (Rejected NetworkError) later
            = (Normal tt, w3)
            /\ Widget.transcript (Widget.doc w3)
               = Some (T' ++ [Widget.Message false Widget.apology])
            /\ Widget.outbox w3 = Widget.outbox later
            /\ Widget.rejections w3 = Widget.rejections later)
  /\ (exists i1 i2,
        Inline.sendMessage (Scenario.typed (lit " Привет ")) = (Normal tt, i1)
        /\ Inline.sendMessage_resume (trim (lit " Привет "))
             (Rejected NetworkError) i1
           = (Normal tt, i2)
        /\ Inline.transcript (Inline.doc i2)
           = Some ([Some (false, lit "Здравствуйте! Чем могу помочь?")]
                   ++ [Some (true, trim (lit " Привет "));
                       Some (false, Inline.apology)])
        /\ Inline.outbox i2
           = Inline.outbox (Scenario.typed (lit " Привет "))
             ++ [(lit "/api/chat", trim (lit " Привет "),
                  Inline.sessionId (Scenario.typed (lit " Привет ")))]
        /\ Inline.rejections i2
           = Inline.rejections (Scenario.typed (lit " Привет "))
        /\ forall later T',
             Inline.transcript (Inline.doc later) = Some T' ->
             exists i3,
               Inline.sendMessage_resume (trim (lit " Привет "))
                 (Rejected NetworkError) later
               = (Normal tt, i3)
               /\ Inline.transcript (Inline.doc i3)
                  = Some (T' ++ [Some (false, Inline.apology)])
               /\ Inline.outbox i3 = Inline.outbox later
               /\ Inline.rejections i3 = Inline.rejections later).
Proof.
  apply (C6_failed_exchange Scenario.mounted (Scenario.typed (lit " Привет "))
           (lit "Сколько стоит розетка?") (lit " Привет ")
           (Node (with_value (lit " Привет ")
                    (Inline.el 34 "input" (Some "userInput") [] (Some "text")
                       None (Some "Введите ваше сообщение...") Empty)) [])
           NetworkError).
  - vm_compute. discriminate.
  - vm_compute. reflexivity.
  - vm_compute. eexists. reflexivity.
  - vm_compute. reflexivity.
  - vm_compute. reflexivity.
  - vm_compute. discriminate.
  - vm_compute. reflexivity.
Defined.

(** C7.  A text that is empty or all white space is dropped by both
    scripts: [sendMessage] of the widget, its click and Enter handlers, and
    [sendMessage] of the inline page reading such a text from [#userInput]
    leave the whole state as it was: no request, no message. *)
Theorem C7_blank_input_is_ignored (s : jsstring) (w : Widget.state)
    (i : Inline.state) (input : node) :
  forallb is_whitespace s = true ->
  doc_find (has_id (lit "userInput")) (Inline.doc i) = Some input ->
  el_value (root input) = s ->
  Widget.sendMessage s w = (Normal tt, w)
  /\ Widget.on_send s w = (Normal tt, w)
  /\ Inline.sendMessage i = (Normal tt, i).
Proof.
  intros Hs Hi Hv. pose proof (JsFacts.trim_blank s Hs) as Ht.
  split; [|split].
  - unfold Widget.sendMessage. now rewrite Ht.
  - unfold Widget.on_send. now rewrite Ht.
  - unfold Inline.sendMessage, Inline.async, bind, Inline.the_element.
    rewrite Hi, Hv, Ht. reflexivity.
Qed.

Lemma C7_blank_input_is_ignored_witness :
  Widget.sendMessage (lit "  ") Scenario.mounted
  = (Normal tt, Scenario.mounted)
  /\ Widget.on_send (lit "  ") Scenario.mounted = (Normal tt, Scenario.mounted)
  /\ Inline.sendMessage (Scenario.typed (lit "  "))
     = (Normal tt, Scenario.typed (lit "  ")).
Proof.
  apply (C7_blank_input_is_ignored (lit "  ") Scenario.mounted
           (Scenario.typed (lit "  "))
           (Node (with_value (lit "  ")
                    (Inline.el 34 "input" (Some "userInput") [] (Some "text")
                       None (Some "Введите ваше сообщение...") Empty)) [])).
  - vm_compute. reflexivity.
  - vm_compute. reflexivity.
  - vm_compute. reflexivity.
Defined.

(** C8.  [initChat] on a page without [#savbes-chat-container]: it returns
    normally after an error line and an info line on the console; the body
    of the page is what it was; the head has gained the [style] element and
    nothing else; no request, timer, alert or rejected promise. *)
Theorem C8_missing_container (st : Widget.state) (random36 : jsstring) :
  getElementById Widget.container_id (Widget.doc st) = None ->
  exists st',
    Widget.initChat random36 st = (Normal tt, st')
    /\ body (Widget.doc st') = body (Widget.doc st)
    /\ head (Widget.doc st')
       = Node (root (head (Widget.doc st)))
              (children (head (Widget.doc st))
               ++ [Widget.styles_node (Widget.fresh st)])
    /\ Widget.console st'
       = Widget.console st
         ++ [(Widget.LError,
              lit "САВБЕС чат-бот: контейнер #savbes-chat-container не найден на странице");
             (Widget.LInfo,
              lit "Добавьте <div id=" ++ [34] ++ lit "savbes-chat-container"
              ++ [34] ++ lit "></div> в нужное место на странице")]
    /\ Widget.outbox st' = Widget.outbox st
    /\ Widget.timers st' = Widget.timers st
    /\ Widget.alerts st' = Widget.alerts st
    /\ Widget.rejections st' = Widget.rejections st.
Proof.
  intros H.
  assert (getElementById Widget.container_id
            (mkDocument
               (Node (root (head (Widget.doc st)))
                     (children (head (Widget.doc st))
                      ++ [Widget.styles_node (Widget.fresh st)]))
               (body (Widget.doc st))) = None) as G.
  { unfold getElementById, doc_find in *.
    destruct (head (Widget.doc st)) as [eh kh]. simpl in *.
    destruct (has_id Widget.container_id eh); [discriminate|].
    rewrite DomFacts.first_some_app.
    destruct (first_some (find_node (has_id Widget.container_id)) kh);
      [discriminate|].
    exact H. }
  unfold Widget.initChat, bind, modify, Widget.alloc, gets.
  cbn [Widget.doc Widget.fresh Widget.set_userData Widget.set_fresh
       Widget.set_doc].
  rewrite G. unfold Widget.console_write, modify.
  eexists. split; [reflexivity|]. simpl. repeat split; auto.
  now rewrite <- app_assoc.
Qed.

Lemma C8_missing_container_witness :
  exists st',
    Widget.initChat Scenario.random36 (Scenario.start Scenario.bare_page 3)
    = (Normal tt, st')
    /\ body (Widget.doc st') = body Scenario.bare_page
    /\ head (Widget.doc st')
       = Node (root (head Scenario.bare_page))
              (children (head Scenario.bare_page) ++ [Widget.styles_node 3])
    /\ Widget.console st'
       = [] ++ [(Widget.LError,
              lit "САВБЕС чат-бот: контейнер #savbes-chat-container не найден на странице");
             (Widget.LInfo,
              lit "Добавьте <div id=" ++ [34] ++ lit "savbes-chat-container"
              ++ [34] ++ lit "></div> в нужное место на странице")]
    /\ Widget.outbox st' = []
    /\ Widget.timers st' = []
    /\ Widget.alerts st' = []
    /\ Widget.rejections st' = [].
Proof.
  apply (C8_missing_container (Scenario.start Scenario.bare_page 3)
           Scenario.random36).
  vm_compute. reflexivity.
Defined.

(** C9 fails on the code.  The widget sits inside a form of the host page and
    two contact forms are open; the visitor submits the first.  The name
    input (31) and the phone input (32) of the second form, both inside the
    widget, are empty before and hold the visitor's name and phone after,
    and [input] and [change] were dispatched on each: the loop over the
    forms of the page tests the form, not the inputs, for being inside the
    widget. *)
Theorem C9_widget_input_filled :
  Scenario.inspect 31 (Widget.doc Scenario.two_forms_open) = [(true, [])]
  /\ Scenario.inspect 32 (Widget.doc Scenario.two_forms_open) = [(true, [])]
  /\ fst (Widget.submitContactForm 19 Scenario.two_forms_open) = Normal tt
  /\ Scenario.inspect 31
       (Widget.doc (snd (Widget.submitContactForm 19 Scenario.two_forms_open)))
     = [(true, lit "Анна")]
  /\ Scenario.inspect 32
       (Widget.doc (snd (Widget.submitContactForm 19 Scenario.two_forms_open)))
     = [(true, lit "+7 912 345-67-89")]
  /\ Widget.events (snd (Widget.submitContactForm 19 Scenario.two_forms_open))
     = [(32%nat, lit "input"); (32%nat, lit "change");
        (31%nat, lit "input"); (31%nat, lit "change")].
Proof. repeat split; vm_compute; reflexivity. Qed.

(** C10.  A message of the visitor never takes the sentinel branch: it is
    shown with its line feeds replaced and nothing else changed, so a
    sentinel in it stays, and no timer is set. *)
Theorem C10_user_message_keeps_sentinel (st : Widget.state) (m : jsstring)
    (T : list Widget.entry) :
  Widget.transcript (Widget.doc st) = Some T ->
  exists st',
    Widget.addMessage (VStr m) true st = (Normal tt, st')
    /\ Widget.transcript (Widget.doc st')
       = Some (T ++ [Widget.Message true (replace_newlines m (lit "<br>"))])
    /\ Widget.timers st' = Widget.timers st
    /\ (includes m Widget.SHOW_CONTACT_FORM = true ->
        includes (replace_newlines m (lit "<br>")) Widget.SHOW_CONTACT_FORM
        = true)
    /\ (forallb (fun c => negb (c =? 10)) m = true ->
        replace_newlines m (lit "<br>") = m).
Proof.
  intros HT.
  destruct (WidgetFacts.addMessage_plain m true st T HT eq_refl)
    as (d' & E & _ & HT').
  eexists. split; [exact E|]. split; [exact HT'|]. split; [reflexivity|]. split.
  - apply JsFacts.includes_replace_newlines. reflexivity.
  - apply JsFacts.replace_newlines_id.
Qed.

Lemma C10_user_message_keeps_sentinel_witness :
  exists st',
    Widget.addMessage (VStr Scenario.doubled) true Scenario.mounted
    = (Normal tt, st')
    /\ Widget.transcript (Widget.doc st')
       = Some ([Widget.Message false Widget.welcomeMessage]
               ++ [Widget.Message true
                     (replace_newlines Scenario.doubled (lit "<br>"))])
    /\ Widget.timers st' = Widget.timers Scenario.mounted
    /\ (includes Scenario.doubled Widget.SHOW_CONTACT_FORM = true ->
        includes (replace_newlines Scenario.doubled (lit "<br>"))
                 Widget.SHOW_CONTACT_FORM = true)
    /\ (forallb (fun c => negb (c =? 10)) Scenario.doubled = true ->
        replace_newlines Scenario.doubled (lit "<br>") = Scenario.doubled).
Proof.
  apply (C10_user_message_keeps_sentinel Scenario.mounted Scenario.doubled
           [Widget.Message false Widget.welcomeMessage]).
  vm_compute. reflexivity.
Defined.

(** * Further properties of the two scripts *)

(** ** What handlers keep *)

Module FrameFacts.
Import Eff Frame.

Section Keeps.
Context {S : Type} (I : S -> S -> Prop).
Hypothesis I_refl : forall st, I st st.
Hypothesis I_trans : forall a b c, I a b -> I b c -> I a c.

Lemma keeps_ret {A} (a : A) : keeps I (ret a).
Proof. intros st. apply I_refl. Qed.

Lemma keeps_throw {A} (e : Js.exn) : keeps I (@throw S A e).
Proof. intros st. apply I_refl. Qed.

Lemma keeps_gets {A} (f : S -> A) : keeps I (gets f).
Proof. intros st. apply I_refl. Qed.

Lemma keeps_bind {A B} (m : M S A) (k : A -> M S B) :
  keeps I m -> (forall a, keeps I (k a)) -> keeps I (bind m k).
Proof.
  intros Hm Hk st. unfold bind. specialize (Hm st).
  destruct (m st) as [[a|e] st1]; simpl in *; [|exact Hm].
  exact (I_trans _ _ _ Hm (Hk a st1)).
Qed.

Lemma keeps_try_catch {A} (m : M S A) (h : Js.exn -> M S A) :
  keeps I m -> (forall e, keeps I (h e)) -> keeps I (try_catch m h).
Proof.
  intros Hm Hh st. unfold try_catch. specialize (Hm st).
  destruct (m st) as [[a|e] st1]; simpl in *; [exact Hm|].
  exact (I_trans _ _ _ Hm (Hh e st1)).
Qed.

Lemma keeps_forEach {A} (f : A -> M S unit) (l : list A) :
  (forall x, keeps I (f x)) -> keeps I (forEach f l).
Proof.
  intros Hf. induction l as [|x l IH]; simpl; [apply keeps_ret|].
  apply keeps_bind; [apply Hf | intros _; exact IH].
Qed.

Lemma keeps_modify (f : S -> S) :
  (forall st, I st (f st)) -> keeps I (modify f).
Proof. intros Hf st. apply Hf. Qed.

End Keeps.

End FrameFacts.

Module WidgetFrame.
Import Js Dom Eff Frame FrameFacts Widget Events.
#[local] Open Scope eff_scope.

Section Handlers.
Context (I : state -> state -> Prop).
Hypothesis I_refl : forall st, I st st.
Hypothesis I_trans : forall a b c, I a b -> I b c -> I a c.
Hypothesis I_doc : forall d st, I st (set_doc d st).
Hypothesis I_fresh : forall n st, I st (set_fresh n st).
Hypothesis I_timers : forall t st, I st (set_timers t st).
Hypothesis I_console : forall c st, I st (set_console c st).
Hypothesis I_alerts : forall a st, I st (set_alerts a st).
Hypothesis I_events : forall e st, I st (set_events e st).
Hypothesis I_focus : forall f st, I st (set_focus f st).
Hypothesis I_rejections : forall r st, I st (set_rejections r st).
Hypothesis I_fetch : forall m, keeps I (fetch apiUrl m).

Lemma keeps_alloc n : keeps I (alloc n).
Proof. intros st. apply I_fresh. Qed.

Lemma keeps_console_write l msg : keeps I (console_write l msg).
Proof. intros st. apply I_console. Qed.

Lemma keeps_alert msg : keeps I (alert msg).
Proof. intros st. apply I_alerts. Qed.

Lemma keeps_setTimeout cb ms : keeps I (setTimeout cb ms).
Proof. intros st. apply I_timers. Qed.

Lemma keeps_dispatchEvent u name : keeps I (dispatchEvent u name).
Proof. intros st. apply I_events. Qed.

Lemma keeps_appendChild_to i n : keeps I (appendChild_to i n).
Proof.
  intros st. unfold appendChild_to. destruct (doc_append _ _ _); simpl; auto.
Qed.

Lemma keeps_value_of i : keeps I (value_of i).
Proof.
  intros st. unfold value_of. destruct (getElementById _ _); simpl; auto.
Qed.

Lemma keeps_assign_value i v : keeps I (assign_value i v).
Proof.
  intros st. unfold assign_value. destruct (getElementById _ _); simpl; auto.
Qed.

Lemma keeps_focus_on i : keeps I (focus_on i).
Proof.
  intros st. unfold focus_on. destruct (getElementById _ _); simpl; auto.
Qed.

Lemma keeps_listen_on i : keeps I (listen_on i).
Proof.
  intros st. unfold listen_on. destruct (getElementById _ _); simpl; auto.
Qed.

Lemma keeps_async m : keeps I m -> keeps I (async m).
Proof.
  intros Hm st. unfold async. specialize (Hm st).
  destruct (m st) as [[a|e] st1]; simpl in *; [exact Hm|].
  exact (I_trans _ _ _ Hm (I_rejections _ _)).
Qed.

Lemma keeps_addMessage message isUser : keeps I (addMessage message isUser).
Proof.
  unfold addMessage. apply keeps_bind; auto using keeps_alloc. intros u.
  destruct message; try (apply keeps_throw; assumption).
  destruct (negb isUser && includes s SHOW_CONTACT_FORM).
  - apply keeps_bind; auto using keeps_appendChild_to, keeps_setTimeout.
  - apply keeps_appendChild_to.
Qed.

Lemma keeps_sendMessage message : keeps I (sendMessage message).
Proof.
  unfold sendMessage. apply keeps_async.
  destruct (is_empty (trim message)); [apply keeps_ret; assumption|].
  repeat (apply keeps_bind; auto using keeps_addMessage, keeps_assign_value;
          intros _).
Qed.

Lemma keeps_sendMessage_resume o : keeps I (sendMessage_resume o).
Proof.
  unfold sendMessage_resume. apply keeps_async. apply keeps_try_catch; auto.
  - destruct o as [e|data]; [apply keeps_throw; assumption|].
    destruct (truthy (response_of data)); [|apply keeps_addMessage].
    destruct (truthy (text_of (response_of data))); apply keeps_addMessage.
  - intros _. apply keeps_bind;
      auto using keeps_console_write, keeps_addMessage.
Qed.

Lemma keeps_on_send typed : keeps I (on_send typed).
Proof.
  unfold on_send. destruct (negb (is_empty (trim typed)));
    [apply keeps_sendMessage | apply keeps_ret; assumption].
Qed.

Lemma keeps_showContactForm : keeps I showContactForm.
Proof.
  unfold showContactForm.
  apply keeps_bind; auto using keeps_alloc. intros u.
  repeat (apply keeps_bind;
          auto using keeps_appendChild_to, keeps_focus_on, keeps_listen_on;
          intros _).
Qed.

Lemma keeps_fire_timer : keeps I fire_timer.
Proof.
  intros st. unfold fire_timer. destruct (timers st) as [|[cb ms] rest];
    [apply I_refl|].
  destruct cb. simpl.
  exact (I_trans _ _ _ (I_timers rest st)
           (keeps_showContactForm (set_timers rest st))).
Qed.

Lemma keeps_fill v u : keeps I (fill v u).
Proof.
  unfold fill.
  destruct (is_input u && type_is (lit "file") u && negb (is_empty v));
    [apply keeps_throw; assumption|].
  apply keeps_bind; auto; [apply keeps_modify; auto | intros _].
  apply keeps_bind; auto using keeps_dispatchEvent.
Qed.

Lemma keeps_fill_in_form field sel note anc form :
  keeps I (fill_in_form field sel note anc form).
Proof.
  unfold fill_in_form. destruct (provided field);
    [|apply keeps_ret; assumption].
  apply keeps_forEach; auto. intros [a input].
  apply keeps_bind; auto using keeps_fill, keeps_console_write.
Qed.

Lemma keeps_fill_loose field sel note : keeps I (fill_loose field sel note).
Proof.
  unfold fill_loose. destruct (provided field);
    [|apply keeps_ret; assumption].
  apply keeps_bind; auto using keeps_gets. intros d.
  apply keeps_forEach; auto. intros [a input].
  destruct (closest (has_class chat_block) a (root input));
    [apply keeps_ret; assumption|].
  apply keeps_bind; auto using keeps_fill, keeps_console_write.
Qed.

Lemma keeps_fillPageForms data : keeps I (fillPageForms data).
Proof.
  unfold fillPageForms. apply keeps_try_catch; auto using keeps_console_write.
  apply keeps_bind; auto using keeps_console_write. intros _.
  apply keeps_bind; auto using keeps_gets. intros d.
  apply keeps_bind; auto.
  - apply keeps_forEach; auto. intros [anc form].
    destruct (closest (has_class chat_block) anc (root form));
      [apply keeps_ret; assumption|].
    repeat (apply keeps_bind; auto using keeps_fill_in_form; intros _).
  - intros _.
    repeat (apply keeps_bind; auto using keeps_fill_loose; intros _).
Qed.

Lemma keeps_cancelContactForm formDiv : keeps I (cancelContactForm formDiv).
Proof.
  unfold cancelContactForm. apply keeps_bind; auto using keeps_sendMessage.
  apply keeps_modify. auto.
Qed.

Lemma keeps_type_into u text : keeps I (type_into u text).
Proof. apply keeps_modify. auto. Qed.

(** Every event but a submission. *)
Lemma keeps_handle_but_submit ev :
  (forall formDiv, ev <> Submitted formDiv) -> keeps I (handle ev).
Proof.
  intros Hev. destruct ev; simpl;
    auto using keeps_on_send, keeps_sendMessage_resume, keeps_fire_timer,
               keeps_cancelContactForm, keeps_type_into.
  now destruct (Hev formDiv).
Qed.

Hypothesis I_userData : forall c st, I st (set_userData c st).

Lemma keeps_submitContactForm formDiv : keeps I (submitContactForm formDiv).
Proof.
  unfold submitContactForm.
  apply keeps_bind; auto using keeps_value_of. intros name.
  apply keeps_bind; auto using keeps_value_of. intros phone.
  apply keeps_bind; auto using keeps_value_of. intros email.
  destruct (negb (is_empty phone)); [|apply keeps_alert].
  apply keeps_bind; auto; [apply keeps_modify; auto | intros _].
  apply keeps_bind; auto; [apply keeps_modify; auto | intros _].
  apply keeps_bind; auto using keeps_fillPageForms, keeps_sendMessage.
Qed.

Lemma keeps_handle ev : keeps I (handle ev).
Proof.
  destruct ev; simpl;
    auto using keeps_on_send, keeps_sendMessage_resume, keeps_fire_timer,
               keeps_cancelContactForm, keeps_type_into,
               keeps_submitContactForm.
Qed.

Lemma keeps_run_events evs st : I st (run_events evs st).
Proof.
  unfold run_events. revert st.
  induction evs as [|ev evs IH]; intros st; simpl; [apply I_refl|].
  exact (I_trans _ _ _ (keeps_handle ev st) (IH _)).
Qed.

End Handlers.

End WidgetFrame.

Module SessionFacts.
Import Js Dom Eff Frame Widget Events.

Lemma steady_same st st' :
  sessionId st' = sessionId st -> outbox st' = outbox st -> steady st st'.
Proof.
  intros Hs Ho. split; [exact Hs|]. exists []. rewrite app_nil_r. auto.
Qed.

Lemma steady_refl st : steady st st.
Proof. now apply steady_same. Qed.

Lemma steady_trans a b c : steady a b -> steady b c -> steady a c.
Proof.
  intros [Hs1 (n1 & Ho1 & F1)] [Hs2 (n2 & Ho2 & F2)]. split; [congruence|].
  exists (n1 ++ n2). split; [now rewrite Ho2, Ho1, app_assoc|].
  apply Forall_app. split; [exact F1|].
  eapply Forall_impl; [exact F2|]. intros r [Hu Hr]. split; [exact Hu|].
  congruence.
Qed.

Lemma steady_fetch m : keeps steady (fetch apiUrl m).
Proof.
  intros st. split; [reflexivity|]. eexists. split; [reflexivity|].
  constructor; [|constructor]. split; reflexivity.
Qed.

End SessionFacts.

(** ** The session of the widget *)

(** Whatever happens to the installed widget, in any order (clicks, replies
    of any shape, failed exchanges, timers, contact forms submitted or
    cancelled, fields edited), the session id stays the one [initChat] drew,
    no request is ever taken back, and every request added goes to [apiUrl]
    with that session id. *)
Theorem requests_carry_session (evs : list Events.event) (st : Widget.state) :
  Widget.sessionId (Events.run_events evs st) = Widget.sessionId st
  /\ exists new,
       Widget.outbox (Events.run_events evs st) = Widget.outbox st ++ new
       /\ Forall (fun r => Widget.rq_url r = Widget.apiUrl
                           /\ Widget.rq_session_id r = Widget.sessionId st)
                 new.
Proof.
  apply (WidgetFrame.keeps_run_events Events.steady);
    try (intros; apply SessionFacts.steady_same; reflexivity).
  - exact SessionFacts.steady_trans.
  - exact SessionFacts.steady_fetch.
Qed.

(** [userData] is written by the submission of a contact form and by
    nothing else: any other event leaves it as it was. *)
Theorem userData_changes_on_submit_only (ev : Events.event)
    (st : Widget.state) :
  (forall formDiv, ev <> Events.Submitted formDiv) ->
  Widget.userData (snd (Events.handle ev st)) = Widget.userData st.
Proof.
  intros Hev.
  apply (WidgetFrame.keeps_handle_but_submit
           (fun a b => Widget.userData b = Widget.userData a));
    try (intros; reflexivity); try exact Hev.
  - intros a b c H1 H2. congruence.
  - intros m s. reflexivity.
Qed.

Lemma userData_changes_on_submit_only_witness :
  Widget.userData
    (snd (Events.handle (Events.Cancelled 18) Scenario.contact_typed))
  = Widget.userData Scenario.contact_typed.
Proof.
  apply (userData_changes_on_submit_only (Events.Cancelled 18)
           Scenario.contact_typed).
  intros formDiv. discriminate.
Defined.

(** ** Installing the widget *)

Module InstallFacts.
Import Js Dom DomFacts DocFacts.

(** When nothing in the tree matches [q], the first match after an append
    is the first match in the subtree appended. *)
Lemma append_node_new p q n t t' :
  find_node q t = None -> append_node p n t = Some t' ->
  find_node q t' = find_node q n.
Proof.
  revert t'. induction t as [e kids IH] using node_induction.
  intros t'. simpl. destruct (q e) eqn:Q; [discriminate|]. intros Hk.
  destruct (p e).
  - intros [= <-]. simpl. rewrite Q, first_some_app, Hk. simpl.
    destruct (find_node q n); reflexivity.
  - destruct (rewrite_first (append_node p n) kids) as [kids'|] eqn:R;
      [|discriminate].
    intros [= <-]. simpl. rewrite Q.
    revert kids' R. induction IH as [|k l Hk' _ IHl]; intros kids' R;
      simpl in *; [discriminate|].
    destruct (find_node q k) eqn:Fk; [discriminate|].
    destruct (append_node p n k) as [k'|] eqn:Ek.
    + injection R as <-. simpl. rewrite (Hk' _ eq_refl eq_refl), Hk.
      destruct (find_node q n); reflexivity.
    + destruct (rewrite_first (append_node p n) l) as [l'|]; [|discriminate].
      injection R as <-. simpl. rewrite Fk. now apply IHl.
Qed.

Lemma doc_append_new p q n d d' :
  doc_find q d = None -> doc_append p n d = Some d' ->
  doc_find q d' = find_node q n.
Proof.
  unfold doc_find, doc_append.
  destruct (find_node q (head d)) eqn:H; [discriminate|]. intros B.
  destruct (append_node p n (head d)) as [h|] eqn:A.
  - intros [= <-]. simpl. rewrite (append_node_new p q n _ _ H A), B.
    destruct (find_node q n); reflexivity.
  - destruct (append_node p n (body d)) as [b|] eqn:Ab; [|discriminate].
    intros [= <-]. simpl. rewrite H. exact (append_node_new p q n _ _ B Ab).
Qed.

(** [document.head.appendChild(n)] is an append to the first element of the
    document. *)
Lemma head_append n d :
  doc_append (fun _ => true) n d
  = Some (mkDocument (Node (root (head d)) (children (head d) ++ [n]))
                     (body d)).
Proof. unfold doc_append. destruct (head d). reflexivity. Qed.

End InstallFacts.

(** [initChat] on a page that has the container and does not use the ids of
    the chat itself: it returns normally with the chat installed.  The chat
    shows the welcome message and nothing else, its input is there and
    empty, the session id is characters 2 to 14 of
    [Math.random().toString(36)], [userData] holds three nulls, one line is
    logged, and nothing is sent or scheduled. *)
Theorem initChat_installs (st : Widget.state) (random36 : jsstring) :
  is_Some (getElementById Widget.container_id (Widget.doc st)) ->
  getElementById Widget.messages_id (Widget.doc st) = None ->
  getElementById Widget.user_input_id (Widget.doc st) = None ->
  exists st',
    Widget.initChat random36 st = (Normal tt, st')
    /\ Widget.transcript (Widget.doc st')
       = Some [Widget.Message false Widget.welcomeMessage]
    /\ (exists input,
          getElementById Widget.user_input_id (Widget.doc st') = Some input
          /\ el_value (root input) = [])
    /\ Widget.sessionId st' = firstn 13 (skipn 2 random36)
    /\ Widget.userData st' = Widget.mkContact None None None
    /\ Widget.console st'
       = Widget.console st
         ++ [(Widget.LLog,
              lit "САВБЕС чат-бот успешно инициализирован в #savbes-chat-container")]
    /\ Widget.outbox st' = Widget.outbox st
    /\ Widget.timers st' = Widget.timers st
    /\ Widget.rejections st' = Widget.rejections st.
Proof.
  intros [c Hc] Hm Hu.
  set (d1 := mkDocument
               (Node (root (head (Widget.doc st)))
                     (children (head (Widget.doc st))
                      ++ [Widget.styles_node (Widget.fresh st)]))
               (body (Widget.doc st))).
  pose proof (InstallFacts.head_append (Widget.styles_node (Widget.fresh st))
                (Widget.doc st)) as A1. fold d1 in A1.
  assert (forall i, option_map root (getElementById i d1)
                    = option_map root (getElementById i (Widget.doc st))) as K.
  { intros i.
    exact (DocFacts.doc_append_other _ (has_id i)
             (Widget.styles_node (Widget.fresh st)) _ _ eq_refl A1). }
  assert (exists e kids, getElementById Widget.container_id d1 = Some (Node e kids))
    as (e & kids & Hc1).
  { specialize (K Widget.container_id). rewrite Hc in K.
    destruct (getElementById Widget.container_id d1) as [[e kids]|];
      [eauto | discriminate]. }
  assert (getElementById Widget.messages_id d1 = None) as Hm1.
  { specialize (K Widget.messages_id). rewrite Hm in K.
    destruct (getElementById Widget.messages_id d1); [discriminate | reflexivity]. }
  assert (getElementById Widget.user_input_id d1 = None) as Hu1.
  { specialize (K Widget.user_input_id). rewrite Hu in K.
    destruct (getElementById Widget.user_input_id d1); [discriminate | reflexivity]. }
  destruct (DocFacts.doc_append_found _
              (Widget.chat_node (Widget.fresh st + 1)) _ _ _ Hc1)
    as (d2 & A2 & _).
  pose proof (InstallFacts.doc_append_new _ _ _ _ _ Hm1 A2) as M2.
  pose proof (InstallFacts.doc_append_new _ _ _ _ _ Hu1 A2) as U2.
  unfold Widget.initChat, bind, modify, Widget.alloc, gets.
  cbn [Widget.doc Widget.fresh Widget.set_userData Widget.set_fresh
       Widget.set_doc].
  fold d1. rewrite Hc1. unfold Widget.appendChild_to.
  cbn [Widget.doc Widget.fresh Widget.set_userData Widget.set_fresh
       Widget.set_doc].
  rewrite A2. unfold Widget.console_write, modify.
  eexists. split; [reflexivity|]. simpl.
  split; [unfold Widget.transcript, getElementById in *; rewrite M2; reflexivity|].
  split; [unfold getElementById in *; rewrite U2; eexists; split; reflexivity|].
  repeat split; reflexivity.
Qed.

Lemma initChat_installs_witness :
  exists st',
    Widget.initChat Scenario.random36 (Scenario.start Scenario.host_page 3)
    = (Normal tt, st')
    /\ Widget.transcript (Widget.doc st')
       = Some [Widget.Message false Widget.welcomeMessage]
    /\ (exists input,
          getElementById Widget.user_input_id (Widget.doc st') = Some input
          /\ el_value (root input) = [])
    /\ Widget.sessionId st' = firstn 13 (skipn 2 Scenario.random36)
    /\ Widget.userData st' = Widget.mkContact None None None
    /\ Widget.console st'
       = Widget.console (Scenario.start Scenario.host_page 3)
         ++ [(Widget.LLog,
              lit "САВБЕС чат-бот успешно инициализирован в #savbes-chat-container")]
    /\ Widget.outbox st' = Widget.outbox (Scenario.start Scenario.host_page 3)
    /\ Widget.timers st' = Widget.timers (Scenario.start Scenario.host_page 3)
    /\ Widget.rejections st'
       = Widget.rejections (Scenario.start Scenario.host_page 3).
Proof.
  apply (initChat_installs (Scenario.start Scenario.host_page 3)
           Scenario.random36).
  - vm_compute. eexists. reflexivity.
  - vm_compute. reflexivity.
  - vm_compute. reflexivity.
Defined.

(** ** Sending and answering *)

Module TrimFacts.
Import Js.

Lemma trimStart_idem s : trimStart (trimStart s) = trimStart s.
Proof.
  induction s as [|c s IH]; simpl; [reflexivity|].
  destruct (is_whitespace c) eqn:E; [exact IH|]. simpl. now rewrite E.
Qed.

Lemma trimStart_head s c r : trimStart s = c :: r -> is_whitespace c = false.
Proof.
  induction s as [|x s IH]; simpl; [discriminate|].
  destruct (is_whitespace x) eqn:E; [exact IH|]. now intros [= <- _].
Qed.

Lemma trimStart_stable c r : is_whitespace c = false -> trimStart (c :: r) = c :: r.
Proof. intros E. simpl. now rewrite E. Qed.

Lemma trimStart_suffix s : exists p, s = p ++ trimStart s.
Proof.
  induction s as [|c s [p IH]]; simpl; [now exists []|].
  destruct (is_whitespace c); [|now exists []].
  exists (c :: p). simpl. now rewrite <- IH.
Qed.

(** Trimming twice is trimming once. *)
Lemma trim_idem s : trim (trim s) = trim s.
Proof.
  unfold trim, trimEnd.
  set (t := trimStart s). set (u := trimStart (rev t)).
  assert (trimStart (rev u) = rev u) as ->.
  { destruct (rev u) as [|x w] eqn:Eu; [reflexivity|].
    apply trimStart_stable.
    destruct (trimStart_suffix (rev t)) as [p Hp]. fold u in Hp.
    apply (f_equal (@rev N)) in Hp. rewrite rev_involutive, rev_app_distr, Eu in Hp.
    simpl in Hp. exact (trimStart_head s x _ Hp). }
  rewrite rev_involutive. unfold u. now rewrite trimStart_idem.
Qed.

End TrimFacts.

Module ChatFacts.
Import Js Dom Eff Widget JsFacts DomFacts DocFacts WidgetFacts.

(** A string handed to [addMessage] as a reply adds one message of the
    assistant, whichever branch it takes. *)
Lemma addMessage_reply m st T :
  transcript (doc st) = Some T ->
  exists h st',
    addMessage (VStr m) false st = (Normal tt, st')
    /\ transcript (doc st') = Some (T ++ [Message false h])
    /\ outbox st' = outbox st
    /\ rejections st' = rejections st
    /\ console st' = console st.
Proof.
  intros HT. destruct (includes m SHOW_CONTACT_FORM) eqn:Hs.
  - destruct (addMessage_sentinel m st T HT Hs) as (d' & E & _ & HT').
    eexists. eexists. split; [exact E|]. simpl.
    repeat split; try reflexivity. exact HT'.
  - destruct (addMessage_plain m false st T HT) as (d' & E & _ & HT');
      [now rewrite Hs|].
    eexists. eexists. split; [exact E|]. simpl.
    repeat split; try reflexivity. exact HT'.
Qed.

(** The catch block of [sendMessage] after a throw that left the document
    as it was. *)
Lemma catch_block st T :
  transcript (doc st) = Some T ->
  exists st',
    (console_write LError (lit "Error:") ;; addMessage (VStr apology) false)%eff st
    = (Normal tt, st')
    /\ transcript (doc st') = Some (T ++ [Message false apology])
    /\ outbox st' = outbox st
    /\ rejections st' = rejections st
    /\ console st' = console st ++ [(LError, lit "Error:")].
Proof.
  intros HT. unfold bind, console_write, modify.
  destruct (addMessage_plain apology false
              (set_console (console st ++ [(LError, lit "Error:")]) st) T HT
              eq_refl) as (d' & E & _ & HT').
  rewrite E. eexists. split; [reflexivity|]. simpl. repeat split; auto.
Qed.

End ChatFacts.

(** The click on the send button, or Enter, while the text input of the
    chat holds a text that is not blank and in which no tag opens: the text
    is sent trimmed.  The chat gains the trimmed text as a message of the
    visitor, one request carries it with the session id, and that same input
    is emptied.  A text with a tag is left out: its markup can bring an
    element that carries the id of the input and comes before it, and
    [sendMessage] empties what the lookup by id finds. *)
Theorem click_sends_trimmed (st : Widget.state) (input : node)
    (T : list Widget.entry) :
  getElementById Widget.user_input_id (Widget.doc st) = Some input ->
  trim (el_value (root input)) <> [] ->
  Widget.no_tag (trim (el_value (root input))) = true ->
  Widget.transcript (Widget.doc st) = Some T ->
  exists st' input',
    Widget.on_send (el_value (root input)) st = (Normal tt, st')
    /\ Widget.transcript (Widget.doc st')
       = Some (T ++ [Widget.Message true
                       (replace_newlines (trim (el_value (root input)))
                                         (lit "<br>"))])
    /\ Widget.outbox st'
       = Widget.outbox st
         ++ [Widget.mkRequest Widget.apiUrl (trim (el_value (root input)))
               (Widget.sessionId st)]
    /\ getElementById Widget.user_input_id (Widget.doc st') = Some input'
    /\ el_uid (root input') = el_uid (root input)
    /\ el_value (root input') = []
    /\ Widget.rejections st' = Widget.rejections st.
Proof.
  intros Hx Ht _ HT. set (typed := el_value (root input)) in *.
  assert (is_Some (getElementById Widget.user_input_id (Widget.doc st))) as Hu
      by (rewrite Hx; eauto).
  assert (trim (trim typed) <> []) as Ht2 by now rewrite TrimFacts.trim_idem.
  destruct (WidgetFacts.sendMessage_sends (trim typed) st T Ht2 HT Hu)
    as (st' & E & HT' & O & _ & R & _ & _ & u & d' & A & D).
  assert (exists y, getElementById Widget.user_input_id d' = Some y
                    /\ root y = root input) as (y & Hy & Ry).
  { pose proof (DocFacts.doc_append_other _ (has_id Widget.user_input_id) _ _ _
                  (WidgetFacts.message_node_no_id _ _ _ _) A) as K.
    unfold getElementById in *. rewrite Hx in K.
    destruct (doc_find (has_id Widget.user_input_id) d') as [y|];
      [|discriminate]. injection K as K. eauto. }
  assert (getElementById Widget.user_input_id (Widget.doc st')
          = Some (map_node (fun e => if Nat.eqb (el_uid e) (el_uid (root y))
                                     then with_value [] e else e) y)) as G.
  { revert E. unfold Widget.sendMessage, Widget.async, bind.
    destruct (trim (trim typed)) eqn:Et; [contradiction|].
    cbv beta iota delta [is_empty].
    destruct (WidgetFacts.addMessage_plain (trim typed) true st T HT eq_refl)
      as (d'' & E' & A' & _).
    rewrite A in A'. injection A' as <-. rewrite E'.
    unfold Widget.assign_value. simpl Widget.doc. rewrite Hy.
    unfold Widget.fetch, modify. intros [= <-]. simpl. unfold set_value.
    rewrite DocFacts.getElementById_map by apply DocFacts.value_edit_set.
    now rewrite Hy. }
  assert (Widget.on_send typed st = Widget.sendMessage (trim typed) st) as ->.
  { unfold Widget.on_send. destruct (trim typed); [contradiction | reflexivity]. }
  exists st'. eexists.
  split; [exact E|]. split; [exact HT'|]. split; [exact O|].
  split; [exact G|]. rewrite <- Ry.
  destruct y as [ey ky]. simpl. rewrite Nat.eqb_refl. auto.
Qed.

Lemma click_sends_trimmed_witness :
  exists st' input',
    Widget.on_send (el_value (root Visit.request_input)) Visit.request_typed
    = (Normal tt, st')
    /\ Widget.transcript (Widget.doc st')
       = Some ([Widget.Message false Widget.welcomeMessage]
               ++ [Widget.Message true
                     (replace_newlines
                        (trim (el_value (root Visit.request_input)))
                        (lit "<br>"))])
    /\ Widget.outbox st'
       = Widget.outbox Visit.request_typed
         ++ [Widget.mkRequest Widget.apiUrl
               (trim (el_value (root Visit.request_input)))
               (Widget.sessionId Visit.request_typed)]
    /\ getElementById Widget.user_input_id (Widget.doc st') = Some input'
    /\ el_uid (root input') = el_uid (root Visit.request_input)
    /\ el_value (root input') = []
    /\ Widget.rejections st' = Widget.rejections Visit.request_typed.
Proof.
  apply (click_sends_trimmed Visit.request_typed Visit.request_input
           [Widget.Message false Widget.welcomeMessage]).
  - vm_compute. reflexivity.
  - vm_compute. discriminate.
  - vm_compute. reflexivity.
  - vm_compute. reflexivity.
Defined.

Module ReplyFacts.
Import Js Dom Eff Widget WidgetFacts ChatFacts.

(** What [sendMessage] hands to [addMessage] for a body whose [response]
    is truthy. *)
Lemma resume_of_value data st :
  truthy (response_of data) = true ->
  sendMessage_resume (Body data) st
  = async (try_catch
             (addMessage (if truthy (text_of (response_of data))
                          then text_of (response_of data)
                          else response_of data) false)
             (fun _ => bind (console_write LError (lit "Error:"))
                            (fun _ => addMessage (VStr apology) false))) st.
Proof.
  intros Hr. unfold sendMessage_resume. rewrite Hr.
  now destruct (truthy (text_of (response_of data))).
Qed.

(** [addMessage] in the try block, for a string and for anything else. *)
Lemma shown_or_apology v st T :
  transcript (doc st) = Some T ->
  exists h st',
    async (try_catch (addMessage v false)
             (fun _ => bind (console_write LError (lit "Error:"))
                            (fun _ => addMessage (VStr apology) false))) st
    = (Normal tt, st')
    /\ transcript (doc st') = Some (T ++ [Message false h])
    /\ outbox st' = outbox st
    /\ rejections st' = rejections st
    /\ ((forall m, v <> VStr m) ->
        h = apology
        /\ console st' = console st ++ [(LError, lit "Error:")]).
Proof.
  intros HT. unfold async, try_catch.
  destruct v as [| |b|r|m|items|fields].
  5: { destruct (addMessage_reply m st T HT) as (h & st' & E & HT' & O & R & _).
       rewrite E. exists h, st'. repeat split; try assumption.
       all: now destruct (H m). }
  all: rewrite addMessage_not_string by discriminate.
  all: destruct (catch_block (set_fresh (fresh st + 1) st) T HT)
         as (st' & E & HT' & O & R & C).
  all: rewrite E; exists apology, st'; repeat split; assumption.
Qed.

End ReplyFacts.

(** Every end of an exchange adds exactly one message of the assistant to
    the chat: a failed request, a body that is not JSON, and a JSON body of
    any shape alike.  The handler ends normally, no promise is rejected and
    nothing is sent. *)
Theorem every_reply_is_answered (o : outcome) (st : Widget.state)
    (T : list Widget.entry) :
  Widget.transcript (Widget.doc st) = Some T ->
  exists h st',
    Widget.sendMessage_resume o st = (Normal tt, st')
    /\ Widget.transcript (Widget.doc st') = Some (T ++ [Widget.Message false h])
    /\ Widget.outbox st' = Widget.outbox st
    /\ Widget.rejections st' = Widget.rejections st.
Proof.
  intros HT. destruct o as [e|data].
  - destruct (WidgetFacts.resume_rejected e st T HT) as (st' & E & HT' & O & _ & R).
    exists Widget.apology, st'. auto.
  - destruct (truthy (Widget.response_of data)) eqn:Hr.
    + rewrite (ReplyFacts.resume_of_value data st Hr).
      destruct (ReplyFacts.shown_or_apology
                  (if truthy (Widget.text_of (Widget.response_of data))
                   then Widget.text_of (Widget.response_of data)
                   else Widget.response_of data) st T HT)
        as (h & st' & E & HT' & O & R & _).
      exists h, st'. auto.
    + unfold Widget.sendMessage_resume. rewrite Hr.
      destruct (ReplyFacts.shown_or_apology (VStr Widget.bad_reply_message) st T HT)
        as (h & st' & E & HT' & O & R & _).
      exists h, st'. auto.
Qed.

Lemma every_reply_is_answered_witness :
  exists h st',
    Widget.sendMessage_resume (Body (VArr [VNum (lit "1")])) Scenario.mounted
    = (Normal tt, st')
    /\ Widget.transcript (Widget.doc st')
       = Some ([Widget.Message false Widget.welcomeMessage]
               ++ [Widget.Message false h])
    /\ Widget.outbox st' = Widget.outbox Scenario.mounted
    /\ Widget.rejections st' = Widget.rejections Scenario.mounted.
Proof.
  apply (every_reply_is_answered (Body (VArr [VNum (lit "1")]))
           Scenario.mounted [Widget.Message false Widget.welcomeMessage]).
  vm_compute. reflexivity.
Defined.

(** A JSON body for which [data && data.response] is falsy (the body is
    [null], [false], [0] or an empty string, it has no [response], or its
    [response] is one of those) is answered with the fixed text for a bad
    reply, and nothing is logged. *)
Theorem reply_without_response (data : value) (st : Widget.state)
    (T : list Widget.entry) :
  truthy (Widget.response_of data) = false ->
  Widget.transcript (Widget.doc st) = Some T ->
  exists st',
    Widget.sendMessage_resume (Body data) st = (Normal tt, st')
    /\ Widget.transcript (Widget.doc st')
       = Some (T ++ [Widget.Message false Widget.bad_reply_message])
    /\ Widget.console st' = Widget.console st
    /\ Widget.timers st' = Widget.timers st.
Proof.
  intros Hr HT. unfold Widget.sendMessage_resume, Widget.async, try_catch.
  rewrite Hr.
  destruct (WidgetFacts.addMessage_plain Widget.bad_reply_message false st T HT
              eq_refl) as (d' & E & _ & HT').
  rewrite E. eexists. split; [reflexivity|]. simpl. auto.
Qed.

Lemma reply_without_response_witness :
  exists st',
    Widget.sendMessage_resume (Body (VObj {[ lit "answer" := VStr (lit "Да") ]}))
      Scenario.mounted = (Normal tt, st')
    /\ Widget.transcript (Widget.doc st')
       = Some ([Widget.Message false Widget.welcomeMessage]
               ++ [Widget.Message false Widget.bad_reply_message])
    /\ Widget.console st' = Widget.console Scenario.mounted
    /\ Widget.timers st' = Widget.timers Scenario.mounted.
Proof.
  apply (reply_without_response (VObj {[ lit "answer" := VStr (lit "Да") ]})
           Scenario.mounted [Widget.Message false Widget.welcomeMessage]).
  - vm_compute. reflexivity.
  - vm_compute. reflexivity.
Defined.

(** A JSON body whose [response] is truthy but gives [addMessage] no string
    (a number, [true], an array, an object without a truthy [text], or a
    [text] that is not a string) makes [message.replace] throw; the catch
    block logs the error and shows the apology. *)
Theorem reply_of_wrong_type (data : value) (st : Widget.state)
    (T : list Widget.entry) :
  truthy (Widget.response_of data) = true ->
  (forall m,
     (if truthy (Widget.text_of (Widget.response_of data))
      then Widget.text_of (Widget.response_of data)
      else Widget.response_of data) <> VStr m) ->
  Widget.transcript (Widget.doc st) = Some T ->
  exists st',
    Widget.sendMessage_resume (Body data) st = (Normal tt, st')
    /\ Widget.transcript (Widget.doc st')
       = Some (T ++ [Widget.Message false Widget.apology])
    /\ Widget.console st'
       = Widget.console st ++ [(Widget.LError, lit "Error:")]
    /\ Widget.rejections st' = Widget.rejections st.
Proof.
  intros Hr Hv HT. rewrite (ReplyFacts.resume_of_value data st Hr).
  destruct (ReplyFacts.shown_or_apology
              (if truthy (Widget.text_of (Widget.response_of data))
               then Widget.text_of (Widget.response_of data)
               else Widget.response_of data) st T HT)
    as (h & st' & E & HT' & _ & R & A).
  destruct (A Hv) as [-> C]. exists st'. auto.
Qed.

Lemma reply_of_wrong_type_witness :
  exists st',
    Widget.sendMessage_resume
      (Body (VObj {[ lit "response" := VObj {[ lit "text" := VStr [] ]} ]}))
      Scenario.mounted = (Normal tt, st')
    /\ Widget.transcript (Widget.doc st')
       = Some ([Widget.Message false Widget.welcomeMessage]
               ++ [Widget.Message false Widget.apology])
    /\ Widget.console st'
       = Widget.console Scenario.mounted ++ [(Widget.LError, lit "Error:")]
    /\ Widget.rejections st' = Widget.rejections Scenario.mounted.
Proof.
  apply (reply_of_wrong_type
           (VObj {[ lit "response" := VObj {[ lit "text" := VStr [] ]} ]})
           Scenario.mounted [Widget.Message false Widget.welcomeMessage]).
  - vm_compute. reflexivity.
  - intros m. vm_compute. discriminate.
  - vm_compute. reflexivity.
Defined.

(** The cancel button of a contact form removes that form and sends the
    fixed refusal as a message of the visitor: it is shown, one request
    leaves with it, and nothing is recorded of the visitor. *)
Theorem cancel_removes_and_refuses (st : Widget.state) (formDiv : nat)
    (T : list Widget.entry) :
  (formDiv < Widget.fresh st)%nat ->
  Widget.transcript (doc_remove formDiv (Widget.doc st)) = Some T ->
  is_Some (getElementById Widget.user_input_id
             (doc_remove formDiv (Widget.doc st))) ->
  exists st',
    Widget.cancelContactForm formDiv st = (Normal tt, st')
    /\ attached formDiv (Widget.doc st') = false
    /\ Widget.transcript (Widget.doc st')
       = Some (T ++ [Widget.Message true Widget.refusal])
    /\ Widget.outbox st'
       = Widget.outbox st
         ++ [Widget.mkRequest Widget.apiUrl Widget.refusal (Widget.sessionId st)]
    /\ Widget.userData st' = Widget.userData st
    /\ Widget.alerts st' = Widget.alerts st
    /\ Widget.timers st' = Widget.timers st
    /\ Widget.rejections st' = Widget.rejections st.
Proof.
  intros Hold HT Hu. unfold Widget.cancelContactForm, bind, modify.
  set (st2 := Widget.set_doc (doc_remove formDiv (Widget.doc st)) st).
  assert (trim Widget.refusal <> []) as Hr by (vm_compute; discriminate).
  destruct (WidgetFacts.sendMessage_sends Widget.refusal st2 T Hr HT Hu)
    as (st' & E & HT' & O & Ti & R & U & A & u & d' & Ap & D).
  exists st'. split; [exact E|]. split.
  { assert (occurs formDiv
              (Widget.message_node (Widget.fresh st2) true
                 (replace_newlines Widget.refusal (lit "<br>"))) = false)
      as Hocc.
    { simpl. rewrite orb_false_r. apply Nat.eqb_neq. lia. }
    rewrite D. unfold set_value.
    rewrite FillFacts.attached_map by apply DocFacts.value_edit_set.
    rewrite (FillFacts.attached_append formDiv _ _ _ _ Hocc Ap).
    subst st2. simpl Widget.doc. apply FillFacts.attached_remove. }
  repeat split; assumption.
Qed.

Lemma cancel_removes_and_refuses_witness :
  exists st',
    Widget.cancelContactForm 18 Scenario.form_open = (Normal tt, st')
    /\ attached 18 (Widget.doc st') = false
    /\ Widget.transcript (Widget.doc st')
       = Some ([Widget.Message false Widget.welcomeMessage;
                Widget.Message true Scenario.first_question;
                Widget.Message false (lit "Оставьте телефон, мы перезвоним.")]
               ++ [Widget.Message true Widget.refusal])
    /\ Widget.outbox st'
       = Widget.outbox Scenario.form_open
         ++ [Widget.mkRequest Widget.apiUrl Widget.refusal
               (Widget.sessionId Scenario.form_open)]
    /\ Widget.userData st' = Widget.userData Scenario.form_open
    /\ Widget.alerts st' = Widget.alerts Scenario.form_open
    /\ Widget.timers st' = Widget.timers Scenario.form_open
    /\ Widget.rejections st' = Widget.rejections Scenario.form_open.
Proof.
  apply (cancel_removes_and_refuses Scenario.form_open 18).
  - vm_compute. lia.
  - vm_compute. reflexivity.
  - vm_compute. eexists. reflexivity.
Defined.



(** ** Which elements [fillPageForms] writes to *)

Module SpareFacts.
Import Js Dom Eff Widget Events DomFacts DocFacts FillFacts.

Lemma root_map f n : root (map_node f n) = f (root n).
Proof. now destruct n. Qed.

Lemma has_class_value_edit c f e :
  value_edit f -> has_class c (f e) = has_class c e.
Proof. intros Hf. destruct (Hf e) as [v ->]. reflexivity. Qed.

Lemma has_tag_value_edit t f e : value_edit f -> has_tag t (f e) = has_tag t e.
Proof. intros Hf. destruct (Hf e) as [v ->]. reflexivity. Qed.

Lemma el_uid_value_edit f e : value_edit f -> el_uid (f e) = el_uid e.
Proof. intros Hf. destruct (Hf e) as [v ->]. reflexivity. Qed.

Lemma closest_map c f a e :
  value_edit f ->
  closest (has_class c) (List.map f a) (f e) = closest (has_class c) a e.
Proof.
  intros Hf. unfold closest. simpl. rewrite has_class_value_edit by exact Hf.
  f_equal. induction a as [|x a IH]; simpl; [reflexivity|].
  now rewrite has_class_value_edit, IH.
Qed.

Lemma not_in_form_map f a :
  value_edit f -> not_in_form (List.map f a) = not_in_form a.
Proof.
  intros Hf. unfold not_in_form. induction a as [|x a IH]; simpl; [reflexivity|].
  now rewrite has_tag_value_edit, IH.
Qed.

(** The walk of an edited tree is the walk of the tree, edited. *)
Lemma walk_map f anc t :
  walk (List.map f anc) (map_node f t)
  = List.map (fun x => (List.map f (fst x), map_node f (snd x))) (walk anc t).
Proof.
  revert anc. induction t as [e kids IH] using node_induction. intros anc.
  simpl. f_equal.
  induction IH as [|k l Hk _ IHl]; simpl; [reflexivity|].
  rewrite List.map_app, <- IHl. f_equal. exact (Hk (e :: anc)).
Qed.

Lemma doc_walk_map f d :
  doc_walk (doc_map f d)
  = List.map (fun x => (List.map f (fst x), map_node f (snd x))) (doc_walk d).
Proof.
  unfold doc_walk, doc_map. simpl.
  pose proof (walk_map f [] (head d)) as Hh.
  pose proof (walk_map f [] (body d)) as Hb.
  change (List.map f []) with (@nil element) in Hh, Hb.
  now rewrite Hh, Hb, <- List.map_app.
Qed.

Lemma in_doc_walk_map f d a' n' :
  In (a', n') (doc_walk (doc_map f d)) ->
  exists a n, In (a, n) (doc_walk d) /\ a' = List.map f a /\ n' = map_node f n.
Proof.
  rewrite doc_walk_map, in_map_iff.
  intros ([a n] & [= <- <-] & Hin). exists a, n. auto.
Qed.

Lemma outside_filled d d1 u : filled d d1 -> outside d1 u -> outside d u.
Proof.
  intros (f & [Hf _] & ->) (a' & n' & Hin & Hu & Hc).
  destruct (in_doc_walk_map _ _ _ _ Hin) as (a & n & Hin' & -> & ->).
  exists a, n. split; [exact Hin'|].
  rewrite root_map in Hu, Hc. rewrite closest_map in Hc by exact Hf.
  rewrite el_uid_value_edit in Hu by exact Hf. auto.
Qed.

Lemma widget_outside_forms_filled d d1 :
  filled d d1 -> widget_outside_forms d = true ->
  widget_outside_forms d1 = true.
Proof.
  intros (f & [Hf _] & ->). unfold widget_outside_forms.
  rewrite !forallb_forall. intros H [a' n'] Hin.
  destruct (in_doc_walk_map _ _ _ _ Hin) as (a & n & Hin' & -> & ->).
  specialize (H _ Hin'). simpl in H.
  now rewrite root_map, has_class_value_edit, not_in_form_map.
Qed.

(** What lies below a node of a walk is in the walk. *)
Lemma walk_sub anc t anc0 t0 k x :
  In (anc, t) (walk anc0 t0) -> In k (children t) ->
  In x (walk (root t :: anc) k) -> In x (walk anc0 t0).
Proof.
  revert anc0. induction t0 as [e kids IH] using node_induction.
  intros anc0 Hin Hk Hx. simpl in Hin. destruct Hin as [Heq|Hin].
  - injection Heq as <- <-. simpl in *. right. apply in_flat_map. eauto.
  - apply in_flat_map in Hin. destruct Hin as (k0 & Hk0 & Hin).
    rewrite List.Forall_forall in IH.
    simpl. right. apply in_flat_map. exists k0. split; [exact Hk0|].
    exact (IH k0 Hk0 (e :: anc0) Hin Hk Hx).
Qed.

Lemma doc_walk_sub anc t d k x :
  In (anc, t) (doc_walk d) -> In k (children t) ->
  In x (walk (root t :: anc) k) -> In x (doc_walk d).
Proof.
  unfold doc_walk. rewrite !in_app_iff. intros [H|H] Hk Hx;
    [left | right]; exact (walk_sub _ _ _ _ _ _ H Hk Hx).
Qed.

(** Below a form that is outside the widget, on a page whose widget is in
    no form, nothing is inside the widget. *)
Lemma below_form_outside anc t :
  not_in_form anc = false ->
  existsb (has_class chat_block) anc = false ->
  (forall a n, In (a, n) (walk anc t) ->
               has_class chat_block (root n) = true -> not_in_form a = true) ->
  forall a n, In (a, n) (walk anc t) ->
              closest (has_class chat_block) a (root n) = false.
Proof.
  revert anc. induction t as [e kids IH] using node_induction.
  intros anc Hf Hc H a n Hin.
  assert (has_class chat_block e = false) as He.
  { destruct (has_class chat_block e) eqn:C; [|reflexivity].
    rewrite (H anc (Node e kids)) in Hf; [discriminate | now left | exact C]. }
  simpl in Hin. destruct Hin as [Heq|Hin].
  - injection Heq as <- <-. unfold closest. simpl. now rewrite He, Hc.
  - apply in_flat_map in Hin. destruct Hin as (k0 & Hk0 & Hin).
    rewrite List.Forall_forall in IH.
    apply (IH k0 Hk0 (e :: anc)); [| | |exact Hin].
    + simpl. rewrite Hf. apply andb_false_r.
    + simpl. now rewrite He, Hc.
    + intros a1 n1 Hin1. apply H. simpl. right. apply in_flat_map. eauto.
Qed.

(** A node inside the widget lies inside it with all it holds: a change
    that leaves the elements inside the widget alone leaves the node as it
    is. *)
Lemma inside_node_fixed f anc n :
  (forall a k, In (a, k) (walk anc n) ->
               closest (has_class chat_block) a (root k) = true ->
               f (root k) = root k) ->
  closest (has_class chat_block) anc (root n) = true ->
  map_node f n = n.
Proof.
  revert anc. induction n as [e kids IH] using node_induction.
  intros anc H C. simpl.
  pose proof (H anc (Node e kids) (or_introl eq_refl) C) as He.
  simpl in He. rewrite He. f_equal.
  rewrite List.Forall_forall in IH.
  rewrite <- (List.map_id kids) at 2. apply List.map_ext_in. intros k Hk.
  apply (IH k Hk (e :: anc)).
  - intros a k0 Hin. apply H. simpl. right. apply in_flat_map. eauto.
  - unfold closest in *. simpl in *. rewrite C. apply orb_true_r.
Qed.

(** Different objects are told apart by their identities. *)
Lemma distinct_inj {A} (g : A -> nat) (l : list A) x y :
  distinct (List.map g l) = true -> In x l -> In y l -> g x = g y -> x = y.
Proof.
  induction l as [|z l IH]; simpl; [intros _ []|].
  rewrite andb_true_iff, negb_true_iff. intros [Hz Hd] Hx Hy E.
  assert (forall w, In w l -> g w = g z -> False) as Hno.
  { intros w Hw Ew.
    assert (existsb (Nat.eqb (g z)) (List.map g l) = true) as X; [|congruence].
    apply existsb_exists. exists (g w).
    split; [now apply in_map | rewrite Ew; apply Nat.eqb_refl]. }
  destruct Hx as [<-|Hx], Hy as [<-|Hy].
  - reflexivity.
  - destruct (Hno y Hy (eq_sym E)).
  - destruct (Hno x Hx E).
  - now apply IH.
Qed.

Section Spares.
Variable d : document.
Hypothesis Hd : distinct_uids d = true.

Lemma filled_refl : filled d d.
Proof.
  exists (fun e => e). split; [|now rewrite doc_map_id].
  split; [apply value_edit_id | reflexivity].
Qed.

(** Writing into an element outside the widget leaves those inside it
    alone. *)
Lemma filled_set_value d1 u v :
  filled d d1 -> outside d u -> filled d (set_value u v d1).
Proof.
  intros (f & [Hf Hk] & ->) (a0 & n0 & Hin0 & Hu0 & Hc0).
  unfold set_value. rewrite doc_map_compose.
  exists (fun e => if Nat.eqb (el_uid (f e)) u then with_value v (f e) else f e).
  split; [|reflexivity]. split.
  - exact (value_edit_compose f _ Hf (value_edit_set u v)).
  - intros anc n Hin Hc. rewrite (Hk _ _ Hin Hc).
    destruct (Nat.eqb (el_uid (root n)) u) eqn:E; [|reflexivity].
    apply Nat.eqb_eq in E. exfalso.
    assert ((anc, n) = (a0, n0)) as X.
    { apply (distinct_inj (fun x => el_uid (root (snd x))) (doc_walk d));
        [exact Hd | exact Hin | exact Hin0 | simpl; congruence]. }
    injection X as -> ->. congruence.
Qed.

Lemma spares_ret {A} (a : A) : spares d (ret a).
Proof. intros st F. exists []. simpl. rewrite app_nil_r. auto. Qed.

Lemma spares_throw {A} (e : exn) : spares d (@throw state A e).
Proof. intros st F. exists []. simpl. rewrite app_nil_r. auto. Qed.

Lemma spares_bind {A B} (m : W A) (k : A -> W B) :
  spares d m -> (forall a, spares d (k a)) -> spares d (bind m k).
Proof.
  intros Hm Hk st F. destruct (Hm st F) as (n1 & F1 & E1 & Q1). unfold bind.
  destruct (m st) as [[a|e] st1]; simpl in *; [|eauto].
  destruct (Hk a st1 F1) as (n2 & F2 & E2 & Q2).
  exists (n1 ++ n2). rewrite E2, E1, app_assoc.
  split; [exact F2|]. split; [reflexivity|]. apply Forall_app. auto.
Qed.

Lemma spares_try_catch {A} (m : W A) (h : exn -> W A) :
  spares d m -> (forall e, spares d (h e)) -> spares d (try_catch m h).
Proof.
  intros Hm Hh st F. destruct (Hm st F) as (n1 & F1 & E1 & Q1).
  unfold try_catch.
  destruct (m st) as [[a|e] st1]; simpl in *; [eauto|].
  destruct (Hh e st1 F1) as (n2 & F2 & E2 & Q2).
  exists (n1 ++ n2). rewrite E2, E1, app_assoc.
  split; [exact F2|]. split; [reflexivity|]. apply Forall_app. auto.
Qed.

(** A handler that reads the document first. *)
Lemma spares_reading {B} (k : document -> W B) :
  (forall d1, filled d d1 -> spares d (k d1)) ->
  spares d (bind (gets doc) k).
Proof. intros H st F. exact (H (doc st) F st F). Qed.

Lemma spares_forEach {A} (f : A -> W unit) (l : list A) :
  (forall x, In x l -> spares d (f x)) -> spares d (forEach f l).
Proof.
  induction l as [|x l IH]; intros Hf; simpl; [apply spares_ret|].
  apply spares_bind; [apply Hf; now left|].
  intros _. apply IH. intros y Hy. apply Hf. now right.
Qed.

Lemma spares_console_write l msg : spares d (console_write l msg).
Proof. intros st F. exists []. simpl. rewrite app_nil_r. auto. Qed.

Lemma spares_dispatchEvent u name :
  outside d u -> spares d (dispatchEvent u name).
Proof. intros Hu st F. exists [(u, name)]. simpl. auto. Qed.

Lemma spares_fill v e : outside d (el_uid e) -> spares d (fill v e).
Proof.
  intros Hu. unfold fill.
  destruct (is_input e && type_is (lit "file") e && negb (is_empty v));
    [apply spares_throw|].
  apply spares_bind.
  - intros st F. exists []. simpl. rewrite app_nil_r.
    split; [now apply filled_set_value | auto].
  - intros _. apply spares_bind; [now apply spares_dispatchEvent|].
    intros _. now apply spares_dispatchEvent.
Qed.

(** The loops over inputs outside forms test each input. *)
Lemma spares_fill_loose field sel note : spares d (fill_loose field sel note).
Proof.
  unfold fill_loose. destruct (provided field) as [v|]; [|apply spares_ret].
  apply spares_reading. intros d1 F1. apply spares_forEach.
  intros [anc input] Hin. apply filter_In in Hin. destruct Hin as [Hin _].
  destruct (closest (has_class chat_block) anc (root input)) eqn:C;
    [apply spares_ret|].
  apply spares_bind; [apply spares_console_write | intros _].
  apply spares_fill. apply (outside_filled d d1 _ F1).
  exists anc, input. auto.
Qed.

(** A block run on a form outside the widget reaches elements outside the
    widget only, when the widget is in no form. *)
Lemma spares_fill_in_form d1 field sel note anc form :
  filled d d1 -> widget_outside_forms d1 = true ->
  In (anc, form) (doc_walk d1) -> is_form (root form) = true ->
  closest (has_class chat_block) anc (root form) = false ->
  spares d (fill_in_form field sel note anc form).
Proof.
  intros F1 W Hform Hf C. unfold fill_in_form.
  destruct (provided field) as [v|]; [|apply spares_ret].
  apply spares_forEach. intros [a input] Hin.
  apply filter_In in Hin. destruct Hin as [Hin _].
  apply spares_bind; [|intros _; apply spares_console_write].
  apply spares_fill. apply (outside_filled d d1 _ F1).
  unfold descendants in Hin. apply in_flat_map in Hin.
  destruct Hin as (k & Hk & Hin).
  exists a, input. split; [exact (doc_walk_sub _ _ _ _ _ Hform Hk Hin)|].
  split; [reflexivity|].
  apply (below_form_outside (root form :: anc) k); [| | |exact Hin].
  - simpl. unfold is_form in Hf. now rewrite Hf.
  - exact C.
  - intros a1 n1 Hin1 Hc. unfold widget_outside_forms in W.
    rewrite forallb_forall in W.
    specialize (W _ (doc_walk_sub _ _ _ _ _ Hform Hk Hin1)). simpl in W.
    now rewrite Hc in W.
Qed.

Lemma spares_fillPageForms data :
  widget_outside_forms d = true -> spares d (fillPageForms data).
Proof.
  intros W. unfold fillPageForms.
  apply spares_try_catch; [|intros _; apply spares_console_write].
  apply spares_bind; [apply spares_console_write | intros _].
  apply spares_reading. intros d1 F1.
  pose proof (widget_outside_forms_filled d d1 F1 W) as W1.
  apply spares_bind.
  - apply spares_forEach. intros [anc form] Hin.
    apply filter_In in Hin. destruct Hin as [Hin Hf].
    destruct (closest (has_class chat_block) anc (root form)) eqn:C;
      [apply spares_ret|].
    repeat (apply spares_bind;
            [exact (spares_fill_in_form d1 _ _ _ anc form F1 W1 Hin Hf C)
            | intros _]).
    exact (spares_fill_in_form d1 _ _ _ anc form F1 W1 Hin Hf C).
  - intros _. repeat (apply spares_bind; [apply spares_fill_loose | intros _]).
    apply spares_fill_loose.
Qed.

End Spares.

End SpareFacts.

(** On a page whose elements are different objects and whose widget is
    inside no form, [fillPageForms] ends normally and leaves the widget
    alone.  Every event it dispatches is on an element outside the widget.
    The document it leaves is the one it found with values written by some
    [f] that changes no element inside the widget: every node inside the
    widget, with its value and all it holds, is in the document afterwards
    as it was before. *)
Theorem fillPageForms_spares_widget (data : Widget.contact)
    (st : Widget.state) :
  distinct_uids (Widget.doc st) = true ->
  Events.widget_outside_forms (Widget.doc st) = true ->
  exists st' new f,
    Widget.fillPageForms data st = (Normal tt, st')
    /\ Widget.events st' = Widget.events st ++ new
    /\ Forall (fun ev => Events.outside (Widget.doc st) (fst ev)) new
    /\ value_edit f
    /\ Widget.doc st' = doc_map f (Widget.doc st)
    /\ forall anc n,
         In (anc, n) (doc_walk (Widget.doc st)) ->
         closest (has_class Widget.chat_block) anc (root n) = true ->
         f (root n) = root n
         /\ In (List.map f anc, n) (doc_walk (Widget.doc st')).
Proof.
  intros Hd W.
  destruct (FillFacts.quiet_fillPageForms data st) as ([] & st' & E & _).
  destruct (SpareFacts.spares_fillPageForms (Widget.doc st) Hd data W st
              (SpareFacts.filled_refl _))
    as (new & (f & [Hf Hk] & Df) & V & Q).
  rewrite E in Df, V. simpl in Df, V.
  exists st', new, f. repeat (split; [assumption|]).
  intros anc n Hin C. split; [exact (Hk _ _ Hin C)|].
  rewrite Df, SpareFacts.doc_walk_map. apply in_map_iff.
  exists (anc, n). split; [|exact Hin]. simpl. f_equal.
  apply (SpareFacts.inside_node_fixed f anc n); [|exact C].
  intros a k Hk0 Ck. apply (Hk a k); [|exact Ck].
  destruct n as [e kids]. simpl in Hk0. destruct Hk0 as [[= <- <-]|Hk0];
    [exact Hin|].
  apply in_flat_map in Hk0. destruct Hk0 as (k1 & Hk1 & Hk0).
  exact (SpareFacts.doc_walk_sub anc (Node e kids) _ k1 _ Hin Hk1 Hk0).
Qed.

Lemma fillPageForms_spares_widget_witness :
  exists st' new f,
    Widget.fillPageForms
      (Widget.mkContact (Some (lit "Анна")) (Some (lit "+7 912 345-67-89"))
         (Some [])) Visit.ready_to_submit = (Normal tt, st')
    /\ Widget.events st' = Widget.events Visit.ready_to_submit ++ new
    /\ Forall (fun ev => Events.outside (Widget.doc Visit.ready_to_submit)
                           (fst ev)) new
    /\ value_edit f
    /\ Widget.doc st' = doc_map f (Widget.doc Visit.ready_to_submit)
    /\ forall anc n,
         In (anc, n) (doc_walk (Widget.doc Visit.ready_to_submit)) ->
         closest (has_class Widget.chat_block) anc (root n) = true ->
         f (root n) = root n
         /\ In (List.map f anc, n) (doc_walk (Widget.doc st')).
Proof.
  apply (fillPageForms_spares_widget
           (Widget.mkContact (Some (lit "Анна")) (Some (lit "+7 912 345-67-89"))
              (Some [])) Visit.ready_to_submit).
  - vm_compute. reflexivity.
  - vm_compute. reflexivity.
Defined.



(** ** The phone number the inline page looks for *)

Module PhoneFacts.
Import Js Bounds.

(** A match takes a prefix of the text and hands the rest to the
    continuation. *)
Lemma rmatch_splits {R} (r : regex) :
  forall (s : jsstring) (k : jsstring -> option R) (x : R),
    rmatch r s k = Some x ->
    exists m rest,
      s = m ++ rest /\ k rest = Some x
      /\ (min_length r <= List.length m <= max_length r)%nat.
Proof.
  induction r as [c|p|a IHa b IHb|a IHa b IHb|a IHa]; intros s k x; simpl.
  - destruct s as [|y s]; [discriminate|]. destruct (y =? c); [|discriminate].
    intros H. exists [y], s. simpl. auto.
  - destruct s as [|y s]; [discriminate|]. destruct (p y); [|discriminate].
    intros H. exists [y], s. simpl. auto.
  - intros H. destruct (IHa _ _ _ H) as (m1 & s1 & -> & H1 & L1).
    destruct (IHb _ _ _ H1) as (m2 & s2 & -> & H2 & L2).
    exists (m1 ++ m2), s2. rewrite <- app_assoc, length_app.
    split; [reflexivity|]. split; [exact H2 | lia].
  - destruct (rmatch a s k) as [y|] eqn:E.
    + intros [= ->]. destruct (IHa _ _ _ E) as (m & rest & -> & H1 & L1).
      exists m, rest. split; [reflexivity|]. split; [exact H1 | lia].
    + intros H. destruct (IHb _ _ _ H) as (m & rest & -> & H1 & L1).
      exists m, rest. split; [reflexivity|]. split; [exact H1 | lia].
  - destruct (rmatch a s k) as [y|] eqn:E.
    + intros [= ->]. destruct (IHa _ _ _ E) as (m & rest & -> & H1 & L1).
      exists m, rest. split; [reflexivity|]. split; [exact H1 | lia].
    + intros H. exists [], s. simpl. split; [reflexivity|].
      split; [exact H | lia].
Qed.

Lemma firstn_prefix (m rest : jsstring) :
  firstn (List.length (m ++ rest) - List.length rest) (m ++ rest) = m.
Proof.
  rewrite length_app, Nat.add_sub.
  induction m as [|c m IH]; simpl; [now destruct rest | now rewrite IH].
Qed.

Lemma match_here_prefix r s m :
  match_here r s = Some m ->
  (exists rest, s = m ++ rest)
  /\ (min_length r <= List.length m <= max_length r)%nat.
Proof.
  unfold match_here. intros H.
  destruct (rmatch_splits r _ _ _ H) as (m' & rest & -> & E & L).
  rewrite firstn_prefix in E. injection E as <-. eauto.
Qed.

Lemma exec_part r s m :
  exec r s = Some m ->
  (exists pre post, s = pre ++ m ++ post)
  /\ (min_length r <= List.length m <= max_length r)%nat.
Proof.
  induction s as [|c s IH]; simpl.
  - destruct (match_here r []) eqn:E; [|discriminate]. intros [= ->].
    destruct (match_here_prefix _ _ _ E) as [[rest Hr] L].
    split; [exists [], rest; exact Hr | exact L].
  - destruct (match_here r (c :: s)) eqn:E.
    + intros [= ->]. destruct (match_here_prefix _ _ _ E) as [[rest Hr] L].
      split; [exists [], rest; exact Hr | exact L].
    + intros H. destruct (IH H) as [(pre & post & ->) L].
      split; [exists (c :: pre), post; reflexivity | exact L].
Qed.

End PhoneFacts.

(** What [message.match(phoneRegex)[0]] gives is a piece of the message in
    one run, of eleven to eighteen characters; this is the text that goes
    into the phone input and under [savbes_phone]. *)
Theorem phone_found_is_part_of_message (message found : jsstring) :
  exec Inline.phoneRegex message = Some found ->
  (exists pre post, message = pre ++ found ++ post)
  /\ (11 <= List.length found <= 18)%nat.
Proof. intros H. exact (PhoneFacts.exec_part _ _ _ H). Qed.

Lemma phone_found_is_part_of_message_witness :
  (exists pre post,
     lit "Мой номер 8 (912) 345-67-89, жду"
     = pre ++ lit "8 (912) 345-67-89" ++ post)
  /\ (11 <= List.length (lit "8 (912) 345-67-89") <= 18)%nat.
Proof.
  apply (phone_found_is_part_of_message
           (lit "Мой номер 8 (912) 345-67-89, жду") (lit "8 (912) 345-67-89")).
  vm_compute. reflexivity.
Defined.

(** ** The chat of the inline page *)

(** [sendMessage] of the inline page on an input that holds more than
    white space: the trimmed text is shown as a message of the visitor, one
    request with it and the session id goes to [/api/chat], and the input is
    emptied. *)
Theorem inline_send_shows_and_clears (st : Inline.state) (input : node)
    (T : list (option (bool * jsstring))) :
  doc_find (has_id (lit "userInput")) (Inline.doc st) = Some input ->
  trim (el_value (root input)) <> [] ->
  Inline.transcript (Inline.doc st) = Some T ->
  exists st',
    Inline.sendMessage st = (Normal tt, st')
    /\ Inline.transcript (Inline.doc st')
       = Some (T ++ [Some (true, trim (el_value (root input)))])
    /\ Inline.outbox st'
       = Inline.outbox st
         ++ [(lit "/api/chat", trim (el_value (root input)),
              Inline.sessionId st)]
    /\ (exists input',
          doc_find (has_id (lit "userInput")) (Inline.doc st') = Some input'
          /\ el_uid (root input') = el_uid (root input)
          /\ el_value (root input') = [])
    /\ Inline.localStorage st' = Inline.localStorage st
    /\ Inline.rejections st' = Inline.rejections st.
Proof.
  intros Hi Hm HT.
  destruct (InlineFacts.inline_addMessage_shows
              (VStr (trim (el_value (root input))))
              (trim (el_value (root input))) true st T eq_refl HT)
    as (d' & E & A & HT').
  assert (exists y, doc_find (has_id (lit "userInput")) d' = Some y
                    /\ root y = root input) as (y & Hy & Ry).
  { pose proof (DocFacts.doc_append_other _ (has_id (lit "userInput")) _ _ _
                  (InlineFacts.inline_message_node_no_id _ _ _ _) A) as R.
    rewrite Hi in R.
    destruct (doc_find (has_id (lit "userInput")) d') as [y|];
      [|discriminate]. injection R as R. eauto. }
  unfold Inline.sendMessage, Inline.async, bind, Inline.the_element.
  rewrite Hi. destruct (trim (el_value (root input))) as [|c m] eqn:Et;
    [contradiction|].
  cbv beta iota delta [is_empty]. rewrite E.
  unfold Inline.assign_value, Inline.fetch, modify. eexists.
  split; [reflexivity|]. simpl.
  rewrite InlineFacts.inline_transcript_set_value.
  split; [exact HT'|]. split; [reflexivity|]. split; [|auto].
  unfold set_value.
  rewrite (DocFacts.doc_find_edit (has_id (lit "userInput")) _ _
             (DocFacts.value_edit_set _ _)) by reflexivity.
  rewrite Hy. simpl. eexists. split; [reflexivity|].
  destruct y as [ey ky]. simpl in *. subst ey. now rewrite Nat.eqb_refl.
Qed.

Lemma inline_send_shows_and_clears_witness :
  exists st',
    Inline.sendMessage (Scenario.typed Visit.question) = (Normal tt, st')
    /\ Inline.transcript (Inline.doc st')
       = Some ([Some (false, lit "Здравствуйте! Чем могу помочь?")]
               ++ [Some (true, trim (el_value (root Visit.question_input)))])
    /\ Inline.outbox st'
       = Inline.outbox (Scenario.typed Visit.question)
         ++ [(lit "/api/chat", trim (el_value (root Visit.question_input)),
              Inline.sessionId (Scenario.typed Visit.question))]
    /\ (exists input',
          doc_find (has_id (lit "userInput")) (Inline.doc st') = Some input'
          /\ el_uid (root input') = el_uid (root Visit.question_input)
          /\ el_value (root input') = [])
    /\ Inline.localStorage st'
       = Inline.localStorage (Scenario.typed Visit.question)
    /\ Inline.rejections st'
       = Inline.rejections (Scenario.typed Visit.question).
Proof.
  apply (inline_send_shows_and_clears (Scenario.typed Visit.question)
           Visit.question_input
           [Some (false, lit "Здравствуйте! Чем могу помочь?")]).
  - vm_compute. reflexivity.
  - vm_compute. discriminate.
  - vm_compute. reflexivity.
Defined.



(** The autofill runs inside the [try] block, after the reply has been
    shown.  On a page without [input[name="phone"]], a visitor's message
    that holds a phone number makes it throw: the reply is followed by the
    apology, one line is logged, and nothing is stored. *)
Theorem inline_reply_then_apology (message found : jsstring)
    (data response : value) (shown : jsstring) (st : Inline.state)
    (T : list (option (bool * jsstring))) :
  exec Inline.phoneRegex message = Some found ->
  get data (lit "response") = inr response ->
  Inline.textContent_text response = Some shown ->
  Inline.transcript (Inline.doc st) = Some T ->
  doc_find Inline.phone_input (Inline.doc st) = None ->
  exists st',
    Inline.sendMessage_resume message (Body data) st = (Normal tt, st')
    /\ Inline.transcript (Inline.doc st')
       = Some (T ++ [Some (false, shown); Some (false, Inline.apology)])
    /\ Inline.console st' = Inline.console st ++ [lit "Error:"]
    /\ Inline.localStorage st' = Inline.localStorage st
    /\ Inline.outbox st' = Inline.outbox st
    /\ Inline.rejections st' = Inline.rejections st.
Proof.
  intros Hf Hg Hs HT Hp.
  destruct (InlineFacts.inline_addMessage_shows response shown false st T Hs HT)
    as (d' & E & A & HT').
  assert (doc_find Inline.phone_input d' = None) as Hp'.
  { pose proof (DocFacts.doc_append_other _ Inline.phone_input _ _ _
                  (InlineFacts.inline_message_node_no_phone _ _ _) A) as R.
    rewrite Hp in R. destruct (doc_find Inline.phone_input d'); [discriminate|].
    reflexivity. }
  unfold Inline.sendMessage_resume, Inline.async, try_catch, bind.
  rewrite Hg, E, Hf. unfold Inline.the_element. simpl Inline.doc. rewrite Hp'.
  unfold Inline.console_error, modify.
  match goal with
  | |- context [Inline.addMessage (VStr Inline.apology) false ?s] =>
      destruct (InlineFacts.inline_addMessage_shows (VStr Inline.apology)
                  Inline.apology false s (T ++ [Some (false, shown)])
                  eq_refl HT') as (d2 & E2 & _ & HT2)
  end.
  rewrite E2.
  eexists. split; [reflexivity|]. simpl. rewrite <- app_assoc in HT2.
  auto.
Qed.

Lemma inline_reply_then_apology_witness :
  exists st',
    Inline.sendMessage_resume (lit "Мой номер 8 (912) 345-67-89, жду")
      (Body (Spec.bare_reply (lit "Спасибо!"))) Visit.without_order_form
    = (Normal tt, st')
    /\ Inline.transcript (Inline.doc st')
       = Some ([Some (false, lit "Здравствуйте! Чем могу помочь?")]
               ++ [Some (false, lit "Спасибо!"); Some (false, Inline.apology)])
    /\ Inline.console st'
       = Inline.console Visit.without_order_form ++ [lit "Error:"]
    /\ Inline.localStorage st' = Inline.localStorage Visit.without_order_form
    /\ Inline.outbox st' = Inline.outbox Visit.without_order_form
    /\ Inline.rejections st' = Inline.rejections Visit.without_order_form.
Proof.
  apply (inline_reply_then_apology (lit "Мой номер 8 (912) 345-67-89, жду")
           (lit "8 (912) 345-67-89") (Spec.bare_reply (lit "Спасибо!"))
           (VStr (lit "Спасибо!")) (lit "Спасибо!") Visit.without_order_form
           [Some (false, lit "Здравствуйте! Чем могу помочь?")]).
  - vm_compute. reflexivity.
  - vm_compute. reflexivity.
  - reflexivity.
  - vm_compute. reflexivity.
  - vm_compute. reflexivity.
Defined.

(** ** The bubble and the cross of the inline page *)

Module ToggleFacts.
Import Js Dom Eff Inline Page JsFacts DocFacts.

Lemma has_class_remove c e : has_class c (classList_remove c e) = false.
Proof.
  unfold has_class, classList_remove. simpl.
  induction (el_class e) as [|x l IH]; simpl; [reflexivity|].
  destruct (str_eqb x c) eqn:E; simpl; [exact IH | now rewrite E].
Qed.

Lemma has_class_add c e : has_class c (classList_add c e) = true.
Proof.
  unfold classList_add. destruct (has_class c e) eqn:E; [exact E|].
  unfold has_class. simpl. rewrite existsb_app. simpl.
  rewrite str_eqb_refl. apply orb_true_r.
Qed.

Lemma has_id_add i c e : has_id i (classList_add c e) = has_id i e.
Proof. unfold classList_add. now destruct (has_class c e). Qed.

Lemma el_uid_add c e : el_uid (classList_add c e) = el_uid e.
Proof. unfold classList_add. now destruct (has_class c e). Qed.

(** An edit that keeps ids leaves the first element of each id in place. *)
Lemma find_edited i u f d :
  (forall e, has_id i (f e) = has_id i e) ->
  doc_find (has_id i)
    (doc_map (fun e => if Nat.eqb (el_uid e) u then f e else e) d)
  = option_map (map_node (fun e => if Nat.eqb (el_uid e) u then f e else e))
               (doc_find (has_id i) d).
Proof.
  intros Hf. apply doc_find_map. intros e.
  destruct (Nat.eqb (el_uid e) u); [apply Hf | reflexivity].
Qed.

Lemma root_edited f n : root (map_node f n) = f (root n).
Proof. now destruct n. Qed.

End ToggleFacts.

(** On a page where [#chatContainer] and [#chatToggle] are two elements:
    a click on the bubble leaves the chat shown and the bubble hidden, and
    a click on the cross leaves the chat hidden and the bubble shown,
    whatever classes the two had before. *)
Theorem toggle_opens_and_closes (st : Inline.state) (container toggle : nat) :
  option_map (fun n => el_uid (root n))
    (doc_find (has_id (lit "chatContainer")) (Inline.doc st)) = Some container ->
  option_map (fun n => el_uid (root n))
    (doc_find (has_id (lit "chatToggle")) (Inline.doc st)) = Some toggle ->
  container <> toggle ->
  (exists st',
     Page.open_chat toggle st = (Normal tt, st')
     /\ Page.is_hidden (lit "chatContainer") (Inline.doc st') = Some false
     /\ Page.is_hidden (lit "chatToggle") (Inline.doc st') = Some true)
  /\ (exists st',
        Page.close_chat st = (Normal tt, st')
        /\ Page.is_hidden (lit "chatContainer") (Inline.doc st') = Some true
        /\ Page.is_hidden (lit "chatToggle") (Inline.doc st') = Some false).
Proof.
  destruct (doc_find (has_id (lit "chatContainer")) (Inline.doc st))
    as [c|] eqn:Hc; [|discriminate].
  destruct (doc_find (has_id (lit "chatToggle")) (Inline.doc st))
    as [t|] eqn:Ht; [|discriminate].
  simpl. intros [= <-] [= <-] Hne.
  assert (Nat.eqb (el_uid (root c)) (el_uid (root t)) = false) as Nct
      by now apply Nat.eqb_neq.
  assert (Nat.eqb (el_uid (root t)) (el_uid (root c)) = false) as Ntc
      by (apply Nat.eqb_neq; congruence).
  split.
  - unfold Page.open_chat, bind, Inline.the_element. rewrite Hc.
    unfold Page.edit, modify. eexists. split; [reflexivity|].
    unfold Page.is_hidden. simpl Inline.doc.
    rewrite !ToggleFacts.find_edited, Hc, Ht
      by (intros; apply ToggleFacts.has_id_add || reflexivity).
    simpl option_map. rewrite !ToggleFacts.root_edited.
    repeat first [ rewrite Nat.eqb_refl | rewrite Nct | rewrite Ntc
                 | rewrite ToggleFacts.el_uid_add | progress simpl el_uid ].
    now rewrite ToggleFacts.has_class_remove, ToggleFacts.has_class_add.
  - unfold Page.close_chat, bind, Inline.the_element. rewrite Hc.
    unfold Page.edit, modify. simpl Inline.doc.
    rewrite ToggleFacts.find_edited, Ht
      by (intros; apply ToggleFacts.has_id_add).
    simpl option_map. eexists. split; [reflexivity|].
    unfold Page.is_hidden. simpl Inline.doc.
    rewrite !ToggleFacts.root_edited, Ntc.
    rewrite !ToggleFacts.find_edited, Hc, Ht
      by (intros; apply ToggleFacts.has_id_add || reflexivity).
    simpl option_map. rewrite !ToggleFacts.root_edited.
    repeat first [ rewrite Nat.eqb_refl | rewrite Nct | rewrite Ntc
                 | rewrite ToggleFacts.el_uid_add | progress simpl el_uid ].
    now rewrite ToggleFacts.has_class_remove, ToggleFacts.has_class_add.
Qed.

Lemma toggle_opens_and_closes_witness :
  (exists st',
     Page.open_chat 26 Scenario.first_visit = (Normal tt, st')
     /\ Page.is_hidden (lit "chatContainer") (Inline.doc st') = Some false
     /\ Page.is_hidden (lit "chatToggle") (Inline.doc st') = Some true)
  /\ (exists st',
        Page.close_chat Scenario.first_visit = (Normal tt, st')
        /\ Page.is_hidden (lit "chatContainer") (Inline.doc st') = Some true
        /\ Page.is_hidden (lit "chatToggle") (Inline.doc st') = Some false).
Proof.
  apply (toggle_opens_and_closes Scenario.first_visit 27 26).
  - vm_compute. reflexivity.
  - vm_compute. reflexivity.
  - lia.
Defined.

(** ** The order form of the inline page *)

(** Submitting the order form sends nothing anywhere.  The handler reads
    the three fields; when a calculation is stored under [savbes_calc_data]
    it writes it, after a fixed label, into [#formComment]; it alerts the
    thanks with the name as typed; and it resets the form.  So the state it
    leaves is the state it found with that one value written and the reset
    applied to the document: with nothing stored, or the empty string, only
    the reset is applied.  No request is made, and the session id, local
    storage and the chat are as before. *)
Theorem order_form_sends_nothing (reset : element -> element)
    (st : Inline.state) (name : jsstring) (comment : node) :
  value_edit reset ->
  option_map (fun n => el_value (root n))
    (doc_find Page.name_input (Inline.doc st)) = Some name ->
  is_Some (doc_find Inline.phone_input (Inline.doc st)) ->
  is_Some (doc_find Page.email_input (Inline.doc st)) ->
  doc_find (has_id (lit "formComment")) (Inline.doc st) = Some comment ->
  exists st',
    Page.on_submit reset st = (Normal (Page.thanks name), st')
    /\ st'
       = Inline.set_doc
           (doc_map reset
              (match Inline.localStorage st !! Page.calc_key with
               | Some (c :: s) =>
                   set_value (el_uid (root comment))
                     (lit "Данные расчета: " ++ c :: s) (Inline.doc st)
               | _ => Inline.doc st
               end)) st
    /\ (forall c s,
          Inline.localStorage st !! Page.calc_key = Some (c :: s) ->
          option_map root
            (doc_find (has_id (lit "formComment")) (Inline.doc st'))
          = Some (reset (with_value (lit "Данные расчета: " ++ c :: s)
                           (root comment))))
    /\ Inline.outbox st' = Inline.outbox st
    /\ Inline.localStorage st' = Inline.localStorage st
    /\ Inline.transcript (Inline.doc st') = Inline.transcript (Inline.doc st)
    /\ Inline.sessionId st' = Inline.sessionId st
    /\ Inline.rejections st' = Inline.rejections st.
Proof.
  intros Hr Hn [p Hp] [e He] Hc.
  destruct (doc_find Page.name_input (Inline.doc st)) as [n|] eqn:En;
    [|discriminate].
  injection Hn as <-.
  unfold Page.on_submit, bind, Inline.the_element, gets.
  rewrite En, Hp, He.
  destruct (Inline.localStorage st !! Page.calc_key) as [[|x s]|].
  - unfold ret, modify. eexists. split; [reflexivity|]. simpl.
    rewrite InlineFacts.inline_transcript_map by exact Hr.
    split; [reflexivity|]. split; [discriminate | auto].
  - rewrite Hc. unfold Inline.assign_value, modify. eexists.
    split; [reflexivity|]. simpl.
    rewrite InlineFacts.inline_transcript_map by exact Hr.
    rewrite InlineFacts.inline_transcript_set_value.
    split; [reflexivity|]. split; [|auto].
    intros c s0 [= <- <-].
    rewrite (DocFacts.doc_find_edit (has_id (lit "formComment")) reset _ Hr)
      by reflexivity.
    unfold set_value.
    rewrite (DocFacts.doc_find_edit (has_id (lit "formComment")) _ _
               (DocFacts.value_edit_set _ _)) by reflexivity.
    rewrite Hc. simpl. destruct comment as [ec kc]. simpl.
    now rewrite Nat.eqb_refl.
  - unfold ret, modify. eexists. split; [reflexivity|]. simpl.
    rewrite InlineFacts.inline_transcript_map by exact Hr.
    split; [reflexivity|]. split; [discriminate | auto].
Qed.

Lemma order_form_sends_nothing_witness :
  exists st',
    Page.on_submit Visit.page_reset Visit.order_with_calc
    = (Normal (Page.thanks (lit "Анна")), st')
    /\ st'
       = Inline.set_doc
           (doc_map Visit.page_reset
              (match Inline.localStorage Visit.order_with_calc
                     !! Page.calc_key with
               | Some (c :: s) =>
                   set_value (el_uid (root Visit.comment_input))
                     (lit "Данные расчета: " ++ c :: s)
                     (Inline.doc Visit.order_with_calc)
               | _ => Inline.doc Visit.order_with_calc
               end)) Visit.order_with_calc
    /\ (forall c s,
          Inline.localStorage Visit.order_with_calc !! Page.calc_key
          = Some (c :: s) ->
          option_map root
            (doc_find (has_id (lit "formComment")) (Inline.doc st'))
          = Some (Visit.page_reset
                    (with_value (lit "Данные расчета: " ++ c :: s)
                       (root Visit.comment_input))))
    /\ Inline.outbox st' = Inline.outbox Visit.order_with_calc
    /\ Inline.localStorage st' = Inline.localStorage Visit.order_with_calc
    /\ Inline.transcript (Inline.doc st')
       = Inline.transcript (Inline.doc Visit.order_with_calc)
    /\ Inline.sessionId st' = Inline.sessionId Visit.order_with_calc
    /\ Inline.rejections st' = Inline.rejections Visit.order_with_calc.
Proof.
  apply (order_form_sends_nothing Visit.page_reset Visit.order_with_calc
           (lit "Анна") Visit.comment_input).
  - intros e. unfold Visit.page_reset.
    destruct (existsb (Nat.eqb (el_uid e)) [21; 22; 23]%nat);
      [exists [] | exists (el_value e); destruct e]; reflexivity.
  - vm_compute. reflexivity.
  - vm_compute. eexists. reflexivity.
  - vm_compute. eexists. reflexivity.
  - vm_compute. reflexivity.
Defined.

(** ** What the handlers of the inline page keep *)

Module PageFrame.
Import Js Dom Eff Frame FrameFacts Inline Page.
#[local] Open Scope eff_scope.

Section Handlers.
Variable I : state -> state -> Prop.
Hypothesis I_refl : forall st, I st st.
Hypothesis I_trans : forall a b c, I a b -> I b c -> I a c.
Hypothesis I_doc : forall d st, I st (set_doc d st).
Hypothesis I_fresh : forall n st, I st (set_fresh n st).
Hypothesis I_console : forall c st, I st (set_console c st).
Hypothesis I_rejections : forall r st, I st (set_rejections r st).
Hypothesis I_fetch :
  forall m st,
    I st (set_outbox (outbox st ++ [(lit "/api/chat", m, sessionId st)]) st).
Hypothesis I_store :
  forall v st,
    I st (set_localStorage (<[storage_key := v]> (localStorage st)) st).

Lemma page_keeps_the_element p what : keeps I (the_element p what).
Proof.
  intros st. unfold the_element. destruct (doc_find p (doc st)); apply I_refl.
Qed.

Lemma page_keeps_assign_value u v : keeps I (assign_value u v).
Proof. apply keeps_modify. auto. Qed.

Lemma page_keeps_async m : keeps I m -> keeps I (async m).
Proof.
  intros Hm st. unfold async. specialize (Hm st).
  destruct (m st) as [[a|e] st1]; simpl in *; [exact Hm|].
  exact (I_trans _ _ _ Hm (I_rejections _ _)).
Qed.

Lemma page_keeps_addMessage text isUser : keeps I (addMessage text isUser).
Proof.
  unfold addMessage. apply keeps_bind; auto.
  - intros st. apply I_fresh.
  - intros u. apply keeps_bind; auto.
    + unfold textContent_of. destruct (textContent_text text);
        [apply keeps_ret | apply keeps_throw]; assumption.
    + intros shown st.
      destruct (doc_append _ _ (doc st)); simpl; auto.
Qed.

Lemma page_keeps_sendMessage : keeps I sendMessage.
Proof.
  unfold sendMessage. apply page_keeps_async.
  apply keeps_bind; auto using page_keeps_the_element. intros userInput.
  destruct (is_empty (trim (el_value userInput)));
    [apply keeps_ret; assumption|].
  apply keeps_bind; auto using page_keeps_addMessage. intros _.
  apply keeps_bind; auto using page_keeps_assign_value. intros _.
  apply keeps_modify. auto.
Qed.

Lemma page_keeps_sendMessage_resume message o :
  keeps I (sendMessage_resume message o).
Proof.
  unfold sendMessage_resume. apply page_keeps_async. apply keeps_try_catch; auto.
  - destruct o as [e|data]; [apply keeps_throw; assumption|].
    destruct (get data (lit "response")) as [e|response];
      [apply keeps_throw; assumption|].
    apply keeps_bind; auto using page_keeps_addMessage. intros _.
    destruct (exec phoneRegex message) as [found|];
      [|apply keeps_ret; assumption].
    apply keeps_bind; auto using page_keeps_the_element. intros input.
    apply keeps_bind; auto using page_keeps_assign_value. intros _.
    apply keeps_modify. auto.
  - intros _. apply keeps_bind; auto using page_keeps_addMessage.
    apply keeps_modify. auto.
Qed.

Lemma page_keeps_on_load : keeps I on_load.
Proof.
  unfold on_load. apply keeps_bind; auto using keeps_gets. intros [[|c s]|];
    try (apply keeps_ret; assumption).
  apply keeps_bind; auto using page_keeps_the_element, page_keeps_assign_value.
Qed.

Lemma page_keeps_edit u f : keeps I (edit u f).
Proof. apply keeps_modify. auto. Qed.

Lemma page_keeps_open_chat this : keeps I (open_chat this).
Proof.
  unfold open_chat. apply keeps_bind; auto using page_keeps_the_element. intros c.
  apply keeps_bind; auto using page_keeps_edit.
Qed.

Lemma page_keeps_close_chat : keeps I close_chat.
Proof.
  unfold close_chat. apply keeps_bind; auto using page_keeps_the_element. intros c.
  apply keeps_bind; auto using page_keeps_edit. intros _.
  apply keeps_bind; auto using page_keeps_the_element, page_keeps_edit.
Qed.

Lemma page_keeps_on_submit reset : keeps I (on_submit reset).
Proof.
  unfold on_submit.
  apply keeps_bind; auto using page_keeps_the_element. intros name.
  apply keeps_bind; auto using page_keeps_the_element. intros _.
  apply keeps_bind; auto using page_keeps_the_element. intros _.
  apply keeps_bind; auto using keeps_gets. intros calcData.
  apply keeps_bind; auto.
  - destruct calcData as [[|c s]|]; try (apply keeps_ret; assumption).
    apply keeps_bind; auto using page_keeps_the_element, page_keeps_assign_value.
  - intros _. apply keeps_bind; auto using keeps_ret.
    apply keeps_modify. auto.
Qed.

Lemma page_keeps_type_into u text : keeps I (type_into u text).
Proof. apply keeps_modify. auto. Qed.

Lemma page_keeps_handle ev : keeps I (handle ev).
Proof.
  destruct ev; simpl;
    auto using page_keeps_sendMessage, page_keeps_sendMessage_resume, page_keeps_on_load,
               page_keeps_open_chat, page_keeps_close_chat, page_keeps_type_into.
  all: try (apply keeps_bind; auto using page_keeps_on_submit, keeps_ret).
Qed.

Lemma page_keeps_run_events evs st : I st (run_events evs st).
Proof.
  unfold run_events. revert st.
  induction evs as [|ev evs IH]; intros st; simpl; [apply I_refl|].
  exact (I_trans _ _ _ (page_keeps_handle ev st) (IH _)).
Qed.

End Handlers.

Lemma page_steady_same st st' :
  sessionId st' = sessionId st -> outbox st' = outbox st ->
  localStorage st' = localStorage st -> steady st st'.
Proof.
  intros Hs Ho Hl. split; [exact Hs|]. split.
  - exists []. rewrite app_nil_r. auto.
  - intros k _. now rewrite Hl.
Qed.

Lemma page_steady_trans a b c : steady a b -> steady b c -> steady a c.
Proof.
  intros (Hs1 & (n1 & Ho1 & F1) & L1) (Hs2 & (n2 & Ho2 & F2) & L2).
  split; [congruence|]. split.
  - exists (n1 ++ n2). split; [now rewrite Ho2, Ho1, app_assoc|].
    apply Forall_app. split; [exact F1|].
    eapply Forall_impl; [exact F2|]. intros r [Hu Hr]. split; [exact Hu|].
    congruence.
  - intros k Hk. now rewrite L2, L1.
Qed.

End PageFrame.

(** Whatever happens on the inline page, in any order (messages sent,
    replies of any shape, failed exchanges, page-load handler, bubble and
    cross, order form submitted, fields edited), the session id stays as it
    was, no request is taken back, every request added goes to [/api/chat]
    with that session id, and the script writes to local storage under
    [savbes_phone] only. *)
Theorem inline_requests_carry_session (evs : list Page.event)
    (st : Inline.state) :
  Inline.sessionId (Page.run_events evs st) = Inline.sessionId st
  /\ (exists new,
        Inline.outbox (Page.run_events evs st) = Inline.outbox st ++ new
        /\ Forall (fun r => fst (fst r) = lit "/api/chat"
                            /\ snd r = Inline.sessionId st) new)
  /\ forall k, k <> Inline.storage_key ->
               Inline.localStorage (Page.run_events evs st) !! k
               = Inline.localStorage st !! k.
Proof.
  apply (PageFrame.page_keeps_run_events Page.steady);
    try (intros; apply PageFrame.page_steady_same; reflexivity).
  - exact PageFrame.page_steady_trans.
  - intros m s. split; [reflexivity|]. split.
    + eexists. split; [reflexivity|]. constructor; [|constructor].
      split; reflexivity.
    + reflexivity.
  - intros v s. split; [reflexivity|]. split.
    + exists []. rewrite app_nil_r. auto.
    + intros k Hk. simpl. now rewrite lookup_insert_ne.
Qed.

(** A phone number is stored only at the end of an exchange: any other
    event leaves local storage as it was. *)
Theorem storage_written_on_reply_only (ev : Page.event) (st : Inline.state) :
  (forall message o, ev <> Page.Replied message o) ->
  Inline.localStorage (snd (Page.handle ev st)) = Inline.localStorage st.
Proof.
  intros Hev. destruct ev as [|message o| |this| |reset|u text];
    try (now destruct (Hev message o)).
  - apply (PageFrame.page_keeps_sendMessage
             (fun a b => Inline.localStorage b = Inline.localStorage a));
      try (intros; reflexivity). intros a b c H1 H2. congruence.
  - apply (PageFrame.page_keeps_on_load
             (fun a b => Inline.localStorage b = Inline.localStorage a));
      try (intros; reflexivity). intros a b c H1 H2. congruence.
  - apply (PageFrame.page_keeps_open_chat
             (fun a b => Inline.localStorage b = Inline.localStorage a));
      try (intros; reflexivity). intros a b c H1 H2. congruence.
  - apply (PageFrame.page_keeps_close_chat
             (fun a b => Inline.localStorage b = Inline.localStorage a));
      try (intros; reflexivity). intros a b c H1 H2. congruence.
  - simpl. unfold bind.
    pose proof (PageFrame.page_keeps_on_submit
                  (fun a b => Inline.localStorage b = Inline.localStorage a)
                  (fun _ => eq_refl)
                  (fun a b c H1 H2 => eq_trans H2 H1)
                  (fun _ _ => eq_refl) reset st) as H.
    destruct (Page.on_submit reset st) as [[a|e] st1]; exact H.
  - reflexivity.
Qed.

Lemma storage_written_on_reply_only_witness :
  Inline.localStorage (snd (Page.handle Page.Send (Scenario.typed Visit.question)))
  = Inline.localStorage (Scenario.typed Visit.question).
Proof.
  apply (storage_written_on_reply_only Page.Send
           (Scenario.typed Visit.question)).
  intros message o. discriminate.
Defined.

(** ** Examples for the two lemmas on the sentinel and on the phone *)

Lemma sentinel_reply_shown_witness :
  exists st',
    Widget.addMessage (VStr Scenario.asks_for_contact) false Scenario.mounted
    = (Normal tt, st')
    /\ Widget.transcript (Widget.doc st')
       = Some ([Widget.Message false Widget.welcomeMessage]
               ++ [Widget.Message false
                     (replace Scenario.asks_for_contact
                              Widget.SHOW_CONTACT_FORM [])])
    /\ (exists a b,
          Scenario.asks_for_contact = a ++ Widget.SHOW_CONTACT_FORM ++ b
          /\ replace Scenario.asks_for_contact Widget.SHOW_CONTACT_FORM []
             = a ++ b
          /\ forall a' b',
               Scenario.asks_for_contact
               = a' ++ Widget.SHOW_CONTACT_FORM ++ b' ->
               (List.length a <= List.length a')%nat)
    /\ Widget.timers st'
       = Widget.timers Scenario.mounted ++ [(Widget.ShowContactForm, 500)]
    /\ forall later T',
         Widget.transcript (Widget.doc later) = Some T' ->
         exists shown,
           Widget.run Widget.ShowContactForm later = (Normal tt, shown)
           /\ Widget.transcript (Widget.doc shown)
              = Some (T' ++ [Widget.Form (Widget.fresh later)]).
Proof.
  apply (sentinel_reply_shown Scenario.mounted Scenario.asks_for_contact
           [Widget.Message false Widget.welcomeMessage]).
  - vm_compute. reflexivity.
  - vm_compute. reflexivity.
Defined.

Lemma visitor_phone_stored_witness :
  exists st',
    Inline.sendMessage_resume Visit.with_phone
      (Body (Spec.bare_reply (lit "Спасибо!"))) Scenario.first_visit
    = (Normal tt, st')
    /\ Inline.localStorage st' !! Inline.storage_key = Some Visit.the_phone
    /\ (exists n, doc_find Inline.phone_input (Inline.doc st') = Some n
                  /\ el_value (root n) = Visit.the_phone)
    /\ exists next n,
         Inline.on_load (Inline.load (Inline.localStorage st') Scenario.random36)
         = (Normal tt, next)
         /\ doc_find Inline.phone_input (Inline.doc next) = Some n
         /\ el_value (root n) = Visit.the_phone.
Proof.
  apply (visitor_phone_stored Scenario.first_visit Visit.with_phone
           Visit.the_phone (Spec.bare_reply (lit "Спасибо!"))
           (VStr (lit "Спасибо!")) (lit "Спасибо!") Scenario.random36
           [Some (false, lit "Здравствуйте! Чем могу помочь?")]).
  - vm_compute. reflexivity.
  - vm_compute. reflexivity.
  - reflexivity.
  - vm_compute. reflexivity.
  - vm_compute. eexists. reflexivity.
Defined.

(** ** Opening the contact form *)

Module FormFacts.
Import Js Dom Eff Widget DomFacts DocFacts WidgetFacts.

(** When the element appended to already holds a [q]-match, the first
    [q]-match of the tree stays the same element: the new node comes after
    everything the target held. *)
Lemma append_node_behind p q n t t' m :
  find_node p t = Some m -> is_Some (find_node q m) ->
  append_node p n t = Some t' ->
  option_map root (find_node q t') = option_map root (find_node q t).
Proof.
  intros Hm Hq. revert t' Hm. induction t as [e kids IH] using node_induction.
  intros t'. simpl. destruct (p e) eqn:P.
  - intros [= <-] [= <-]. destruct Hq as [y Hy]. simpl in *.
    destruct (q e); [reflexivity|]. now rewrite first_some_app, Hy.
  - intros Hm.
    destruct (rewrite_first (append_node p n) kids) as [kids'|] eqn:R;
      [|discriminate].
    intros [= <-]. simpl. destruct (q e); [reflexivity|].
    revert kids' R Hm.
    induction IH as [|k l Hk _ IHl]; intros kids' R Hm; simpl in *;
      [discriminate|].
    destruct (find_node p k) as [mk|] eqn:Fk.
    + assert (exists k', append_node p n k = Some k') as [k' Ak].
      { destruct mk as [e0 kids0].
        destruct (append_node_found p n k _ _ Fk) as (k' & Ak & _). eauto. }
      injection Hm as ->. rewrite Ak in R. injection R as <-. simpl.
      specialize (Hk k' eq_refl Ak).
      destruct (find_node q k'), (find_node q k); simpl in *;
        try discriminate; [exact Hk | reflexivity].
    + rewrite (append_node_missing p n k Fk) in R.
      destruct (rewrite_first (append_node p n) l) as [l'|]; [|discriminate].
      injection R as <-. simpl.
      destruct (find_node q k); [reflexivity|]. exact (IHl _ eq_refl Hm).
Qed.

Lemma doc_append_behind p q n d d' m :
  doc_find p d = Some m -> is_Some (find_node q m) ->
  doc_append p n d = Some d' ->
  option_map root (doc_find q d') = option_map root (doc_find q d).
Proof.
  unfold doc_find, doc_append. destruct (find_node p (head d)) as [x|] eqn:H.
  - intros [= ->] Hq. destruct m as [e0 kids0].
    destruct (append_node_found p n _ _ _ H) as (h & A & _). rewrite A.
    intros [= <-]. simpl.
    pose proof (append_node_behind p q n _ _ _ H Hq A) as E.
    destruct (find_node q h), (find_node q (head d)); simpl in *;
      try discriminate; [exact E | reflexivity].
  - intros B Hq. rewrite (append_node_missing p n _ H).
    destruct (append_node p n (body d)) as [b|] eqn:A; [|discriminate].
    intros [= <-]. simpl. destruct (find_node q (head d)); [reflexivity|].
    exact (append_node_behind p q n _ _ _ B Hq A).
Qed.

Lemma open_field_found i d :
  Events.open_field i d = true ->
  exists m, doc_find (has_id messages_id) d = Some m
            /\ is_Some (find_node (has_id i) m).
Proof.
  unfold Events.open_field, getElementById.
  destruct (doc_find (has_id messages_id) d) as [m|]; [|discriminate].
  destruct (find_node (has_id i) m) eqn:E; [|discriminate].
  intros _. exists m. rewrite E. eauto.
Qed.

End FormFacts.

(** [showContactForm] on a chat without a contact form: the form is
    appended to the chat with its three inputs empty, lookups by id reach
    these inputs, and the focus is on the name input. *)
Theorem contact_form_opens (st : Widget.state) (T : list Widget.entry) :
  Widget.transcript (Widget.doc st) = Some T ->
  getElementById Widget.name_input_id (Widget.doc st) = None ->
  getElementById Widget.phone_input_id (Widget.doc st) = None ->
  getElementById Widget.email_input_id (Widget.doc st) = None ->
  exists st',
    Widget.showContactForm st = (Normal tt, st')
    /\ Widget.transcript (Widget.doc st') = Some (T ++ [Widget.Form (Widget.fresh st)])
    /\ option_map (fun n => (el_uid (root n), el_value (root n)))
         (getElementById Widget.name_input_id (Widget.doc st'))
       = Some ((Widget.fresh st + 2)%nat, [])
    /\ option_map (fun n => (el_uid (root n), el_value (root n)))
         (getElementById Widget.phone_input_id (Widget.doc st'))
       = Some ((Widget.fresh st + 3)%nat, [])
    /\ option_map (fun n => (el_uid (root n), el_value (root n)))
         (getElementById Widget.email_input_id (Widget.doc st'))
       = Some ((Widget.fresh st + 4)%nat, [])
    /\ Widget.focus st' = Some (Widget.fresh st + 2)%nat
    /\ Widget.fresh st' = (Widget.fresh st + 8)%nat
    /\ Widget.outbox st' = Widget.outbox st
    /\ Widget.userData st' = Widget.userData st.
Proof.
  intros HT Hn Hp He. unfold Widget.showContactForm, bind, Widget.alloc.
  destruct (WidgetFacts.appendChild_to_messages (Widget.form_node (Widget.fresh st))
              (Widget.set_fresh (Widget.fresh st + 8) st) T HT)
    as (d' & -> & A & HT').
  simpl in A.
  pose proof (InstallFacts.doc_append_new _ (has_id Widget.name_input_id)
                _ _ _ Hn A) as Fn.
  pose proof (InstallFacts.doc_append_new _ (has_id Widget.phone_input_id)
                _ _ _ Hp A) as Fp.
  pose proof (InstallFacts.doc_append_new _ (has_id Widget.email_input_id)
                _ _ _ He A) as Fe.
  change (find_node (has_id Widget.name_input_id)
            (Widget.form_node (Widget.fresh st)))
    with (Some (Widget.leaf
                  (Widget.el (Widget.fresh st + 2) "input"
                     (Some "savbes-name-input") ["savbes-form-input"]
                     (Some "text") (Some "Ваше имя") Empty))) in Fn.
  change (find_node (has_id Widget.phone_input_id)
            (Widget.form_node (Widget.fresh st)))
    with (Some (Widget.leaf
                  (Widget.el (Widget.fresh st + 3) "input"
                     (Some "savbes-phone-input") ["savbes-form-input"]
                     (Some "tel") (Some "Ваш телефон") Empty))) in Fp.
  change (find_node (has_id Widget.email_input_id)
            (Widget.form_node (Widget.fresh st)))
    with (Some (Widget.leaf
                  (Widget.el (Widget.fresh st + 4) "input"
                     (Some "savbes-email-input") ["savbes-form-input"]
                     (Some "email") (Some "Ваш email (опционально)") Empty)))
    in Fe.
  unfold Widget.focus_on, Widget.listen_on, getElementById in *.
  simpl Widget.doc. rewrite Fn. simpl Widget.doc. rewrite Fp.
  eexists. split; [reflexivity|]. simpl Widget.doc. rewrite Fn, Fp, Fe.
  split; [exact HT'|]. repeat split.
Qed.

Lemma contact_form_opens_witness :
  exists st',
    Widget.showContactForm Scenario.mounted = (Normal tt, st')
    /\ Widget.transcript (Widget.doc st')
       = Some ([Widget.Message false Widget.welcomeMessage]
               ++ [Widget.Form (Widget.fresh Scenario.mounted)])
    /\ option_map (fun n => (el_uid (root n), el_value (root n)))
         (getElementById Widget.name_input_id (Widget.doc st'))
       = Some ((Widget.fresh Scenario.mounted + 2)%nat, [])
    /\ option_map (fun n => (el_uid (root n), el_value (root n)))
         (getElementById Widget.phone_input_id (Widget.doc st'))
       = Some ((Widget.fresh Scenario.mounted + 3)%nat, [])
    /\ option_map (fun n => (el_uid (root n), el_value (root n)))
         (getElementById Widget.email_input_id (Widget.doc st'))
       = Some ((Widget.fresh Scenario.mounted + 4)%nat, [])
    /\ Widget.focus st' = Some (Widget.fresh Scenario.mounted + 2)%nat
    /\ Widget.fresh st' = (Widget.fresh Scenario.mounted + 8)%nat
    /\ Widget.outbox st' = Widget.outbox Scenario.mounted
    /\ Widget.userData st' = Widget.userData Scenario.mounted.
Proof.
  apply (contact_form_opens Scenario.mounted
           [Widget.Message false Widget.welcomeMessage]).
  - vm_compute. reflexivity.
  - vm_compute. reflexivity.
  - vm_compute. reflexivity.
  - vm_compute. reflexivity.
Defined.

(** [showContactForm] while a contact form is open in the chat: a second
    form is appended, but every lookup by id still reaches the inputs of the
    form that was there, and the focus goes to its name input.  The buttons
    of the new form therefore read the fields of the old one. *)
Theorem second_form_shares_inputs (st : Widget.state)
    (T : list Widget.entry) :
  Widget.transcript (Widget.doc st) = Some T ->
  Events.open_field Widget.name_input_id (Widget.doc st) = true ->
  Events.open_field Widget.phone_input_id (Widget.doc st) = true ->
  Events.open_field Widget.email_input_id (Widget.doc st) = true ->
  exists st',
    Widget.showContactForm st = (Normal tt, st')
    /\ Widget.transcript (Widget.doc st')
       = Some (T ++ [Widget.Form (Widget.fresh st)])
    /\ option_map root (getElementById Widget.name_input_id (Widget.doc st'))
       = option_map root (getElementById Widget.name_input_id (Widget.doc st))
    /\ option_map root (getElementById Widget.phone_input_id (Widget.doc st'))
       = option_map root (getElementById Widget.phone_input_id (Widget.doc st))
    /\ option_map root (getElementById Widget.email_input_id (Widget.doc st'))
       = option_map root (getElementById Widget.email_input_id (Widget.doc st))
    /\ Widget.focus st'
       = option_map (fun n => el_uid (root n))
           (getElementById Widget.name_input_id (Widget.doc st)).
Proof.
  intros HT On Op Oe. unfold Widget.showContactForm, bind, Widget.alloc.
  destruct (WidgetFacts.appendChild_to_messages (Widget.form_node (Widget.fresh st))
              (Widget.set_fresh (Widget.fresh st + 8) st) T HT)
    as (d' & -> & A & HT').
  simpl in A.
  destruct (FormFacts.open_field_found _ _ On) as (m & Hm & Qn).
  destruct (FormFacts.open_field_found _ _ Op) as (m2 & Hm2 & Qp).
  destruct (FormFacts.open_field_found _ _ Oe) as (m3 & Hm3 & Qe).
  pose proof (FormFacts.doc_append_behind _ _ _ _ _ _ Hm Qn A) as Fn.
  pose proof (FormFacts.doc_append_behind _ _ _ _ _ _ Hm2 Qp A) as Fp.
  pose proof (FormFacts.doc_append_behind _ _ _ _ _ _ Hm3 Qe A) as Fe.
  assert (exists x, doc_find (has_id Widget.name_input_id) d' = Some x)
    as [x Hx].
  { destruct Qn as [y Hy].
    pose proof (DocFacts.doc_append_brings (has_id Widget.messages_id)
                  (has_id Widget.name_input_id)
                  (Widget.form_node (Widget.fresh st)) _ _
                  (Widget.leaf
                     (Widget.el (Widget.fresh st + 2) "input"
                        (Some "savbes-name-input") ["savbes-form-input"]
                        (Some "text") (Some "Ваше имя") Empty))
                  eq_refl A) as [x Hx]. eauto. }
  assert (exists x, doc_find (has_id Widget.phone_input_id) d' = Some x)
    as [z Hz].
  { pose proof (DocFacts.doc_append_brings (has_id Widget.messages_id)
                  (has_id Widget.phone_input_id)
                  (Widget.form_node (Widget.fresh st)) _ _
                  (Widget.leaf
                     (Widget.el (Widget.fresh st + 3) "input"
                        (Some "savbes-phone-input") ["savbes-form-input"]
                        (Some "tel") (Some "Ваш телефон") Empty))
                  eq_refl A) as [x0 Hx0]. eauto. }
  unfold Widget.focus_on, Widget.listen_on, getElementById in *.
  simpl Widget.doc. rewrite Hx. simpl Widget.doc. rewrite Hz.
  eexists. split; [reflexivity|]. simpl Widget.doc. simpl Widget.focus.
  split; [exact HT'|]. split; [exact Fn|]. split; [exact Fp|].
  split; [exact Fe|].
  rewrite Hx in Fn.
  destruct (doc_find (has_id Widget.name_input_id) (Widget.doc st)) as [o|];
    [|discriminate].
  simpl in *. injection Fn as ->. reflexivity.
Qed.

Lemma second_form_shares_inputs_witness :
  exists st',
    Widget.showContactForm Scenario.form_open = (Normal tt, st')
    /\ Widget.transcript (Widget.doc st')
       = Some ([Widget.Message false Widget.welcomeMessage;
                Widget.Message true Scenario.first_question;
                Widget.Message false (lit "Оставьте телефон, мы перезвоним.");
                Widget.Form 18]
               ++ [Widget.Form (Widget.fresh Scenario.form_open)])
    /\ option_map root
         (getElementById Widget.name_input_id (Widget.doc st'))
       = option_map root
           (getElementById Widget.name_input_id (Widget.doc Scenario.form_open))
    /\ option_map root
         (getElementById Widget.phone_input_id (Widget.doc st'))
       = option_map root
           (getElementById Widget.phone_input_id (Widget.doc Scenario.form_open))
    /\ option_map root
         (getElementById Widget.email_input_id (Widget.doc st'))
       = option_map root
           (getElementById Widget.email_input_id (Widget.doc Scenario.form_open))
    /\ Widget.focus st'
       = option_map (fun n => el_uid (root n))
           (getElementById Widget.name_input_id (Widget.doc Scenario.form_open)).
Proof.
  apply (second_form_shares_inputs Scenario.form_open
           [Widget.Message false Widget.welcomeMessage;
            Widget.Message true Scenario.first_question;
            Widget.Message false (lit "Оставьте телефон, мы перезвоним.");
            Widget.Form 18]).
  - vm_compute. reflexivity.
  - vm_compute. reflexivity.
  - vm_compute. reflexivity.
  - vm_compute. reflexivity.
Defined.
